(** * 17Call: voucher ledger and call settlement

    A shallow embedding of the request handlers of [src/app.js] over the
    tables of [src/17call_schema.sql].

    Modelling conventions.
    - A table is the list of its rows in insertion order.  A [SELECT ... WHERE]
      is a [filter] followed by the projection on the selected columns, an
      [UPDATE ... WHERE] is a [map] that rewrites the matching rows, and an
      [INSERT] appends a row, failing when a [UNIQUE] column would be
      duplicated.
    - JSON numbers are integers, in [Z].  A string field of a request body
      is a [string], empty when the field is absent; a numeric field is an
      [option Z], [None] when it is undefined.
    - The types of the columns decide what a statement refuses: a value
      outside the 32-bit range for an [INTEGER] column or expression
      ([int4]), a text too long for a [VARCHAR(n)] column ([varchar]).  A
      refused statement throws, and the handler answers with status 500; a
      statement that ran before it stays committed, there being no
      transaction around the queries of the mobile endpoints.
    - The tables carry the columns the handlers read or write.  The columns
      [created_at] and [updated_at], which the defaults and the
      [BEFORE UPDATE] triggers of the schema maintain, are not carried: what
      is said of a row is said of the columns of the record.
    - A character of a [string] is one character of the text.  The handlers
      are modelled on plain text ([plain]: the characters U+0001 to U+007F),
      on which [toUpperCase] is the map of [a-z] to [A-Z] and which the
      database accepts as a parameter; the properties say where they rely
      on it.
    - UUID primary keys produced by the database ([uuid_generate_v4()]) are
      drawn from the counter [next_id]; the call id produced by [uuidv4()] in
      the handler and the values of [Math.random()] are inputs of the handler.
    - [CURRENT_TIMESTAMP] is the [now] argument of a handler.
    - A handler is a function from the database to the new database and the
      HTTP response.  A query on the pool fails only where a column type
      or a [UNIQUE] constraint refuses a value; the queries of the batch
      transaction, which the handler guards by [ROLLBACK], may fail for any
      reason, a column type among them.
    - Concurrent requests interleave at their [await]s: each query is one
      atomic operation on the database.
    - The [ORDER BY] of a listing is a parameter: some arrangement of the
      rows selected.  The arithmetic of a listing is that of JavaScript on
      safe integers ([safe]), where it is exact. *)

From Stdlib Require Import ZArith List String Ascii Bool Lia PeanoNat Permutation.
Import ListNotations.

Local Open Scope string_scope.
Local Open Scope list_scope.
Local Open Scope Z_scope.

(** ** JavaScript primitives used by the handlers *)

Module JS.

(** [!s] on a string-valued field of the request body: an absent field and
    the empty string are both falsy. *)
Definition not (s : string) : bool :=
  match s with
  | EmptyString => true
  | String _ _ => false
  end.

Definition toUpperChar (c : ascii) : ascii :=
  let n := nat_of_ascii c in
  if ((97 <=? n) && (n <=? 122))%nat then ascii_of_nat (n - 32) else c.

(** [s.toUpperCase()] on plain text, where it maps [a-z] to [A-Z] and
    keeps every other character. *)
Fixpoint toUpperCase (s : string) : string :=
  match s with
  | EmptyString => EmptyString
  | String c rest => String (toUpperChar c) (toUpperCase rest)
  end.

(** [s.charAt(i)]: the empty string when [i] is out of range. *)
Definition charAt (s : string) (i : nat) : string :=
  match String.get i s with
  | Some c => String c EmptyString
  | None => EmptyString
  end.

(** [Math.ceil(a / b)] for integers [a] and [b > 0]. *)
Definition ceil_div (a b : Z) : Z := - ((- a) / b).

(** [x || 0] on a number. *)
Definition or0 (x : Z) : Z := if x =? 0 then 0 else x.

End JS.

(** ** Tables of 17call_schema.sql *)

Inductive call_status : Set := active | completed | failed | cancelled.

Module Voucher.
Record row : Type := mk {
  id : nat;
  code : string;
  duration_minutes : Z;
  remaining_minutes : Z;
  is_used : bool;
  is_active : bool;
  device_id : option string;
  used_at : option nat;
  created_by : nat;
  batch_id : option nat
}.
End Voucher.

Module CallLog.
Record row : Type := mk {
  call_id : string;
  voucher_id : option nat;
  phone_number : string;
  country_code : string;
  call_type : string;
  duration_seconds : Z;
  status : call_status;
  started_at : nat;
  ended_at : option nat;
  device_id : option string
}.
End CallLog.

Module VoucherBatch.
Record row : Type := mk {
  id : nat;
  quantity : Z;
  duration_minutes : Z;
  created_by : nat
}.
End VoucherBatch.

Module SystemLog.
Inductive entity : Type :=
| call (callId : string)
| voucher (id : nat)
| voucher_batch (id : nat).

Inductive details : Type :=
| started (phoneNumber callType : string)
| ended (durationSeconds minutesUsed : Z)
| created (durationMinutes : Z) (code : string)
| batch_created (quantity durationMinutes : Z).

Record row : Type := mk {
  action : string;
  entity_id : entity;
  admin_user_id : option nat;
  info : details
}.
End SystemLog.

Record db : Type := mkDb {
  vouchers : list Voucher.row;
  call_logs : list CallLog.row;
  voucher_batches : list VoucherBatch.row;
  system_logs : list SystemLog.row;
  next_id : nat
}.

Definition empty_db : db := mkDb [] [] [] [] 0.

Definition with_vouchers (d : db) (vs : list Voucher.row) : db :=
  mkDb vs (call_logs d) (voucher_batches d) (system_logs d) (next_id d).

Definition with_call_logs (d : db) (cs : list CallLog.row) : db :=
  mkDb (vouchers d) cs (voucher_batches d) (system_logs d) (next_id d).

(** [INSERT INTO system_logs ...] *)
Definition insert_system_log (l : SystemLog.row) (d : db) : db :=
  mkDb (vouchers d) (call_logs d) (voucher_batches d) (system_logs d ++ [l])
       (next_id d).

(** ** Responses *)

Inductive data : Type :=
| ValidateData (valid : bool) (durationMinutes : Z) (voucherId : option nat)
| StartData (callId : string) (remainingMinutes : Z)
| EndData (success : bool) (remainingMinutes : Z)
| GenerateData (code : string) (durationMinutes : Z)
| BatchData (codes : list string) (total : nat).

(** [sendResponse(res, data)] answers with status 200, [sendError(res, error,
    status)] with [status], 400 when omitted. *)
Inductive response : Type :=
| sendResponse (d : data)
| sendError (error : string) (status : nat).

(** ** Column types *)

(** [INTEGER]: the 32-bit range.  A parameter or the value of an
    expression outside it is refused ([integer out of range]). *)
Definition int4 (z : Z) : bool :=
  (-2147483648 <=? z) && (z <=? 2147483647).

(** [BIGINT], the type of [LIMIT] and [OFFSET]. *)
Definition int8 (z : Z) : bool :=
  (-9223372036854775808 <=? z) && (z <=? 9223372036854775807).

(** [Number.isSafeInteger]: the integers on which the arithmetic of
    JavaScript numbers is exact. *)
Definition safe (z : Z) : bool :=
  (-9007199254740991 <=? z) && (z <=? 9007199254740991).

Fixpoint spaces (s : string) : bool :=
  match s with
  | EmptyString => true
  | String c rest => Ascii.eqb c " " && spaces rest
  end.

(** Assignment to a [VARCHAR(n)] column: a text of at most [n] characters
    is stored as it is; a longer one is refused ([value too long for type
    character varying(n)]), unless the characters in excess are all spaces,
    in which case it is cut to [n] characters. *)
Definition varchar (n : nat) (s : string) : option string :=
  if (String.length s <=? n)%nat then Some s
  else if spaces (substring n (String.length s - n) s)
       then Some (substring 0 n s)
       else None.

(** Plain text: every character is between U+0001 and U+007F. *)
Fixpoint plain (s : string) : bool :=
  match s with
  | EmptyString => true
  | String c rest =>
      ((1 <=? nat_of_ascii c) && (nat_of_ascii c <=? 127))%nat && plain rest
  end.

(** ** SQL statements of the mobile endpoints *)

Definition opt_nat_eqb (a : option nat) (b : nat) : bool :=
  match a with
  | Some x => Nat.eqb b x
  | None => false
  end.

(** The columns selected by the validation query:
    [SELECT id, duration_minutes, remaining_minutes, is_used, is_active]. *)
Record validate_row : Type := mkValidateRow {
  vr_id : nat;
  vr_duration_minutes : Z;
  vr_remaining_minutes : Z;
  vr_is_used : bool;
  vr_is_active : bool
}.

(** [voucher.device_id] on a row of that query: the column is not in the
    select list, so the property is [undefined]. *)
Definition vr_device_id (_ : validate_row) : option string := None.

(** [SELECT id, duration_minutes, remaining_minutes, is_used, is_active
     FROM vouchers WHERE code = $1] *)
Definition select_voucher_by_code (c : string) (vs : list Voucher.row)
  : list validate_row :=
  map (fun v => mkValidateRow (Voucher.id v) (Voucher.duration_minutes v)
                  (Voucher.remaining_minutes v) (Voucher.is_used v)
                  (Voucher.is_active v))
      (filter (fun v => String.eqb (Voucher.code v) c) vs).

Definition set_device_id (dev : string) (v : Voucher.row) : Voucher.row :=
  Voucher.mk (Voucher.id v) (Voucher.code v) (Voucher.duration_minutes v)
    (Voucher.remaining_minutes v) (Voucher.is_used v) (Voucher.is_active v)
    (Some dev) (Voucher.used_at v) (Voucher.created_by v) (Voucher.batch_id v).

(** [UPDATE vouchers SET device_id = $1 WHERE id = $2]; [device_id] is
    [VARCHAR(100)], and [None] is the statement refused. *)
Definition update_voucher_device (deviceId : string) (vid : nat)
  (vs : list Voucher.row) : option (list Voucher.row) :=
  match varchar 100 deviceId with
  | None => None
  | Some dev =>
      Some (map (fun v => if Nat.eqb (Voucher.id v) vid
                          then set_device_id dev v else v) vs)
  end.

(** [SELECT remaining_minutes, device_id FROM vouchers
     WHERE id = $1 AND is_active = true AND is_used = false] *)
Definition select_voucher_for_call (vid : nat) (vs : list Voucher.row)
  : list (Z * option string) :=
  map (fun v => (Voucher.remaining_minutes v, Voucher.device_id v))
      (filter (fun v => Nat.eqb (Voucher.id v) vid && Voucher.is_active v
                        && negb (Voucher.is_used v)) vs).

Definition call_id_exists (cid : string) (cs : list CallLog.row) : bool :=
  existsb (fun c => String.eqb (CallLog.call_id c) cid) cs.

(** [INSERT INTO call_logs (call_id, voucher_id, phone_number, country_code,
     call_type, device_id)]: the other columns take their defaults, in
    particular [status] is ['active'].  [phone_number] and [call_type] are
    [VARCHAR(20)] and [country_code] is [VARCHAR(5)]; [device_id] comes from
    a column of its own width, and [call_id], a UUID in text, fits its
    [VARCHAR(50)].  [call_id] is [UNIQUE].  [None] is the statement
    refused. *)
Definition insert_call_log (cid : string) (vid : nat)
  (phoneNumber countryCode callType : string) (dev : option string)
  (now : nat) (d : db) : option db :=
  match varchar 20 phoneNumber, varchar 5 countryCode, varchar 20 callType with
  | Some phone, Some country, Some ctype =>
      if call_id_exists cid (call_logs d) then None
      else Some (with_call_logs d
                   (call_logs d ++
                    [CallLog.mk cid (Some vid) phone country ctype 0 active
                       now None dev]))
  | _, _, _ => None
  end.

(** [SELECT voucher_id FROM call_logs WHERE call_id = $1] *)
Definition select_call_voucher (cid : string) (cs : list CallLog.row)
  : list (option nat) :=
  map CallLog.voucher_id
      (filter (fun c => String.eqb (CallLog.call_id c) cid) cs).

Definition complete_call (secs : Z) (now : nat) (c : CallLog.row)
  : CallLog.row :=
  CallLog.mk (CallLog.call_id c) (CallLog.voucher_id c)
    (CallLog.phone_number c) (CallLog.country_code c) (CallLog.call_type c)
    secs completed (CallLog.started_at c) (Some now) (CallLog.device_id c).

(** [UPDATE call_logs SET duration_seconds = $1, status = 'completed',
     ended_at = CURRENT_TIMESTAMP WHERE call_id = $2]; [duration_seconds] is
    [INTEGER], and [None] is the statement refused. *)
Definition update_call_log (secs : Z) (cid : string) (now : nat)
  (cs : list CallLog.row) : option (list CallLog.row) :=
  if int4 secs
  then Some (map (fun c => if String.eqb (CallLog.call_id c) cid
                           then complete_call secs now c else c) cs)
  else None.

(** The [SET] clause of the voucher update; every right-hand side reads the
    row as it was before the statement. *)
Definition debit_row (minutesUsed : Z) (now : nat) (v : Voucher.row)
  : Voucher.row :=
  let r := Voucher.remaining_minutes v in
  Voucher.mk (Voucher.id v) (Voucher.code v) (Voucher.duration_minutes v)
    (Z.max 0 (r - minutesUsed))
    (if r - minutesUsed <=? 0 then true else Voucher.is_used v)
    (Voucher.is_active v) (Voucher.device_id v)
    (if (r - minutesUsed <=? 0)
        && match Voucher.used_at v with None => true | Some _ => false end
     then Some now else Voucher.used_at v)
    (Voucher.created_by v) (Voucher.batch_id v).

(** [UPDATE vouchers SET remaining_minutes = GREATEST(0, remaining_minutes - $1),
     is_used = ..., used_at = ... WHERE id = $2]; a [NULL] id matches no row.
    These are the rows the statement leaves when it is not refused. *)
Definition update_voucher_debit (minutesUsed : Z) (vid : option nat)
  (now : nat) (vs : list Voucher.row) : list Voucher.row :=
  map (fun v => if opt_nat_eqb vid (Voucher.id v)
                then debit_row minutesUsed now v else v) vs.

(** The statement is refused when its parameter is outside [INTEGER], or
    when [remaining_minutes - $1] is on a row it writes. *)
Definition debit_overflows (minutesUsed : Z) (vid : option nat)
  (vs : list Voucher.row) : bool :=
  negb (int4 minutesUsed)
  || existsb (fun v => opt_nat_eqb vid (Voucher.id v)
                       && negb (int4 (Voucher.remaining_minutes v - minutesUsed)))
             vs.

(** [... RETURNING remaining_minutes]: the new values of the rows updated. *)
Definition returning_remaining (vid : option nat) (vs' : list Voucher.row)
  : list Z :=
  map Voucher.remaining_minutes
      (filter (fun v => opt_nat_eqb vid (Voucher.id v)) vs').

(** ** Mobile endpoints *)

(** [POST /api/v1/vouchers/validate] *)
Definition validate (d : db) (code deviceId : string) : db * response :=
  if JS.not code || JS.not deviceId
  then (d, sendError "Code and deviceId are required" 400)
  else
    match select_voucher_by_code (JS.toUpperCase code) (vouchers d) with
    | [] => (d, sendResponse (ValidateData false 0 None))
    | voucher :: _ =>
        if negb (vr_is_active voucher) || vr_is_used voucher
           || (vr_remaining_minutes voucher <=? 0)
        then (d, sendResponse (ValidateData false 0 None))
        else
          let valid :=
            sendResponse (ValidateData true (vr_remaining_minutes voucher)
                            (Some (vr_id voucher))) in
          match vr_device_id voucher with
          | None =>
              match update_voucher_device deviceId (vr_id voucher)
                      (vouchers d) with
              | None => (d, sendError "Internal server error" 500)
              | Some vs' => (with_vouchers d vs', valid)
              end
          | Some _ => (d, valid)
          end
    end.

(** [POST /api/v1/calls/start]; [callId] is the value of [uuidv4()].  An
    insert that is refused throws, which the handler answers with status
    500. *)
Definition startCall (d : db) (voucherId : option nat)
  (phoneNumber countryCode callType : string) (callId : string) (now : nat)
  : db * response :=
  match voucherId with
  | None => (d, sendError "All fields are required" 400)
  | Some vid =>
      if JS.not phoneNumber || JS.not countryCode || JS.not callType
      then (d, sendError "All fields are required" 400)
      else
        match select_voucher_for_call vid (vouchers d) with
        | [] => (d, sendError "Invalid or expired voucher" 400)
        | (remaining, dev) :: _ =>
            if remaining <=? 0
            then (d, sendError "No minutes remaining on voucher" 400)
            else
              match insert_call_log callId vid phoneNumber countryCode
                      callType dev now d with
              | None => (d, sendError "Internal server error" 500)
              | Some d1 =>
                  let d2 :=
                    insert_system_log
                      (SystemLog.mk "call_started" (SystemLog.call callId)
                         None (SystemLog.started phoneNumber callType)) d1 in
                  (d2, sendResponse (StartData callId remaining))
              end
        end
  end.

(** [Math.ceil(actualDurationSeconds / 60)] *)
Definition minutesUsed (actualDurationSeconds : Z) : Z :=
  JS.ceil_div actualDurationSeconds 60.

(** [POST /api/v1/calls/end]; [actualDurationSeconds] is [None] when the
    field is [undefined].  When the update of the call is refused nothing
    has been written; when the debit is refused the update of the call
    stays. *)
Definition endCall (d : db) (callId : string)
  (actualDurationSeconds : option Z) (now : nat) : db * response :=
  match actualDurationSeconds with
  | None => (d, sendError "CallId and actualDurationSeconds are required" 400)
  | Some secs =>
      if JS.not callId
      then (d, sendError "CallId and actualDurationSeconds are required" 400)
      else
        match select_call_voucher callId (call_logs d) with
        | [] => (d, sendError "Call not found" 400)
        | voucherId :: _ =>
            let used := minutesUsed secs in
            match update_call_log secs callId now (call_logs d) with
            | None => (d, sendError "Internal server error" 500)
            | Some cs' =>
                let d1 := with_call_logs d cs' in
                if debit_overflows used voucherId (vouchers d1)
                then (d1, sendError "Internal server error" 500)
                else
                  let vs' :=
                    update_voucher_debit used voucherId now (vouchers d1) in
                  let d2 := with_vouchers d1 vs' in
                  let remainingMinutes :=
                    match returning_remaining voucherId vs' with
                    | r :: _ => JS.or0 r
                    | [] => 0
                    end in
                  let d3 :=
                    insert_system_log
                      (SystemLog.mk "call_ended" (SystemLog.call callId) None
                         (SystemLog.ended secs used)) d2 in
                  (d3, sendResponse (EndData true remainingMinutes))
            end
        end
  end.

(** ** Code allocation *)

Definition chars : string := "ABCDEFGHIJKLMNOPQRSTUVWXYZ0123456789".

(** One run of [generateVoucherCode] reads [Math.random()] twelve times;
    [rnd i] is the value of [Math.floor(Math.random() * chars.length)] in
    iteration [i]. *)
Definition draw : Type := nat -> nat.

Fixpoint generate_loop (rnd : draw) (i n : nat) (result : string) : string :=
  match n with
  | O => result
  | S n' =>
      generate_loop rnd (S i) n' (String.append result (JS.charAt chars (rnd i)))
  end.

Definition generateVoucherCode (rnd : draw) : string :=
  generate_loop rnd 0 12 "".

(** [SELECT id FROM vouchers WHERE code = $1] *)
Definition select_id_by_code (c : string) (vs : list Voucher.row) : list nat :=
  map Voucher.id (filter (fun v => String.eqb (Voucher.code v) c) vs).

Definition is_empty {A : Type} (rows : list A) : bool :=
  match rows with
  | [] => true
  | _ :: _ => false
  end.

(** [INSERT INTO vouchers (code, duration_minutes, remaining_minutes,
     created_by [, batch_id]) VALUES ($1, $2, $2, $3 [, $4]) RETURNING id]:
    [is_used], [is_active], [device_id] and [used_at] take their defaults and
    [code] is [UNIQUE]; a code drawn by [generateVoucherCode] fits its
    [VARCHAR(20)].  The [INTEGER] range of [$2] is tested where the
    statement is issued on the pool ([generate]); inside the transaction it
    is one of the failures of a query. *)
Definition insert_voucher (c : string) (durationMinutes : Z) (admin : nat)
  (batch : option nat) (d : db) : option (nat * db) :=
  if is_empty (select_id_by_code c (vouchers d))
  then Some (next_id d,
             mkDb (vouchers d ++
                   [Voucher.mk (next_id d) c durationMinutes durationMinutes
                      false true None None admin batch])
                  (call_logs d) (voucher_batches d) (system_logs d)
                  (S (next_id d)))
  else None.

(** [INSERT INTO voucher_batches (quantity, duration_minutes, created_by)
     VALUES ($1, $2, $3) RETURNING id] *)
Definition insert_voucher_batch (quantity durationMinutes : Z) (admin : nat)
  (d : db) : option (nat * db) :=
  Some (next_id d,
        mkDb (vouchers d) (call_logs d)
             (voucher_batches d ++
              [VoucherBatch.mk (next_id d) quantity durationMinutes admin])
             (system_logs d) (S (next_id d))).

(** The [while (!isUnique)] loop of the single-voucher endpoint, over the
    draws it consumes; [None] when every draw supplied is already taken, so
    that the loop is still running. *)
Fixpoint uniqueCode (vs : list Voucher.row) (draws : list draw)
  : option string :=
  match draws with
  | [] => None
  | rnd :: rest =>
      let code := generateVoucherCode rnd in
      if is_empty (select_id_by_code code vs) then Some code
      else uniqueCode vs rest
  end.

(** [POST /api/v1/admin/vouchers/generate], for the authenticated
    administrator [admin]; [None] when the handler does not answer. *)
Definition generate (d : db) (durationMinutes : option Z) (admin : nat)
  (draws : list draw) : option (db * response) :=
  match durationMinutes with
  | None => Some (d, sendError "Valid durationMinutes is required" 400)
  | Some m =>
      if m <=? 0
      then Some (d, sendError "Valid durationMinutes is required" 400)
      else
        match uniqueCode (vouchers d) draws with
        | None => None
        | Some code =>
            match (if int4 m then insert_voucher code m admin None d
                   else None) with
            | None => Some (d, sendError "Internal server error" 500)
            | Some (vid, d1) =>
                let d2 :=
                  insert_system_log
                    (SystemLog.mk "voucher_created" (SystemLog.voucher vid)
                       (Some admin) (SystemLog.created m code)) d1 in
                Some (d2, sendResponse (GenerateData code m))
            end
        end
  end.

(** ** The batch transaction *)

Section Transaction.

(** [faults k] holds when the query number [k] issued on the transaction's
    client is made to fail. *)
Variable faults : nat -> bool.

Record tx_state : Type := mkTx {
  work : db;                (* the tables as the transaction sees them *)
  issued : nat;             (* queries issued so far on the client *)
  rand : list draw          (* draws not yet consumed *)
}.

Inductive outcome (A : Type) : Type :=
| returned (a : A) (s : tx_state)
| thrown
| looping.

Arguments returned {A} a s.
Arguments thrown {A}.
Arguments looping {A}.

Definition tx (A : Type) : Type := tx_state -> outcome A.

Definition ret {A : Type} (a : A) : tx A := fun s => returned a s.

Definition bind {A B : Type} (m : tx A) (k : A -> tx B) : tx B :=
  fun s =>
    match m s with
    | returned a s' => k a s'
    | thrown => thrown
    | looping => looping
    end.

Notation "x <- m ;; k" := (bind m (fun x => k))
  (at level 61, m at next level, right associativity).

(** [await client.query(...)]: throws when the query is made to fail or
    the statement is refused by a constraint. *)
Definition query {A : Type} (stmt : db -> option (A * db)) : tx A :=
  fun s =>
    if faults (issued s) then thrown
    else
      match stmt (work s) with
      | None => thrown
      | Some (a, w) => returned a (mkTx w (S (issued s)) (rand s))
      end.

Definition control : db -> option (unit * db) := fun w => Some (tt, w).

Definition select_code (c : string) : db -> option (list nat * db) :=
  fun w => Some (select_id_by_code c (vouchers w), w).

(** The [while (!isUnique)] loop of the batch endpoint, by recursion on
    the draws left; it is [looping] when they run out. *)
Fixpoint unique_loop (rs : list draw) : tx string :=
  fun s =>
    match rs with
    | [] => looping
    | rnd :: rest =>
        let code := generateVoucherCode rnd in
        match query (select_code code) (mkTx (work s) (issued s) rest) with
        | returned existing s' =>
            if is_empty existing then returned code s'
            else unique_loop rest s'
        | thrown => thrown
        | looping => looping
        end
    end.

Definition allocate : tx string := fun s => unique_loop (rand s) s.

(** [for (let i = 0; i < quantity; i++)], with [n] iterations to go. *)
Fixpoint voucher_loop (n : nat) (durationMinutes : Z) (admin batchId : nat)
  (codes : list string) : tx (list string) :=
  match n with
  | O => ret codes
  | S n' =>
      code <- allocate ;;
      _ <- query (insert_voucher code durationMinutes admin (Some batchId)) ;;
      voucher_loop n' durationMinutes admin batchId (codes ++ [code])
  end.

Definition batch_tx (quantity durationMinutes : Z) (admin : nat)
  : tx (nat * list string) :=
  _ <- query control ;;                                         (* BEGIN *)
  batchId <- query (insert_voucher_batch quantity durationMinutes admin) ;;
  codes <- voucher_loop (Z.to_nat quantity) durationMinutes admin batchId [] ;;
  _ <- query control ;;                                         (* COMMIT *)
  ret (batchId, codes).

(** [POST /api/v1/admin/vouchers/batch].  A throw inside the transaction
    is answered by [ROLLBACK], which leaves the database as it was. *)
Definition batch (d : db) (quantity durationMinutes : option Z) (admin : nat)
  (draws : list draw) : option (db * response) :=
  match quantity, durationMinutes with
  | Some q, Some m =>
      if (q <=? 0) || (m <=? 0)
      then Some (d, sendError "Valid quantity and durationMinutes are required" 400)
      else if q >? 1000
      then Some (d, sendError "Maximum 1000 vouchers per batch" 400)
      else
        match batch_tx q m admin (mkTx d 0 draws) with
        | returned (batchId, codes) s =>
            let d' :=
              insert_system_log
                (SystemLog.mk "voucher_batch_created"
                   (SystemLog.voucher_batch batchId) (Some admin)
                   (SystemLog.batch_created q m)) (work s) in
            Some (d', sendResponse (BatchData codes (List.length codes)))
        | thrown => Some (d, sendError "Internal server error" 500)
        | looping => None
        end
  | _, _ =>
      Some (d, sendError "Valid quantity and durationMinutes are required" 400)
  end.

End Transaction.

Arguments returned {A} a s.
Arguments thrown {A}.
Arguments looping {A}.

(** The number of codes in [cs] that are neither among [taken] nor drawn
    earlier in [cs]: each of them ends one run of the [while (!isUnique)]
    loop. *)
Fixpoint supply (taken cs : list string) : nat :=
  match cs with
  | [] => O
  | c :: rest =>
      if existsb (String.eqb c) taken then supply taken rest
      else S (supply (c :: taken) rest)
  end.

(** No query issued between two states of a transaction was made to fail. *)
Definition clean (faults : nat -> bool) (s s' : tx_state) : Prop :=
  forall k, (issued s <= k < issued s')%nat -> faults k = false.

(** ** The service as a transition system *)

Inductive request : Type :=
| ValidateVoucher (code deviceId : string)
| StartCall (voucherId : option nat) (phoneNumber countryCode callType : string)
            (callId : string) (now : nat)
| EndCall (callId : string) (actualDurationSeconds : option Z) (now : nat)
| GenerateVoucher (durationMinutes : option Z) (admin : nat) (draws : list draw)
| GenerateVouchers (quantity durationMinutes : option Z) (admin : nat)
                   (draws : list draw) (faults : nat -> bool).

Definition handle (d : db) (r : request) : option (db * response) :=
  match r with
  | ValidateVoucher code deviceId => Some (validate d code deviceId)
  | StartCall v p c t cid now => Some (startCall d v p c t cid now)
  | EndCall cid secs now => Some (endCall d cid secs now)
  | GenerateVoucher m admin draws => generate d m admin draws
  | GenerateVouchers q m admin draws faults => batch faults d q m admin draws
  end.

(** The database after a request; a request that is never answered has
    committed nothing. *)
Definition step (d : db) (r : request) : db :=
  match handle d r with
  | Some (d', _) => d'
  | None => d
  end.

Definition run (d : db) (rs : list request) : db := fold_left step rs d.

Definition reachable (d : db) : Prop := exists rs, d = run empty_db rs.

(** [SELECT * FROM vouchers WHERE id = vid], first row. *)
Definition voucher_by_id (vid : nat) (d : db) : option Voucher.row :=
  find (fun v => Nat.eqb (Voucher.id v) vid) (vouchers d).

Definition call_by_id (cid : string) (d : db) : option CallLog.row :=
  find (fun c => String.eqb (CallLog.call_id c) cid) (call_logs d).

Definition remaining_of (vid : nat) (d : db) : option Z :=
  option_map Voucher.remaining_minutes (voucher_by_id vid d).

(** A request whose reported call duration, if any, is not negative. *)
Definition billable (r : request) : Prop :=
  match r with
  | EndCall _ (Some secs) _ => 0 <= secs
  | _ => True
  end.

(** ** The ledger debit on its own *)

(** The voucher update of [endCall] as one storage operation. *)
Definition debit (vid : nat) (minutes : Z) (now : nat) (d : db) : db :=
  with_vouchers d (update_voucher_debit minutes (Some vid) now (vouchers d)).

(** Debits applied in the order in which the storage layer serialises them;
    each carries its amount and the time at which it runs. *)
Definition run_debits (vid : nat) (sched : list (Z * nat)) (d : db) : db :=
  fold_left (fun w mn => debit vid (fst mn) (snd mn) w) sched d.

Definition total (ms : list (Z * nat)) : Z :=
  fold_right (fun mn acc => fst mn + acc) 0 ms.

(** ** Requests in flight *)

(** An [endCall] request between two of its [await]s: the storage
    operation it issues next, with the local variables it holds. *)
Inductive end_pc : Type :=
| at_lookup                                (* SELECT voucher_id FROM call_logs *)
| at_update_call (voucherId : option nat)  (* UPDATE call_logs *)
| at_debit (voucherId : option nat)        (* UPDATE vouchers *)
| at_log (remainingMinutes : Z)            (* INSERT INTO system_logs *)
| answered (r : response).

Record end_thread : Type := mkThread {
  t_callId : string;
  t_secs : Z;
  t_now : nat;
  t_pc : end_pc
}.

(** The handler up to its first [await]. *)
Definition spawn (callId : string) (actualDurationSeconds : option Z)
  (now : nat) : end_thread :=
  match actualDurationSeconds with
  | None =>
      mkThread callId 0 now
        (answered (sendError "CallId and actualDurationSeconds are required" 400))
  | Some secs =>
      mkThread callId secs now
        (if JS.not callId
         then answered
                (sendError "CallId and actualDurationSeconds are required" 400)
         else at_lookup)
  end.

(** One storage operation of the request, up to its next [await]. *)
Definition thread_step (d : db) (t : end_thread) : db * end_thread :=
  let at_pc := mkThread (t_callId t) (t_secs t) (t_now t) in
  match t_pc t with
  | at_lookup =>
      match select_call_voucher (t_callId t) (call_logs d) with
      | [] => (d, at_pc (answered (sendError "Call not found" 400)))
      | voucherId :: _ => (d, at_pc (at_update_call voucherId))
      end
  | at_update_call voucherId =>
      match update_call_log (t_secs t) (t_callId t) (t_now t) (call_logs d) with
      | None => (d, at_pc (answered (sendError "Internal server error" 500)))
      | Some cs' => (with_call_logs d cs', at_pc (at_debit voucherId))
      end
  | at_debit voucherId =>
      if debit_overflows (minutesUsed (t_secs t)) voucherId (vouchers d)
      then (d, at_pc (answered (sendError "Internal server error" 500)))
      else
        let vs' :=
          update_voucher_debit (minutesUsed (t_secs t)) voucherId (t_now t)
            (vouchers d) in
        (with_vouchers d vs',
         at_pc (at_log match returning_remaining voucherId vs' with
                       | r :: _ => JS.or0 r
                       | [] => 0
                       end))
  | at_log remainingMinutes =>
      (insert_system_log
         (SystemLog.mk "call_ended" (SystemLog.call (t_callId t)) None
            (SystemLog.ended (t_secs t) (minutesUsed (t_secs t)))) d,
       at_pc (answered (sendResponse (EndData true remainingMinutes))))
  | answered _ => (d, t)
  end.

Fixpoint thread_run (n : nat) (d : db) (t : end_thread) : db * end_thread :=
  match n with
  | O => (d, t)
  | S n' => let (d', t') := thread_step d t in thread_run n' d' t'
  end.

Fixpoint set_nth {A : Type} (i : nat) (x : A) (l : list A) : list A :=
  match l, i with
  | [], _ => []
  | _ :: rest, O => x :: rest
  | a :: rest, S i' => a :: set_nth i' x rest
  end.

(** The requests in flight take their steps in the order [sched] names
    them. *)
Fixpoint exec (sched : list nat) (d : db) (ts : list end_thread)
  : db * list end_thread :=
  match sched with
  | [] => (d, ts)
  | i :: rest =>
      match nth_error ts i with
      | None => exec rest d ts
      | Some t =>
          let (d', t') := thread_step d t in exec rest d' (set_nth i t' ts)
      end
  end.

Definition finished (t : end_thread) : Prop :=
  match t_pc t with
  | answered _ => True
  | _ => False
  end.

(** The minutes billed by the requests, and by those whose debit is done. *)
Definition billed (ts : list end_thread) : Z :=
  fold_right (fun t acc => minutesUsed (t_secs t) + acc) 0 ts.

Definition debited_by (t : end_thread) : Z :=
  match t_pc t with
  | at_log _ | answered _ => minutesUsed (t_secs t)
  | _ => 0
  end.

Definition debited (ts : list end_thread) : Z :=
  fold_right (fun t acc => debited_by t + acc) 0 ts.

(** A request on a call of the voucher [vid], with a duration that is not
    negative and within [INTEGER], which has passed the argument check. *)
Definition settles (vid : nat) (d : db) (t : end_thread) : Prop :=
  (0 <= t_secs t /\ int4 (t_secs t) = true) /\
  (exists c, call_by_id (t_callId t) d = Some c /\
             CallLog.voucher_id c = Some vid) /\
  match t_pc t with
  | at_lookup | at_log _ => True
  | at_update_call vo | at_debit vo => vo = Some vid
  | answered r => exists rem, r = sendResponse (EndData true rem)
  end.

(** ** Sample data *)

Module Sample.

Definition rndA : draw := fun _ => 0%nat.
Definition rndB : draw := fun _ => 1%nat.

Definition no_faults : nat -> bool := fun _ => false.

(** One voucher of ten minutes, with code [AAAAAAAAAAAA] and id 0. *)
Definition issued_voucher : db :=
  run empty_db [GenerateVoucher (Some 10) 7%nat [rndA]].

(** The voucher validated from one device, then from another. *)
Definition bound_once : db :=
  step issued_voucher (ValidateVoucher "aaaaaaaaaaaa" "device-A").

Definition bound_twice : db :=
  step bound_once (ValidateVoucher "aaaaaaaaaaaa" "device-B").

(** The voucher and one call started on it. *)
Definition setup : list request :=
  [ GenerateVoucher (Some 10) 7%nat [rndA];
    StartCall (Some 0%nat) "5550100" "+1" "local" "call-1" 100%nat ].

Definition d0 : db := run empty_db setup.

(** The call ended once, and then ended again. *)
Definition ended_once : db := step d0 (EndCall "call-1" (Some 60) 200%nat).

Definition ended_twice : db :=
  step ended_once (EndCall "call-1" (Some 60) 300%nat).

(** The call ended with a negative duration. *)
Definition ended_negative : db :=
  step d0 (EndCall "call-1" (Some (-120)) 200%nat).

(** A voucher that holds as many minutes as [INTEGER] allows, and one
    call started on it. *)
Definition full : db :=
  run empty_db
    [ GenerateVoucher (Some 2147483647) 7%nat [rndA];
      StartCall (Some 0%nat) "5550100" "+1" "local" "call-1" 100%nat ].

(** A device id of 101 characters, and one of 100 characters followed by a
    space. *)
Definition long_device : string :=
  string_of_list_ascii (repeat "a"%char 101).

Definition padded_device : string :=
  String.append (string_of_list_ascii (repeat "a"%char 100)) " ".

(** A call whose voucher row has been deleted ([ON DELETE SET NULL]). *)
Definition orphan : db :=
  mkDb []
       [CallLog.mk "call-9" None "5550100" "+1" "local" 0 active 100%nat
          None None]
       [] [] 0.

End Sample.

(** ** Shapes of rows *)

(** A voucher row as the two [INSERT INTO vouchers] statements create it. *)
Definition minted (m : Z) (admin : nat) (b : option nat) (v : Voucher.row)
  : Prop :=
  Voucher.duration_minutes v = m /\ Voucher.remaining_minutes v = m /\
  Voucher.is_used v = false /\ Voucher.is_active v = true /\
  Voucher.device_id v = None /\ Voucher.used_at v = None /\
  Voucher.created_by v = admin /\ Voucher.batch_id v = b.

Definition codes_of (vs : list Voucher.row) : list string :=
  map Voucher.code vs.

(** What a request may do to a voucher row that exists already. *)
Inductive row_step (r : request) : Voucher.row -> Voucher.row -> Prop :=
| row_kept v : row_step r v v
| row_bound v dev : row_step r v (set_device_id dev v)
| row_debited v cid secs now :
    r = EndCall cid (Some secs) now ->
    row_step r v (debit_row (minutesUsed secs) now v).

(** What a request may do to a call row that exists already. *)
Inductive call_step : CallLog.row -> CallLog.row -> Prop :=
| call_kept c : call_step c c
| call_completed c secs now : call_step c (complete_call secs now c).

(** ** Invariants *)

Definition calls_settled (d : db) : Prop :=
  forall c, In c (call_logs d) ->
            CallLog.status c = active \/ CallLog.status c = completed.

Definition calls_linked (d : db) : Prop :=
  forall c, In c (call_logs d) ->
            exists vid v, CallLog.voucher_id c = Some vid /\
                          voucher_by_id vid d = Some v.

Definition balances_nonneg (d : db) : Prop :=
  forall v, In v (vouchers d) -> 0 <= Voucher.remaining_minutes v.

Definition balances_bounded (d : db) : Prop :=
  forall v, In v (vouchers d) ->
            Voucher.remaining_minutes v <= Voucher.duration_minutes v.

(** What holds between two steps of requests that settle calls of the
    voucher [vid], whose balance was [r0] when they arrived. *)
Definition in_flight (vid : nat) (r0 : Z) (d : db) (ts : list end_thread)
  : Prop :=
  remaining_of vid d = Some (r0 - debited ts) /\ Forall (settles vid d) ts /\
  NoDup (map Voucher.id (vouchers d)).

(** ** Keys and flags of the rows *)

(** The [PRIMARY KEY] and [UNIQUE] constraints of the schema on the tables
    the handlers write. *)
Definition keys_unique (d : db) : Prop :=
  Forall (fun v => (Voucher.id v < next_id d)%nat) (vouchers d) /\
  NoDup (map Voucher.id (vouchers d)) /\
  NoDup (codes_of (vouchers d)) /\
  NoDup (map CallLog.call_id (call_logs d)).

(** How the flags of a voucher go together. *)
Definition flags_consistent (v : Voucher.row) : Prop :=
  Voucher.is_active v = true /\
  (Voucher.is_used v = true <-> Voucher.used_at v <> None) /\
  (Voucher.is_used v = false -> 0 < Voucher.remaining_minutes v).

(** A row and a later state of the same row. *)
Definition same_voucher (v v' : Voucher.row) : Prop :=
  Voucher.id v' = Voucher.id v /\ Voucher.code v' = Voucher.code v /\
  Voucher.duration_minutes v' = Voucher.duration_minutes v /\
  Voucher.is_active v' = Voucher.is_active v /\
  Voucher.created_by v' = Voucher.created_by v /\
  Voucher.batch_id v' = Voucher.batch_id v /\
  (Voucher.is_used v = true -> Voucher.is_used v' = true) /\
  (forall t, Voucher.used_at v = Some t -> Voucher.used_at v' = Some t).

Definition same_call (c c' : CallLog.row) : Prop :=
  CallLog.call_id c' = CallLog.call_id c /\
  CallLog.voucher_id c' = CallLog.voucher_id c /\
  CallLog.phone_number c' = CallLog.phone_number c /\
  CallLog.country_code c' = CallLog.country_code c /\
  CallLog.call_type c' = CallLog.call_type c /\
  CallLog.started_at c' = CallLog.started_at c /\
  CallLog.device_id c' = CallLog.device_id c /\
  (CallLog.status c = completed -> CallLog.status c' = completed).

(** A voucher row and the same row but for its device: the columns [id],
    [code], [duration_minutes], [remaining_minutes], [is_used],
    [is_active], [used_at], [created_by] and [batch_id] agree. *)
Definition same_but_device (v v' : Voucher.row) : Prop :=
  Voucher.id v' = Voucher.id v /\ Voucher.code v' = Voucher.code v /\
  Voucher.duration_minutes v' = Voucher.duration_minutes v /\
  Voucher.remaining_minutes v' = Voucher.remaining_minutes v /\
  Voucher.is_used v' = Voucher.is_used v /\
  Voucher.is_active v' = Voucher.is_active v /\
  Voucher.used_at v' = Voucher.used_at v /\
  Voucher.created_by v' = Voucher.created_by v /\
  Voucher.batch_id v' = Voucher.batch_id v.

(** A used voucher holds no minutes. *)
Definition used_is_empty (v : Voucher.row) : Prop :=
  Voucher.is_used v = true -> Voucher.remaining_minutes v = 0.

(** ** Listing the vouchers *)

(** [parseInt(req.query.page) || 1] and
    [Math.min(parseInt(req.query.limit) || 50, 100)]; the argument is the
    value of [parseInt], [None] when it is [NaN]. *)
Definition page_of (parsed : option Z) : Z :=
  match parsed with
  | None => 1
  | Some n => if n =? 0 then 1 else n
  end.

Definition limit_of (parsed : option Z) : Z :=
  Z.min (match parsed with
         | None => 50
         | Some n => if n =? 0 then 50 else n
         end) 100.

(** The [WHERE] clause chosen by [req.query.status]; any other value, or
    none, selects every row. *)
Definition where_status (status : string) (v : Voucher.row) : bool :=
  if String.eqb status "active"
  then Voucher.is_active v && negb (Voucher.is_used v)
  else if String.eqb status "used" then Voucher.is_used v
  else if String.eqb status "inactive" then negb (Voucher.is_active v)
  else true.

(** The columns of the listing that the tables of this file carry. *)
Record listed_voucher : Type := mkListed {
  lv_id : nat;
  lv_code : string;
  lv_duration_minutes : Z;
  lv_remaining_minutes : Z;
  lv_is_used : bool;
  lv_is_active : bool;
  lv_device_id : option string;
  lv_used_at : option nat
}.

Definition listed (v : Voucher.row) : listed_voucher :=
  mkListed (Voucher.id v) (Voucher.code v) (Voucher.duration_minutes v)
    (Voucher.remaining_minutes v) (Voucher.is_used v) (Voucher.is_active v)
    (Voucher.device_id v) (Voucher.used_at v).

Record voucher_page : Type := mkPage {
  pg_vouchers : list listed_voucher;
  pg_total : nat;
  pg_page : Z;
  pg_limit : Z
}.

Section Listing.

(** [ORDER BY created_at DESC]: the rows in some order that the creation
    times allow. *)
Variable newest_first : list Voucher.row -> list Voucher.row.

(** [GET /api/v1/admin/vouchers]; a negative [LIMIT] or [OFFSET], or an
    [OFFSET] beyond [BIGINT], makes the query fail, which is answered with
    status 500. *)
Definition listVouchers (d : db) (page limit : option Z) (status : string)
  : voucher_page + string * nat :=
  let page := page_of page in
  let limit := limit_of limit in
  let offset := (page - 1) * limit in
  if (limit <? 0) || (offset <? 0) || negb (int8 offset)
  then inr ("Internal server error", 500%nat)
  else
    let matching := filter (where_status status) (vouchers d) in
    inl (mkPage
           (map listed
              (firstn (Z.to_nat limit)
                 (skipn (Z.to_nat offset) (newest_first matching))))
           (List.length matching) page limit).

End Listing.

(** ** Listing the calls *)

(** The columns of the call listing that the tables of this file carry;
    [voucher_code] is [None] where the [LEFT JOIN] finds no voucher. *)
Record listed_call : Type := mkListedCall {
  lc_call_id : string;
  lc_phone_number : string;
  lc_country_code : string;
  lc_call_type : string;
  lc_duration_seconds : Z;
  lc_status : call_status;
  lc_started_at : nat;
  lc_ended_at : option nat;
  lc_device_id : option string;
  lc_voucher_code : option string
}.

Definition listed_call_of (c : CallLog.row) (code : option string)
  : listed_call :=
  mkListedCall (CallLog.call_id c) (CallLog.phone_number c)
    (CallLog.country_code c) (CallLog.call_type c) (CallLog.duration_seconds c)
    (CallLog.status c) (CallLog.started_at c) (CallLog.ended_at c)
    (CallLog.device_id c) code.

(** [call_logs cl LEFT JOIN vouchers v ON cl.voucher_id = v.id], for one
    call: a row per matching voucher, and one row without a code when none
    matches. *)
Definition join_voucher (vs : list Voucher.row) (c : CallLog.row)
  : list listed_call :=
  match filter (fun v => opt_nat_eqb (CallLog.voucher_id c) (Voucher.id v)) vs with
  | [] => [listed_call_of c None]
  | v :: rest =>
      map (fun x => listed_call_of c (Some (Voucher.code x))) (v :: rest)
  end.

Record call_page : Type := mkCallPage {
  cp_calls : list listed_call;
  cp_total : nat;
  cp_page : Z;
  cp_limit : Z
}.

Section CallListing.

(** [ORDER BY cl.started_at DESC]: the joined rows in some order that the
    start times allow. *)
Variable latest_first : list listed_call -> list listed_call.

(** [GET /api/v1/admin/calls]; [total] counts the rows of [call_logs]. *)
Definition listCalls (d : db) (page limit : option Z)
  : call_page + string * nat :=
  let page := page_of page in
  let limit := limit_of limit in
  let offset := (page - 1) * limit in
  if (limit <? 0) || (offset <? 0) || negb (int8 offset)
  then inr ("Internal server error", 500%nat)
  else
    let joined := flat_map (join_voucher (vouchers d)) (call_logs d) in
    inl (mkCallPage
           (firstn (Z.to_nat limit)
              (skipn (Z.to_nat offset) (latest_first joined)))
           (List.length (call_logs d)) page limit).

End CallListing.

(** * Properties *)

(** ** Lists as tables *)

Section Tables.

Context {A : Type}.
Variable p : A -> bool.

Lemma filter_find (l : list A) :
  (filter p l = [] /\ find p l = None) \/
  (exists x t, filter p l = x :: t /\ find p l = Some x).
Proof.
  induction l as [|a l IH]; simpl.
  - left; split; reflexivity.
  - destruct (p a) eqn:E.
    + right. exists a, (filter p l). split; reflexivity.
    + exact IH.
Qed.

Lemma find_map_stable (f : A -> A) (l : list A) :
  (forall x, p (f x) = p x) ->
  find p (map f l) = option_map f (find p l).
Proof.
  intros Hp. induction l as [|a l IH]; simpl; [reflexivity|].
  rewrite Hp. destruct (p a); [reflexivity | exact IH].
Qed.

Lemma find_app_some (l l' : list A) (x : A) :
  find p l = Some x -> find p (l ++ l') = Some x.
Proof.
  induction l as [|a l IH]; simpl; [discriminate|].
  destruct (p a); [trivial | exact IH].
Qed.

Lemma find_none_filter (l : list A) :
  (forall x, In x l -> p x = false) -> filter p l = [].
Proof.
  induction l as [|a l IH]; simpl; intros H; [reflexivity|].
  rewrite (H a (or_introl eq_refl)). apply IH. intros x Hx. apply H. now right.
Qed.

End Tables.

(** ** Arithmetic of the billing rule *)

Lemma or0_id (x : Z) : JS.or0 x = x.
Proof. unfold JS.or0. destruct (x =? 0) eqn:E; [apply Z.eqb_eq in E; lia | reflexivity]. Qed.

Lemma minutesUsed_ceiling (secs : Z) :
  60 * (minutesUsed secs - 1) < secs <= 60 * minutesUsed secs.
Proof.
  unfold minutesUsed, JS.ceil_div.
  pose proof (Z.div_mod (- secs) 60 ltac:(lia)) as Hd.
  pose proof (Z.mod_pos_bound (- secs) 60 ltac:(lia)) as Hm.
  lia.
Qed.

Lemma minutesUsed_nonneg (secs : Z) : 0 <= secs -> 0 <= minutesUsed secs.
Proof. pose proof (minutesUsed_ceiling secs). lia. Qed.

Lemma not_nonempty (s : string) : s <> "" -> JS.not s = false.
Proof. destruct s; [congruence | reflexivity]. Qed.

(** ** Settling a call *)

Lemma voucher_by_id_debit m vo now vid d :
  voucher_by_id vid
    (with_vouchers d (update_voucher_debit m vo now (vouchers d))) =
  option_map (fun v => if opt_nat_eqb vo (Voucher.id v)
                       then debit_row m now v else v)
             (voucher_by_id vid d).
Proof.
  unfold update_voucher_debit, voucher_by_id. simpl vouchers.
  apply find_map_stable. intros x.
  destruct (opt_nat_eqb vo (Voucher.id x)); reflexivity.
Qed.

Lemma voucher_by_id_eq vid d v :
  voucher_by_id vid d = Some v -> Nat.eqb (Voucher.id v) vid = true.
Proof. intros H. apply find_some in H. apply H. Qed.

Lemma minutesUsed_int4 (secs : Z) :
  int4 secs = true -> int4 (minutesUsed secs) = true.
Proof.
  unfold int4. intros H. apply andb_true_iff in H. destruct H as [H1 H2].
  apply Z.leb_le in H1, H2. pose proof (minutesUsed_ceiling secs).
  apply andb_true_iff. split; apply Z.leb_le; lia.
Qed.

Lemma int4_bounds (z : Z) :
  int4 z = true <-> -2147483648 <= z <= 2147483647.
Proof.
  unfold int4. rewrite andb_true_iff, !Z.leb_le. tauto.
Qed.

Lemma debit_other_rows m vid vs :
  ~ In vid (map Voucher.id vs) ->
  existsb (fun v => opt_nat_eqb (Some vid) (Voucher.id v)
                    && negb (int4 (Voucher.remaining_minutes v - m))) vs =
  false.
Proof.
  induction vs as [|a vs IH]; simpl; intros H; [reflexivity|].
  destruct (Nat.eqb (Voucher.id a) vid) eqn:E.
  - apply Nat.eqb_eq in E. elim H. now left.
  - simpl. apply IH. intros Hin. apply H. now right.
Qed.

(** On a table whose ids are distinct the debit is refused only for the
    row it writes. *)
Lemma debit_fits m vid vs v :
  NoDup (map Voucher.id vs) ->
  find (fun x => Nat.eqb (Voucher.id x) vid) vs = Some v ->
  int4 m = true ->
  int4 (Voucher.remaining_minutes v - m) = true ->
  debit_overflows m (Some vid) vs = false.
Proof.
  intros Hnd Hf Hm Hr. unfold debit_overflows. rewrite Hm. simpl.
  induction vs as [|a vs IH]; [reflexivity|].
  simpl in Hf, Hnd |- *. inversion Hnd as [|? ? Hnot Hnd']; subst.
  destruct (Nat.eqb (Voucher.id a) vid) eqn:E.
  - injection Hf as ->. rewrite Hr. simpl.
    apply Nat.eqb_eq in E. subst vid. apply debit_other_rows. exact Hnot.
  - simpl. apply IH; assumption.
Qed.

(** What [endCall] does on a call whose voucher row exists, when neither
    update is refused. *)
Lemma endCall_settles d cid secs now c vid v :
  cid <> "" ->
  call_by_id cid d = Some c ->
  CallLog.voucher_id c = Some vid ->
  voucher_by_id vid d = Some v ->
  int4 secs = true ->
  debit_overflows (minutesUsed secs) (Some vid) (vouchers d) = false ->
  exists d',
    endCall d cid (Some secs) now =
      (d', sendResponse
             (EndData true
                (Z.max 0 (Voucher.remaining_minutes v - minutesUsed secs)))) /\
    voucher_by_id vid d' = Some (debit_row (minutesUsed secs) now v) /\
    call_by_id cid d' = Some (complete_call secs now c).
Proof.
  intros Hcid Hc Hv Hf Hs Hov.
  unfold endCall. rewrite (not_nonempty _ Hcid).
  unfold select_call_voucher.
  destruct (filter_find (fun c0 => String.eqb (CallLog.call_id c0) cid)
              (call_logs d)) as [[_ Hn] | (x & t & Hfl & Hfd)];
    [unfold call_by_id in Hc; congruence|].
  rewrite Hfl. simpl map.
  unfold call_by_id in Hc. rewrite Hfd in Hc. injection Hc as ->. rewrite Hv.
  pose proof (voucher_by_id_eq _ _ _ Hf) as Hid.
  unfold update_call_log. rewrite Hs.
  set (d1 := with_call_logs d _).
  assert (Hov1 : debit_overflows (minutesUsed secs) (Some vid) (vouchers d1)
                 = false) by exact Hov.
  rewrite Hov1.
  assert (Hf1 : voucher_by_id vid d1 = Some v) by exact Hf.
  pose proof (voucher_by_id_debit (minutesUsed secs) (Some vid) now vid d1) as Hd.
  rewrite Hf1 in Hd. simpl in Hd. rewrite Hid in Hd.
  eexists. split; [|split].
  - f_equal. f_equal. f_equal.
    unfold returning_remaining.
    destruct (filter_find (fun v0 => opt_nat_eqb (Some vid) (Voucher.id v0))
                (update_voucher_debit (minutesUsed secs) (Some vid) now
                   (vouchers d1))) as [[_ Hn] | (y & t' & Hfl' & Hfd')].
    + unfold voucher_by_id in Hd. simpl in Hd, Hn. congruence.
    + rewrite Hfl'. cbn [map]. cbv beta iota. rewrite or0_id.
      unfold voucher_by_id in Hd. simpl in Hd, Hfd'.
      rewrite Hd in Hfd'. injection Hfd' as <-. reflexivity.
  - exact Hd.
  - unfold call_by_id. simpl call_logs.
    rewrite find_map_stable.
    + rewrite Hfd. simpl. apply find_some in Hfd. destruct Hfd as [_ E].
      rewrite E. reflexivity.
    + intros a. destruct (String.eqb (CallLog.call_id a) cid) eqn:E;
        simpl; exact E.
Qed.

(** ** The batch transaction *)

Lemma code_fresh (c : string) (vs : list Voucher.row) :
  is_empty (select_id_by_code c vs) = true <-> ~ In c (codes_of vs).
Proof.
  unfold select_id_by_code, codes_of.
  induction vs as [|v vs IH]; simpl.
  - split; [intros _; unfold not; trivial | reflexivity].
  - destruct (String.eqb (Voucher.code v) c) eqn:E; simpl.
    + apply String.eqb_eq in E. split; [discriminate | intros H; elim H; now left].
    + apply String.eqb_neq in E. rewrite IH. tauto.
Qed.

Lemma taken_In (c : string) (l : list string) :
  existsb (String.eqb c) l = false <-> ~ In c l.
Proof.
  induction l as [|x l IH]; simpl; [tauto|].
  destruct (String.eqb c x) eqn:E; simpl.
  - apply String.eqb_eq in E. split; [discriminate | intros H; elim H; auto].
  - apply String.eqb_neq in E. rewrite IH. split; intros H; [|tauto].
    intros [Hx|Hx]; [congruence | tauto].
Qed.

Lemma taken_spec (c : string) (vs : list Voucher.row) :
  is_empty (select_id_by_code c vs) =
  negb (existsb (String.eqb c) (codes_of vs)).
Proof.
  destruct (existsb (String.eqb c) (codes_of vs)) eqn:E; simpl.
  - destruct (is_empty _) eqn:F; [|reflexivity].
    apply code_fresh in F. apply taken_In in F. congruence.
  - apply code_fresh. apply taken_In. exact E.
Qed.

Lemma supply_ext (cs : list string) : forall t1 t2,
  (forall x, In x t1 <-> In x t2) -> supply t1 cs = supply t2 cs.
Proof.
  induction cs as [|c cs IH]; intros t1 t2 H; simpl; [reflexivity|].
  assert (E : existsb (String.eqb c) t1 = existsb (String.eqb c) t2).
  { destruct (existsb (String.eqb c) t2) eqn:E2.
    - destruct (existsb (String.eqb c) t1) eqn:E1; [reflexivity|].
      apply taken_In in E1. exfalso. apply E1. apply H.
      destruct (in_dec string_dec c t2) as [Hin|Hin]; [exact Hin|].
      apply taken_In in Hin. congruence.
    - apply taken_In. apply taken_In in E2. rewrite H. exact E2. }
  rewrite E. destruct (existsb (String.eqb c) t2).
  - apply IH. exact H.
  - f_equal. apply IH. intros x. simpl. rewrite H. tauto.
Qed.

Section TransactionFacts.

Variable faults : nat -> bool.

Lemma query_returned {A : Type} (stmt : db -> option (A * db)) s a s' :
  query faults stmt s = returned a s' ->
  faults (issued s) = false /\ stmt (work s) = Some (a, work s') /\
  issued s' = S (issued s) /\ rand s' = rand s.
Proof.
  unfold query. destruct (faults (issued s)); [discriminate|].
  destruct (stmt (work s)) as [[a0 w]|]; [|discriminate].
  intros H. injection H as <- <-. repeat split.
Qed.

Lemma unique_loop_returned rs s code s' :
  unique_loop faults rs s = returned code s' ->
  work s' = work s /\ ~ In code (codes_of (vouchers (work s))) /\
  (issued s < issued s')%nat /\ clean faults s s'.
Proof.
  revert s. induction rs as [|rnd rest IH]; intros s; simpl; [discriminate|].
  destruct (query faults (select_code (generateVoucherCode rnd))
              (mkTx (work s) (issued s) rest)) as [existing s1| |] eqn:Q;
    try discriminate.
  apply query_returned in Q. simpl in Q. destruct Q as (F & St & Is & _).
  unfold select_code in St. injection St as <- Hw.
  destruct (is_empty _) eqn:E.
  - intros H. injection H as <- <-. rewrite <- Hw. repeat split; auto.
    + apply code_fresh. exact E.
    + lia.
    + intros k Hk. assert (k = issued s) by lia. subst k. exact F.
  - intros H. apply IH in H. destruct H as (W & Fr & Lt & Cl).
    rewrite <- Hw in *. repeat split; auto.
    + lia.
    + intros k Hk. destruct (Nat.eq_dec k (issued s)) as [->|Hne]; [exact F|].
      apply Cl. lia.
Qed.

Lemma voucher_loop_returned m admin b n : forall codes s codes' s',
  voucher_loop faults n m admin b codes s = returned codes' s' ->
  exists news,
    vouchers (work s') = vouchers (work s) ++ news /\
    List.length news = n /\
    codes' = codes ++ codes_of news /\
    Forall (minted m admin (Some b)) news /\
    NoDup (codes_of news) /\
    (forall c, In c (codes_of news) ->
               ~ In c (codes_of (vouchers (work s)))) /\
    call_logs (work s') = call_logs (work s) /\
    voucher_batches (work s') = voucher_batches (work s) /\
    system_logs (work s') = system_logs (work s) /\
    (issued s + 2 * n <= issued s')%nat /\ clean faults s s'.
Proof.
  induction n as [|n IH]; intros codes s codes' s'; simpl.
  - unfold ret. intros H. injection H as <- <-. exists [].
    rewrite !app_nil_r.
    split; [reflexivity|]. split; [reflexivity|]. split; [reflexivity|].
    split; [constructor|]. split; [constructor|].
    split; [intros c Hc; destruct Hc|].
    repeat split; try reflexivity; try lia. intros k Hk; lia.
  - unfold bind at 1. unfold allocate.
    destruct (unique_loop faults (rand s) s) as [code s1| |] eqn:U;
      try discriminate.
    apply unique_loop_returned in U. destruct U as (W1 & Fr & Lt & Cl1).
    unfold bind at 1.
    destruct (query faults (insert_voucher code m admin (Some b)) s1)
      as [vid s2| |] eqn:Q; try discriminate.
    apply query_returned in Q. destruct Q as (F & St & Is & _).
    unfold insert_voucher in St. rewrite W1 in St.
    destruct (is_empty _); [|discriminate].
    injection St as _ Hw2.
    intros H. apply IH in H.
    destruct H as (news & Hv & Hlen & Hc & Hm & Hnd & Hfr & Hcl & Hvb & Hsl
                   & Hi & Cl2).
    rewrite <- Hw2 in Hv, Hfr, Hcl, Hvb, Hsl. simpl in Hv, Hfr, Hcl, Hvb, Hsl.
    set (v := Voucher.mk (next_id (work s)) code m m false true None None
                admin (Some b)) in *.
    exists (v :: news). repeat split; auto.
    + rewrite Hv, <- app_assoc. reflexivity.
    + simpl. now rewrite Hlen.
    + rewrite Hc, <- app_assoc. reflexivity.
    + constructor; [repeat split | exact Hm].
    + simpl. constructor; [|exact Hnd].
      intros Hin. apply (Hfr _ Hin). unfold codes_of. rewrite map_app.
      apply in_or_app. right. simpl. now left.
    + intros c [<-|Hin]; [exact Fr|].
      intros Hold. apply (Hfr _ Hin). unfold codes_of. rewrite map_app.
      apply in_or_app. now left.
    + lia.
    + intros k Hk.
      destruct (Nat.lt_ge_cases k (issued s1)) as [Hlt|Hge];
        [apply Cl1; lia|].
      destruct (Nat.eq_dec k (issued s1)) as [->|Hne]; [exact F|].
      apply Cl2. lia.
Qed.

Lemma batch_tx_returned q m admin s b codes s' :
  batch_tx faults q m admin s = returned (b, codes) s' ->
  exists news,
    vouchers (work s') = vouchers (work s) ++ news /\
    List.length news = Z.to_nat q /\
    codes = codes_of news /\
    Forall (minted m admin (Some b)) news /\
    NoDup (codes_of news) /\
    (forall c, In c (codes_of news) ->
               ~ In c (codes_of (vouchers (work s)))) /\
    call_logs (work s') = call_logs (work s) /\
    voucher_batches (work s') =
      voucher_batches (work s) ++ [VoucherBatch.mk b q m admin] /\
    system_logs (work s') = system_logs (work s) /\
    (issued s + 2 * Z.to_nat q + 3 <= issued s')%nat /\ clean faults s s'.
Proof.
  unfold batch_tx. unfold bind at 1.
  destruct (query faults control s) as [u s1| |] eqn:Q1; try discriminate.
  apply query_returned in Q1. destruct Q1 as (F1 & St1 & Is1 & _).
  injection St1 as _ W1.
  unfold bind at 1.
  destruct (query faults (insert_voucher_batch q m admin) s1)
    as [b0 s2| |] eqn:Q2; try discriminate.
  apply query_returned in Q2. destruct Q2 as (F2 & St2 & Is2 & _).
  unfold insert_voucher_batch in St2. injection St2 as Hb W2.
  unfold bind at 1.
  destruct (voucher_loop faults (Z.to_nat q) m admin b0 [] s2)
    as [codes0 s3| |] eqn:L; try discriminate.
  apply voucher_loop_returned in L.
  destruct L as (news & Hv & Hlen & Hc & Hm & Hnd & Hfr & Hcl & Hvb & Hsl
                 & Hi & Cl).
  unfold bind at 1.
  destruct (query faults control s3) as [u' s4| |] eqn:Q4; try discriminate.
  apply query_returned in Q4. destruct Q4 as (F4 & St4 & Is4 & _).
  injection St4 as _ W4.
  unfold ret. intros H. injection H as <- <- <-.
  rewrite <- W4 in *. rewrite <- W2 in Hv, Hfr, Hcl, Hvb, Hsl.
  simpl in Hv, Hfr, Hcl, Hvb, Hsl. rewrite <- W1 in *.
  exists news. simpl in Hc. subst b0.
  split; [exact Hv|]. split; [exact Hlen|]. split; [exact Hc|].
  split; [exact Hm|]. split; [exact Hnd|]. split; [exact Hfr|].
  split; [exact Hcl|]. split; [exact Hvb|]. split; [exact Hsl|].
  split; [lia|].
  intros k Hk.
  destruct (Nat.eq_dec k (issued s)) as [->|N1]; [exact F1|].
  destruct (Nat.eq_dec k (issued s1)) as [->|N2]; [exact F2|].
  destruct (Nat.eq_dec k (issued s3)) as [->|N3]; [exact F4|].
  apply Cl. lia.
Qed.

Lemma unique_loop_progress rs : forall s,
  (0 < supply (codes_of (vouchers (work s))) (map generateVoucherCode rs))%nat ->
  match unique_loop faults rs s with
  | returned code s' =>
      S (supply (code :: codes_of (vouchers (work s)))
           (map generateVoucherCode (rand s'))) =
      supply (codes_of (vouchers (work s))) (map generateVoucherCode rs)
  | thrown => exists k, faults k = true
  | looping => False
  end.
Proof.
  induction rs as [|rnd rest IH]; intros s; simpl; [lia|].
  unfold query. simpl issued. simpl work.
  destruct (faults (issued s)) eqn:F; [intros _; eauto|].
  unfold select_code. rewrite taken_spec.
  destruct (existsb (String.eqb (generateVoucherCode rnd))
              (codes_of (vouchers (work s)))); simpl.
  - intros H. exact (IH (mkTx (work s) (S (issued s)) rest) H).
  - intros _. reflexivity.
Qed.

(** The loop does not run for ever when the draws supply a fresh code for
    each voucher, and it throws only on a fault. *)
Lemma voucher_loop_progress m admin b : forall n codes s,
  (n <= supply (codes_of (vouchers (work s)))
          (map generateVoucherCode (rand s)))%nat ->
  match voucher_loop faults n m admin b codes s with
  | returned _ _ => True
  | thrown => exists k, faults k = true
  | looping => False
  end.
Proof.
  induction n as [|n IH]; intros codes s Hn; simpl; [exact I|].
  unfold bind at 1. unfold allocate.
  pose proof (unique_loop_progress (rand s) s ltac:(lia)) as P.
  destruct (unique_loop faults (rand s) s) as [code s1| |] eqn:U;
    [|exact P|exact P].
  apply unique_loop_returned in U. destruct U as (W1 & Fr & _).
  unfold bind at 1. unfold query at 1.
  destruct (faults (issued s1)) eqn:F; [eauto|].
  unfold insert_voucher. rewrite W1, taken_spec.
  apply (proj2 (taken_In _ _)) in Fr. rewrite Fr. simpl negb. cbv iota.
  apply IH. simpl. unfold codes_of in *. rewrite map_app. simpl.
  rewrite (supply_ext _ (map Voucher.code (vouchers (work s)) ++ [code])
             (code :: map Voucher.code (vouchers (work s)))).
  - lia.
  - intros x. rewrite in_app_iff. simpl. tauto.
Qed.

Lemma batch_tx_progress q m admin s :
  (Z.to_nat q <= supply (codes_of (vouchers (work s)))
                   (map generateVoucherCode (rand s)))%nat ->
  match batch_tx faults q m admin s with
  | returned _ _ => True
  | thrown => exists k, faults k = true
  | looping => False
  end.
Proof.
  intros Hq. unfold batch_tx.
  unfold bind at 1. unfold query at 1.
  destruct (faults (issued s)) eqn:F1; [eauto|]. simpl.
  unfold bind at 1. unfold query at 1. simpl.
  destruct (faults (S (issued s))) eqn:F2; [eauto|].
  unfold bind at 1.
  match goal with
  | |- context [voucher_loop faults ?n m admin ?b ?cs ?st] =>
      pose proof (voucher_loop_progress m admin b n cs st Hq) as P;
      destruct (voucher_loop faults n m admin b cs st) as [codes' s3| |];
      [|exact P|exact P]
  end.
  unfold bind at 1. unfold query at 1.
  destruct (faults (issued s3)) eqn:F3; [eauto|]. simpl. exact I.
Qed.

(*MORE_TX*)
End TransactionFacts.

(** ** How a request changes the tables *)

Lemma validate_shape d code dev :
  exists f,
    vouchers (fst (validate d code dev)) = map f (vouchers d) /\
    (forall v, f v = v \/ exists stored, f v = set_device_id stored v) /\
    call_logs (fst (validate d code dev)) = call_logs d.
Proof.
  unfold validate.
  destruct (JS.not code || JS.not dev);
    [exists (fun v => v); simpl; rewrite map_id; auto|].
  destruct (select_voucher_by_code _ _) as [|voucher rows];
    [exists (fun v => v); simpl; rewrite map_id; auto|].
  destruct (negb (vr_is_active voucher) || vr_is_used voucher
            || (vr_remaining_minutes voucher <=? 0));
    [exists (fun v => v); simpl; rewrite map_id; auto|].
  simpl. unfold update_voucher_device.
  destruct (varchar 100 dev) as [stored|];
    [|exists (fun v => v); simpl; rewrite map_id; auto].
  simpl. eexists. split; [reflexivity|]. split; [|reflexivity].
  intros v. destruct (Nat.eqb (Voucher.id v) (vr_id voucher)); eauto.
Qed.

Lemma select_voucher_for_call_found vid vs rem dev rows :
  select_voucher_for_call vid vs = (rem, dev) :: rows ->
  exists v, In v vs /\ Voucher.id v = vid /\
            Voucher.remaining_minutes v = rem /\ Voucher.device_id v = dev /\
            Voucher.is_active v = true /\ Voucher.is_used v = false.
Proof.
  unfold select_voucher_for_call.
  destruct (filter _ vs) as [|v t] eqn:F; simpl; [discriminate|].
  intros H. injection H as <- <- _.
  assert (Hin : In v (filter (fun v0 => Nat.eqb (Voucher.id v0) vid
                                && Voucher.is_active v0
                                && negb (Voucher.is_used v0)) vs))
    by (rewrite F; now left).
  apply filter_In in Hin. destruct Hin as [Hin Hp].
  apply andb_prop in Hp. destruct Hp as [Hp Hu].
  apply andb_prop in Hp. destruct Hp as [Hi Ha].
  apply Nat.eqb_eq in Hi. apply negb_true_iff in Hu.
  exists v. repeat split; assumption || reflexivity.
Qed.

Lemma voucher_by_id_of_In vid d v :
  In v (vouchers d) -> Voucher.id v = vid ->
  exists v', voucher_by_id vid d = Some v'.
Proof.
  intros Hin Hid. unfold voucher_by_id.
  destruct (find _ (vouchers d)) as [v'|] eqn:F; [eauto|].
  exfalso. apply (find_none _ _ F) in Hin. simpl in Hin.
  apply Nat.eqb_neq in Hin. congruence.
Qed.

Lemma startCall_shape d vo p c t cid now :
  vouchers (fst (startCall d vo p c t cid now)) = vouchers d /\
  (call_logs (fst (startCall d vo p c t cid now)) = call_logs d \/
   exists vid v dev p' c' t',
     vo = Some vid /\ voucher_by_id vid d = Some v /\
     call_logs (fst (startCall d vo p c t cid now)) =
       call_logs d ++
       [CallLog.mk cid (Some vid) p' c' t' 0 active now None dev]).
Proof.
  unfold startCall. destruct vo as [vid|]; [|auto].
  destruct (JS.not p || JS.not c || JS.not t); [auto|].
  destruct (select_voucher_for_call vid (vouchers d)) as [|[rem dev] rows] eqn:S;
    [auto|].
  destruct (rem <=? 0); [auto|].
  unfold insert_call_log.
  destruct (varchar 20 p) as [p'|]; [|auto].
  destruct (varchar 5 c) as [c'|]; [|auto].
  destruct (varchar 20 t) as [t'|]; [|auto].
  destruct (call_id_exists cid (call_logs d)); [auto|].
  simpl. split; [reflexivity|]. right.
  apply select_voucher_for_call_found in S.
  destruct S as (v & Hin & Hid & _).
  destruct (voucher_by_id_of_In vid d v Hin Hid) as (v' & Hv').
  exists vid, v', dev, p', c', t'. auto.
Qed.

Lemma endCall_shape d cid so now :
  (fst (endCall d cid so now) = d) \/
  (exists secs vo,
     so = Some secs /\
     (vouchers (fst (endCall d cid so now)) = vouchers d \/
      vouchers (fst (endCall d cid so now)) =
        update_voucher_debit (minutesUsed secs) vo now (vouchers d)) /\
     update_call_log secs cid now (call_logs d) =
       Some (call_logs (fst (endCall d cid so now)))).
Proof.
  unfold endCall. destruct so as [secs|]; [|auto].
  destruct (JS.not cid); [auto|].
  destruct (select_call_voucher cid (call_logs d)) as [|vo rows]; [auto|].
  destruct (update_call_log secs cid now (call_logs d)) as [cs'|] eqn:U;
    [|auto].
  right. exists secs, vo. split; [reflexivity|].
  destruct (debit_overflows _ _ _); simpl; split; auto.
Qed.

Lemma generate_shape d mo admin draws d' resp :
  generate d mo admin draws = Some (d', resp) ->
  call_logs d' = call_logs d /\
  (vouchers d' = vouchers d \/
   exists m v, 0 < m /\ minted m admin None v /\
               vouchers d' = vouchers d ++ [v]).
Proof.
  unfold generate. destruct mo as [m|];
    [|intros H; injection H as <- _; auto].
  destruct (m <=? 0) eqn:Em; [intros H; injection H as <- _; auto|].
  apply Z.leb_gt in Em.
  destruct (uniqueCode (vouchers d) draws) as [code|]; [|discriminate].
  destruct (int4 m); [|intros H; injection H as <- _; auto].
  unfold insert_voucher. destruct (is_empty _);
    [|intros H; injection H as <- _; auto].
  intros H. injection H as <- _. simpl. split; [reflexivity|]. right.
  eexists m, _. split; [exact Em|]. split; [|reflexivity].
  repeat split.
Qed.

Lemma batch_shape faults d qo mo admin draws d' resp :
  batch faults d qo mo admin draws = Some (d', resp) ->
  call_logs d' = call_logs d /\
  exists news m b,
    0 < m /\ Forall (minted m admin b) news /\
    vouchers d' = vouchers d ++ news.
Proof.
  assert (Same : call_logs d = call_logs d /\
                 exists news m b,
                   0 < m /\ Forall (minted m admin b) news /\
                   vouchers d = vouchers d ++ news).
  { split; [reflexivity|]. exists [], 1, None. rewrite app_nil_r.
    split; [lia|]. split; [constructor | reflexivity]. }
  unfold batch. destruct qo as [q|];
    [|intros H; injection H as <- _; exact Same].
  destruct mo as [m|]; [|intros H; injection H as <- _; exact Same].
  destruct (q <=? 0); [intros H; injection H as <- _; exact Same|].
  destruct (m <=? 0) eqn:Em; [intros H; injection H as <- _; exact Same|].
  apply Z.leb_gt in Em. simpl orb. cbv iota.
  destruct (q >? 1000); [intros H; injection H as <- _; exact Same|].
  destruct (batch_tx faults q m admin (mkTx d 0 draws)) as [[b codes] s| |] eqn:E;
    [| intros H; injection H as <- _; exact Same | discriminate].
  apply batch_tx_returned in E. simpl in E.
  destruct E as (news & Hv & _ & _ & Hmi & _ & _ & Hcl & _).
  intros H. injection H as <- _. simpl. split; [exact Hcl|].
  exists news, m, (Some b). auto.
Qed.

Lemma row_step_id r v v' :
  row_step r v v' ->
  Voucher.id v' = Voucher.id v /\
  Voucher.duration_minutes v' = Voucher.duration_minutes v /\
  Voucher.code v' = Voucher.code v.
Proof. intros H. destruct H; simpl; auto. Qed.

Lemma step_vouchers d r :
  exists f news,
    vouchers (step d r) = map f (vouchers d) ++ news /\
    (forall v, row_step r v (f v)) /\
    Forall (fun v => exists m admin b, 0 < m /\ minted m admin b v) news.
Proof.
  assert (Same : forall d', vouchers d' = vouchers d ->
            exists f news,
              vouchers d' = map f (vouchers d) ++ news /\
              (forall v, row_step r v (f v)) /\
              Forall (fun v => exists m admin b, 0 < m /\ minted m admin b v)
                     news).
  { intros d' E. exists (fun v => v), []. rewrite app_nil_r, map_id.
    split; [exact E|]. split; [intros v; constructor | constructor]. }
  unfold step, handle. destruct r as [code dev|vo p c t cid now|cid so now
                                      |mo admin draws|qo mo admin draws faults].
  - destruct (validate_shape d code dev) as (f & Hv & Hf & _).
    destruct (validate d code dev) as [d' resp]. simpl in *.
    exists f, []. rewrite app_nil_r. split; [exact Hv|]. split; [|constructor].
    intros v. destruct (Hf v) as [-> | (stored & ->)]; constructor.
  - destruct (startCall_shape d vo p c t cid now) as (Hv & _).
    destruct (startCall d vo p c t cid now) as [d' resp]. simpl in *. auto.
  - destruct (endCall_shape d cid so now)
      as [E | (secs & vo & -> & [Hv|Hv] & _)].
    + destruct (endCall d cid so now) as [d' resp]. simpl in *. subst d'. auto.
    + destruct (endCall d cid (Some secs) now) as [d' resp]. simpl in *. auto.
    + destruct (endCall d cid (Some secs) now) as [d' resp]. simpl in *.
      eexists _, []. rewrite app_nil_r. split; [exact Hv|].
      split; [|constructor]. intros v. simpl.
      destruct (opt_nat_eqb vo (Voucher.id v)); econstructor; reflexivity.
  - destruct (generate d mo admin draws) as [[d' resp]|] eqn:G; [|auto].
    apply generate_shape in G. destruct G as (_ & [E | (m & v & Hm & Hmi & E)]);
      [auto|].
    exists (fun v => v), [v]. rewrite map_id. split; [exact E|].
    split; [intros x; constructor|]. constructor; [|constructor]. eauto.
  - destruct (batch faults d qo mo admin draws) as [[d' resp]|] eqn:B; [|auto].
    apply batch_shape in B. destruct B as (_ & news & m & b & Hm & Hmi & E).
    exists (fun v => v), news. rewrite map_id. split; [exact E|].
    split; [intros x; constructor|].
    apply Forall_impl with (2 := Hmi). eauto.
Qed.

Lemma step_calls d r :
  exists g news,
    call_logs (step d r) = map g (call_logs d) ++ news /\
    (forall c, call_step c (g c)) /\
    Forall (fun c => CallLog.status c = active /\
                     exists vid v, CallLog.voucher_id c = Some vid /\
                                   voucher_by_id vid d = Some v) news.
Proof.
  assert (Same : forall d', call_logs d' = call_logs d ->
            exists g news,
              call_logs d' = map g (call_logs d) ++ news /\
              (forall c, call_step c (g c)) /\
              Forall (fun c => CallLog.status c = active /\
                        exists vid v, CallLog.voucher_id c = Some vid /\
                                      voucher_by_id vid d = Some v) news).
  { intros d' E. exists (fun c => c), []. rewrite app_nil_r, map_id.
    split; [exact E|]. split; [intros c; constructor | constructor]. }
  unfold step, handle. destruct r as [code dev|vo p c t cid now|cid so now
                                      |mo admin draws|qo mo admin draws faults].
  - destruct (validate_shape d code dev) as (f & _ & _ & Hc).
    destruct (validate d code dev) as [d' resp]. simpl in *. auto.
  - destruct (startCall_shape d vo p c t cid now)
      as (_ & [E | (vid & v & dev & p' & c' & t' & -> & Hv & E)]);
      destruct (startCall d _ p c t cid now) as [d' resp]; simpl in *; [auto|].
    exists (fun c => c),
      [CallLog.mk cid (Some vid) p' c' t' 0 active now None dev].
    rewrite map_id. split; [exact E|]. split; [intros x; constructor|].
    constructor; [|constructor]. simpl. eauto.
  - destruct (endCall_shape d cid so now) as [E | (secs & vo & -> & _ & Hc)].
    + destruct (endCall d cid so now) as [d' resp]. simpl in *. subst d'. auto.
    + destruct (endCall d cid (Some secs) now) as [d' resp]. simpl in *.
      unfold update_call_log in Hc. destruct (int4 secs); [|discriminate].
      injection Hc as Hc.
      eexists _, []. rewrite app_nil_r. split; [symmetry; exact Hc|].
      split; [|constructor]. intros c. simpl.
      destruct (String.eqb (CallLog.call_id c) cid); constructor.
  - destruct (generate d mo admin draws) as [[d' resp]|] eqn:G; [|auto].
    apply generate_shape in G. destruct G as (E & _). auto.
  - destruct (batch faults d qo mo admin draws) as [[d' resp]|] eqn:B; [|auto].
    apply batch_shape in B. destruct B as (E & _). auto.
Qed.

(** A voucher row, once present, stays addressable by its id. *)
Lemma voucher_by_id_step d r vid v :
  voucher_by_id vid d = Some v ->
  exists v', voucher_by_id vid (step d r) = Some v' /\ row_step r v v'.
Proof.
  intros Hv. destruct (step_vouchers d r) as (f & news & E & Hf & _).
  exists (f v). split; [|apply Hf].
  unfold voucher_by_id in *. rewrite E. apply find_app_some.
  rewrite find_map_stable; [rewrite Hv; reflexivity|].
  intros x. simpl. destruct (row_step_id _ _ _ (Hf x)) as (-> & _). reflexivity.
Qed.

Lemma run_snoc d rs r : run d (rs ++ [r]) = step (run d rs) r.
Proof. unfold run. rewrite fold_left_app. reflexivity. Qed.

Lemma step_calls_settled d r : calls_settled d -> calls_settled (step d r).
Proof.
  intros Inv c Hin. destruct (step_calls d r) as (g & news & E & Hg & Hn).
  rewrite E in Hin. apply in_app_or in Hin. destruct Hin as [Hin|Hin].
  - apply in_map_iff in Hin. destruct Hin as (c0 & <- & Hin0).
    destruct (Hg c0); [apply Inv; exact Hin0 | right; reflexivity].
  - rewrite Forall_forall in Hn. left. apply Hn. exact Hin.
Qed.

Lemma step_calls_linked d r : calls_linked d -> calls_linked (step d r).
Proof.
  intros Inv c Hin. destruct (step_calls d r) as (g & news & E & Hg & Hn).
  rewrite E in Hin. apply in_app_or in Hin.
  assert (Old : forall c0, (exists vid v, CallLog.voucher_id c0 = Some vid /\
                                          voucher_by_id vid d = Some v) ->
                forall c1, call_step c0 c1 ->
                exists vid v, CallLog.voucher_id c1 = Some vid /\
                              voucher_by_id vid (step d r) = Some v).
  { intros c0 (vid & v & Hc & Hv) c1 Hs.
    destruct (voucher_by_id_step d r vid v Hv) as (v' & Hv' & _).
    exists vid, v'. split; [|exact Hv']. destruct Hs; exact Hc. }
  destruct Hin as [Hin|Hin].
  - apply in_map_iff in Hin. destruct Hin as (c0 & <- & Hin0).
    apply (Old c0); [apply Inv; exact Hin0 | apply Hg].
  - rewrite Forall_forall in Hn. destruct (Hn c Hin) as (_ & H).
    apply (Old c H). constructor.
Qed.

Lemma step_balances_nonneg d r : balances_nonneg d -> balances_nonneg (step d r).
Proof.
  intros Inv v Hin. destruct (step_vouchers d r) as (f & news & E & Hf & Hn).
  rewrite E in Hin. apply in_app_or in Hin. destruct Hin as [Hin|Hin].
  - apply in_map_iff in Hin. destruct Hin as (v0 & <- & Hin0).
    destruct (Hf v0); simpl; try (apply Inv; exact Hin0). lia.
  - rewrite Forall_forall in Hn.
    destruct (Hn v Hin) as (m & admin & b & Hm & _ & -> & _). lia.
Qed.

Lemma step_balances_bounded d r :
  billable r -> balances_nonneg d -> balances_bounded d ->
  balances_bounded (step d r).
Proof.
  intros Hb Nn Inv v Hin.
  destruct (step_vouchers d r) as (f & news & E & Hf & Hn).
  rewrite E in Hin. apply in_app_or in Hin. destruct Hin as [Hin|Hin].
  - apply in_map_iff in Hin. destruct Hin as (v0 & <- & Hin0).
    pose proof (Inv v0 Hin0) as Hle. pose proof (Nn v0 Hin0) as H0.
    destruct (Hf v0) as [ | |v0 cid secs now ->]; simpl; try exact Hle.
    simpl in Hb. pose proof (minutesUsed_nonneg secs Hb). lia.
  - rewrite Forall_forall in Hn.
    destruct (Hn v Hin) as (m & admin & b & Hm & -> & -> & _). lia.
Qed.

Lemma reachable_calls_settled d : reachable d -> calls_settled d.
Proof.
  intros (rs & ->). induction rs as [|r rs IH] using rev_ind.
  - intros c [].
  - rewrite run_snoc. apply step_calls_settled. exact IH.
Qed.

Lemma reachable_calls_linked d : reachable d -> calls_linked d.
Proof.
  intros (rs & ->). induction rs as [|r rs IH] using rev_ind.
  - intros c [].
  - rewrite run_snoc. apply step_calls_linked. exact IH.
Qed.

Lemma reachable_balances_nonneg d : reachable d -> balances_nonneg d.
Proof.
  intros (rs & ->). induction rs as [|r rs IH] using rev_ind.
  - intros c [].
  - rewrite run_snoc. apply step_balances_nonneg. exact IH.
Qed.

Lemma billable_run_bounded rs :
  Forall billable rs -> balances_bounded (run empty_db rs).
Proof.
  induction rs as [|r rs IH] using rev_ind; intros Hb.
  - intros c [].
  - rewrite run_snoc. apply Forall_app in Hb. destruct Hb as [Hrs Hr].
    inversion Hr; subst. apply step_balances_bounded; auto.
    apply reachable_balances_nonneg. exists rs. reflexivity.
Qed.

(** ** Identifiers and codes drawn by the batch transaction *)

Lemma unique_loop_drawn faults rs : forall s code s',
  unique_loop faults rs s = returned code s' ->
  exists rnd, In rnd rs /\ code = generateVoucherCode rnd.
Proof.
  induction rs as [|rnd rest IH]; intros s code s'; simpl; [discriminate|].
  destruct (query faults (select_code (generateVoucherCode rnd))
              (mkTx (work s) (issued s) rest)) as [existing s1| |];
    try discriminate.
  destruct (is_empty existing).
  - intros H. injection H as <- _. exists rnd. auto.
  - intros H. apply IH in H. destruct H as (r & Hin & ->). exists r. auto.
Qed.

Lemma voucher_loop_ids faults m admin b n : forall codes s codes' s',
  voucher_loop faults n m admin b codes s = returned codes' s' ->
  exists news,
    vouchers (work s') = vouchers (work s) ++ news /\
    map Voucher.id news = seq (next_id (work s)) n /\
    next_id (work s') = (next_id (work s) + n)%nat /\
    Forall (fun c => exists rnd, c = generateVoucherCode rnd) (codes_of news).
Proof.
  induction n as [|n IH]; intros codes s codes' s'; simpl.
  - unfold ret. intros H. injection H as _ <-. exists [].
    rewrite app_nil_r, Nat.add_0_r. repeat split. constructor.
  - unfold bind at 1. unfold allocate.
    destruct (unique_loop faults (rand s) s) as [code s1| |] eqn:U;
      try discriminate.
    pose proof (unique_loop_drawn _ _ _ _ _ U) as (rnd & _ & Hcode).
    apply unique_loop_returned in U. destruct U as (W1 & _).
    unfold bind at 1.
    destruct (query faults (insert_voucher code m admin (Some b)) s1)
      as [vid s2| |] eqn:Q; try discriminate.
    apply query_returned in Q. destruct Q as (_ & St & _).
    unfold insert_voucher in St. rewrite W1 in St.
    destruct (is_empty _); [|discriminate].
    injection St as _ Hw2.
    intros H. apply IH in H. destruct H as (news & Hv & Hid & Hn & Hc).
    rewrite <- Hw2 in Hv, Hid, Hn. simpl in Hv, Hid, Hn.
    eexists (_ :: news). split; [rewrite Hv, <- app_assoc; reflexivity|].
    split; [simpl; rewrite Hid; reflexivity|].
    split; [lia|].
    constructor; [exists rnd; exact Hcode | exact Hc].
Qed.

Lemma batch_tx_ids faults q m admin s b codes s' :
  batch_tx faults q m admin s = returned (b, codes) s' ->
  exists news,
    vouchers (work s') = vouchers (work s) ++ news /\
    map Voucher.id news = seq (S (next_id (work s))) (Z.to_nat q) /\
    next_id (work s') = (S (next_id (work s)) + Z.to_nat q)%nat /\
    Forall (fun c => exists rnd, c = generateVoucherCode rnd) (codes_of news).
Proof.
  unfold batch_tx. unfold bind at 1.
  destruct (query faults control s) as [u s1| |] eqn:Q1; try discriminate.
  apply query_returned in Q1. destruct Q1 as (_ & St1 & _).
  injection St1 as _ W1.
  unfold bind at 1.
  destruct (query faults (insert_voucher_batch q m admin) s1)
    as [b0 s2| |] eqn:Q2; try discriminate.
  apply query_returned in Q2. destruct Q2 as (_ & St2 & _).
  unfold insert_voucher_batch in St2. injection St2 as _ W2.
  unfold bind at 1.
  destruct (voucher_loop faults (Z.to_nat q) m admin b0 [] s2)
    as [codes0 s3| |] eqn:L; try discriminate.
  apply voucher_loop_ids in L. destruct L as (news & Hv & Hid & Hn & Hc).
  unfold bind at 1.
  destruct (query faults control s3) as [u' s4| |] eqn:Q4; try discriminate.
  apply query_returned in Q4. destruct Q4 as (_ & St4 & _).
  injection St4 as _ W4. unfold ret. intros H. injection H as _ _ <-.
  rewrite <- W4. rewrite <- W2 in Hv, Hid, Hn. simpl in Hv, Hid, Hn.
  rewrite <- W1 in *. exists news. auto.
Qed.

(** ** Rows added and rows kept by a request *)

Lemma uniqueCode_drawn vs draws code :
  uniqueCode vs draws = Some code ->
  ~ In code (codes_of vs) /\ exists rnd, In rnd draws /\ code = generateVoucherCode rnd.
Proof.
  induction draws as [|rnd rest IH]; simpl; [discriminate|].
  destruct (is_empty (select_id_by_code (generateVoucherCode rnd) vs)) eqn:E.
  - intros H. injection H as <-. split; [apply code_fresh; exact E|].
    exists rnd. auto.
  - intros H. apply IH in H. destruct H as (Hf & r & Hin & ->).
    split; [exact Hf|]. exists r. auto.
Qed.

Lemma seq_bounds a n x : In x (seq a n) -> (a <= x < a + n)%nat.
Proof. intros H. apply in_seq in H. exact H. Qed.

Lemma step_rows d r :
  exists f news,
    vouchers (step d r) = map f (vouchers d) ++ news /\
    (forall v, row_step r v (f v)) /\
    Forall (fun v => exists m admin b, 0 < m /\ minted m admin b v) news /\
    NoDup (codes_of news) /\
    (forall c, In c (codes_of news) -> ~ In c (codes_of (vouchers d))) /\
    Forall (fun v => (next_id d <= Voucher.id v < next_id (step d r))%nat) news /\
    NoDup (map Voucher.id news) /\
    (next_id d <= next_id (step d r))%nat.
Proof.
  assert (Kept : forall f,
            vouchers (step d r) = map f (vouchers d) ->
            (forall v, row_step r v (f v)) ->
            next_id (step d r) = next_id d ->
            exists f news,
              vouchers (step d r) = map f (vouchers d) ++ news /\
              (forall v, row_step r v (f v)) /\
              Forall (fun v => exists m admin b, 0 < m /\ minted m admin b v)
                     news /\
              NoDup (codes_of news) /\
              (forall c, In c (codes_of news) ->
                         ~ In c (codes_of (vouchers d))) /\
              Forall (fun v => (next_id d <= Voucher.id v
                                < next_id (step d r))%nat) news /\
              NoDup (map Voucher.id news) /\
              (next_id d <= next_id (step d r))%nat).
  { intros f Hv Hf Hn. exists f, []. rewrite app_nil_r.
    split; [exact Hv|]. split; [exact Hf|]. split; [constructor|].
    split; [constructor|]. split; [intros c Hc; destruct Hc|].
    split; [constructor|]. split; [constructor|]. lia. }
  assert (Id : vouchers (step d r) = vouchers d ->
               next_id (step d r) = next_id d ->
               vouchers (step d r) = map (fun v => v) (vouchers d) /\
               (forall v, row_step r v v) /\
               next_id (step d r) = next_id d).
  { intros Hv Hn. rewrite map_id. split; [exact Hv|].
    split; [intros v; constructor | exact Hn]. }
  assert (Same : forall x y : db, x = d -> y = d ->
            exists f news,
              vouchers x = map f (vouchers d) ++ news /\
              (forall v, row_step r v (f v)) /\
              Forall (fun v => exists m admin b, 0 < m /\ minted m admin b v)
                     news /\
              NoDup (codes_of news) /\
              (forall c, In c (codes_of news) ->
                         ~ In c (codes_of (vouchers d))) /\
              Forall (fun v => (next_id d <= Voucher.id v < next_id y)%nat)
                     news /\
              NoDup (map Voucher.id news) /\
              (next_id d <= next_id y)%nat).
  { intros x y -> ->. exists (fun v => v), []. rewrite map_id, app_nil_r.
    split; [reflexivity|]. split; [intros v; constructor|].
    split; [constructor|]. split; [constructor|].
    split; [intros c Hc; destruct Hc|].
    split; [constructor|]. split; [constructor|]. lia. }
  destruct r as [code dev|vo p c t cid now|cid so now
                 |mo admin draws|qo mo admin draws faults].
  - (* validate *)
    destruct (validate_shape d code dev) as (f & Hv & Hf & _).
    apply (Kept f); [exact Hv | |].
    + intros v. destruct (Hf v) as [-> | (stored & ->)]; constructor.
    + unfold step, handle, validate.
      destruct (JS.not code || JS.not dev); [reflexivity|].
      destruct (select_voucher_by_code _ _) as [|row rows]; [reflexivity|].
      destruct (negb _ || _ || _); [reflexivity|]. simpl.
      destruct (update_voucher_device _ _ _); reflexivity.
  - (* startCall *)
    destruct (startCall_shape d vo p c t cid now) as (Hv & _).
    assert (Hn : next_id (step d (StartCall vo p c t cid now)) = next_id d).
    { unfold step, handle, startCall. destruct vo as [vid|]; [|reflexivity].
      destruct (JS.not p || JS.not c || JS.not t); [reflexivity|].
      destruct (select_voucher_for_call vid (vouchers d)) as [|[rem dev] rows];
        [reflexivity|].
      destruct (rem <=? 0); [reflexivity|].
      unfold insert_call_log.
      destruct (varchar 20 p); [|reflexivity].
      destruct (varchar 5 c); [|reflexivity].
      destruct (varchar 20 t); [|reflexivity].
      destruct (call_id_exists cid (call_logs d)); reflexivity. }
    destruct (Id Hv Hn) as (H1 & H2 & H3). exact (Kept _ H1 H2 H3).
  - (* endCall *)
    assert (Hn : next_id (step d (EndCall cid so now)) = next_id d).
    { unfold step, handle, endCall. destruct so as [secs|]; [|reflexivity].
      destruct (JS.not cid); [reflexivity|].
      destruct (select_call_voucher cid (call_logs d)); [reflexivity|].
      destruct (update_call_log _ _ _ _); [|reflexivity].
      destruct (debit_overflows _ _ _); reflexivity. }
    destruct (endCall_shape d cid so now)
      as [E | (secs & vo & -> & [Hv|Hv] & _)].
    + assert (Hv : vouchers (step d (EndCall cid so now)) = vouchers d)
        by (unfold step, handle; destruct (endCall d cid so now); simpl in *;
            subst; reflexivity).
      destruct (Id Hv Hn) as (H1 & H2 & H3). exact (Kept _ H1 H2 H3).
    + assert (Hv' : vouchers (step d (EndCall cid (Some secs) now)) =
                    vouchers d)
        by (unfold step, handle; destruct (endCall d cid (Some secs) now);
            exact Hv).
      destruct (Id Hv' Hn) as (H1 & H2 & H3). exact (Kept _ H1 H2 H3).
    + apply (Kept (fun v => if opt_nat_eqb vo (Voucher.id v)
                            then debit_row (minutesUsed secs) now v else v));
        [| |exact Hn].
      * unfold step, handle.
        destruct (endCall d cid (Some secs) now) as [d' resp]. exact Hv.
      * intros v. destruct (opt_nat_eqb vo (Voucher.id v));
          econstructor; reflexivity.
  - (* generate *)
    clear Kept Id. unfold step, handle, generate.
    destruct mo as [m|]; [|apply Same; reflexivity].
    destruct (m <=? 0) eqn:Em; [apply Same; reflexivity|].
    apply Z.leb_gt in Em.
    destruct (uniqueCode (vouchers d) draws) as [code|] eqn:U;
      [|apply Same; reflexivity].
    apply uniqueCode_drawn in U. destruct U as (Hfr & _).
    destruct (int4 m); [|apply Same; reflexivity].
    unfold insert_voucher.
    rewrite (proj2 (code_fresh code (vouchers d)) Hfr). simpl.
    exists (fun v => v),
      [Voucher.mk (next_id d) code m m false true None None admin None].
    rewrite map_id. split; [reflexivity|].
    split; [intros v; constructor|].
    split; [constructor; [|constructor]; exists m, admin, None;
            split; [exact Em | repeat split]|].
    split; [simpl; constructor; [intros []|constructor]|].
    split; [intros c [<-|[]]; exact Hfr|].
    split; [constructor; [simpl; lia | constructor]|].
    split; [simpl; constructor; [intros []|constructor]|lia].
  - (* batch *)
    clear Kept Id. unfold step, handle.
    unfold batch. destruct qo as [q|]; [|apply Same; reflexivity].
    destruct mo as [m|]; [|apply Same; reflexivity].
    destruct (q <=? 0); [apply Same; reflexivity|].
    destruct (m <=? 0) eqn:Em; [apply Same; reflexivity|].
    apply Z.leb_gt in Em. simpl orb. cbv iota.
    destruct (q >? 1000); [apply Same; reflexivity|].
    destruct (batch_tx faults q m admin (mkTx d 0 draws))
      as [[b codes] s| |] eqn:E; [|apply Same; reflexivity|apply Same; reflexivity].
    pose proof (batch_tx_ids _ _ _ _ _ _ _ _ E) as (news' & Hv' & Hid & Hn & _).
    apply batch_tx_returned in E.
    destruct E as (news & Hv & _ & _ & Hmi & Hnd & Hfr & _).
    simpl in Hv, Hv', Hid, Hn, Hfr.
    assert (news' = news) by (rewrite Hv in Hv'; apply app_inv_head in Hv';
                              symmetry; exact Hv').
    subst news'. simpl. exists (fun v => v), news. rewrite map_id.
    split; [exact Hv|]. split; [intros v; constructor|].
    split; [apply Forall_impl with (2 := Hmi); eauto|].
    split; [exact Hnd|]. split; [exact Hfr|].
    split.
    { rewrite Forall_forall. intros v Hin. apply (in_map Voucher.id) in Hin.
      rewrite Hid in Hin. apply seq_bounds in Hin. lia. }
    split; [rewrite Hid; apply seq_NoDup | lia].
Qed.

Lemma step_call_rows_same_length d r :
  List.length (call_logs (step d r)) = List.length (call_logs d) ->
  exists g news,
    call_logs (step d r) = map g (call_logs d) ++ news /\
    (forall c, call_step c (g c)) /\
    NoDup (map CallLog.call_id news) /\
    (forall c, In c news ->
       ~ In (CallLog.call_id c) (map CallLog.call_id (call_logs d))).
Proof.
  intros L. destruct (step_calls d r) as (g & news & E & Hg & _).
  assert (Hnil : news = []).
  { rewrite E in L. rewrite length_app, length_map in L.
    destruct news; [reflexivity|]. simpl in L. lia. }
  subst news. exists g, []. split; [exact E|]. split; [exact Hg|].
  split; [constructor | intros x []].
Qed.

Lemma step_call_rows d r :
  exists g news,
    call_logs (step d r) = map g (call_logs d) ++ news /\
    (forall c, call_step c (g c)) /\
    NoDup (map CallLog.call_id news) /\
    (forall c, In c news ->
       ~ In (CallLog.call_id c) (map CallLog.call_id (call_logs d))).
Proof.
  destruct r as [code dev|vo p c t cid now|cid so now
                 |mo admin draws|qo mo admin draws faults].
  2: { unfold step, handle, startCall.
       assert (Same : exists g news,
                 call_logs d = map g (call_logs d) ++ news /\
                 (forall c, call_step c (g c)) /\
                 NoDup (map CallLog.call_id news) /\
                 (forall c, In c news ->
                    ~ In (CallLog.call_id c)
                         (map CallLog.call_id (call_logs d)))).
       { exists (fun c => c), []. rewrite map_id, app_nil_r.
         split; [reflexivity|]. split; [intros x; constructor|].
         split; [constructor | intros x []]. }
       destruct vo as [vid|]; [|exact Same].
       destruct (JS.not p || JS.not c || JS.not t); [exact Same|].
       destruct (select_voucher_for_call vid (vouchers d)) as [|[rem dev] rows];
         [exact Same|].
       destruct (rem <=? 0); [exact Same|].
       unfold insert_call_log.
       destruct (varchar 20 p); [|exact Same].
       destruct (varchar 5 c); [|exact Same].
       destruct (varchar 20 t); [|exact Same].
       destruct (call_id_exists cid (call_logs d)) eqn:E; [exact Same|].
       simpl. eexists (fun c => c), [_]. rewrite map_id.
       split; [reflexivity|]. split; [intros x; constructor|].
       split; [simpl; constructor; [intros []|constructor]|].
       intros x [<-|[]]. simpl. intros Hin. apply in_map_iff in Hin.
       destruct Hin as (c0 & Hid & Hin0).
       unfold call_id_exists in E.
       assert (T : existsb (fun c1 => String.eqb (CallLog.call_id c1) cid)
                     (call_logs d) = true).
       { apply existsb_exists. exists c0. split; [exact Hin0|].
         apply String.eqb_eq. exact Hid. }
       congruence. }
  all: apply step_call_rows_same_length; unfold step, handle.
  - pose proof (validate_shape d code dev) as (f & _ & _ & Hc).
    destruct (validate d code dev) as [d' resp]. simpl in *. congruence.
  - pose proof (endCall_shape d cid so now) as H.
    destruct (endCall d cid so now) as [d' resp]. simpl in *.
    destruct H as [-> | (secs & vo & _ & _ & H)]; [reflexivity|].
    unfold update_call_log in H. destruct (int4 secs); [|discriminate].
    injection H as <-. apply length_map.
  - destruct (generate d mo admin draws) as [[d' resp]|] eqn:G; [|reflexivity].
    apply generate_shape in G. destruct G as (Hc & _). congruence.
  - destruct (batch faults d qo mo admin draws) as [[d' resp]|] eqn:G;
      [|reflexivity].
    apply batch_shape in G. destruct G as (Hc & _). congruence.
Qed.

Lemma call_step_same c c' : call_step c c' -> same_call c c'.
Proof. intros H. destruct H; repeat split; auto. Qed.

Lemma row_step_same r v v' : row_step r v v' -> same_voucher v v'.
Proof.
  intros H. destruct H as [v|v dev|v cid secs now _]; unfold same_voucher; simpl.
  - repeat split; auto.
  - repeat split; auto.
  - repeat split; auto.
    + intros ->. destruct (_ <=? 0); reflexivity.
    + intros t ->. rewrite andb_false_r. reflexivity.
Qed.

Lemma same_voucher_trans v1 v2 v3 :
  same_voucher v1 v2 -> same_voucher v2 v3 -> same_voucher v1 v3.
Proof.
  unfold same_voucher.
  intros (A1 & A2 & A3 & A4 & A5 & A6 & A7 & A8)
         (B1 & B2 & B3 & B4 & B5 & B6 & B7 & B8).
  repeat split; try congruence; auto.
Qed.

Lemma same_call_trans c1 c2 c3 :
  same_call c1 c2 -> same_call c2 c3 -> same_call c1 c3.
Proof.
  unfold same_call.
  intros (A1 & A2 & A3 & A4 & A5 & A6 & A7 & A8)
         (B1 & B2 & B3 & B4 & B5 & B6 & B7 & B8).
  repeat split; try congruence; auto.
Qed.

Lemma call_by_id_step d r cid c :
  call_by_id cid d = Some c ->
  exists c', call_by_id cid (step d r) = Some c' /\ call_step c c'.
Proof.
  intros Hc. destruct (step_calls d r) as (g & news & E & Hg & _).
  exists (g c). split; [|apply Hg].
  unfold call_by_id in *. rewrite E. apply find_app_some.
  rewrite find_map_stable; [rewrite Hc; reflexivity|].
  intros x. destruct (call_step_same _ _ (Hg x)) as (-> & _). reflexivity.
Qed.

(** ** Keys stay unique *)

Lemma step_keys_unique d r : keys_unique d -> keys_unique (step d r).
Proof.
  intros (Hlt & Hid & Hcd & Hcl).
  destruct (step_rows d r) as (f & news & E & Hf & _ & Hnd & Hfr & Hnew & Hnid
                               & Hle).
  assert (Ids : map Voucher.id (map f (vouchers d)) = map Voucher.id (vouchers d)).
  { rewrite map_map. apply map_ext. intros v.
    apply (row_step_id _ _ _ (Hf v)). }
  assert (Cds : codes_of (map f (vouchers d)) = codes_of (vouchers d)).
  { unfold codes_of. rewrite map_map. apply map_ext. intros v.
    apply (row_step_id _ _ _ (Hf v)). }
  split; [|split; [|split]].
  - rewrite E. apply Forall_app. split; [|apply Forall_impl with (2 := Hnew);
                                          intros v H; lia].
    rewrite Forall_forall in *. intros v' Hin. apply in_map_iff in Hin.
    destruct Hin as (v & <- & Hin). destruct (row_step_id _ _ _ (Hf v)) as (-> & _).
    specialize (Hlt v Hin). lia.
  - rewrite E, map_app, Ids. apply NoDup_app; [exact Hid | exact Hnid |].
    intros a Ha Hb. apply in_map_iff in Ha. destruct Ha as (v & <- & Hv).
    apply in_map_iff in Hb. destruct Hb as (v' & Hv' & Hin').
    rewrite Forall_forall in Hlt, Hnew.
    specialize (Hlt v Hv). specialize (Hnew v' Hin'). lia.
  - rewrite E.
    assert (Ea : codes_of (map f (vouchers d) ++ news) =
                 codes_of (vouchers d) ++ codes_of news).
    { rewrite <- Cds. unfold codes_of. apply map_app. }
    rewrite Ea. apply NoDup_app; [exact Hcd | exact Hnd |].
    intros a Ha Hb. exact (Hfr a Hb Ha).
  - destruct (step_call_rows d r) as (g & cnews & Ec & Hg & Hcn & Hcf).
    rewrite Ec, map_app.
    assert (Cs : map CallLog.call_id (map g (call_logs d)) =
                 map CallLog.call_id (call_logs d)).
    { rewrite map_map. apply map_ext. intros c.
      apply (call_step_same _ _ (Hg c)). }
    rewrite Cs. apply NoDup_app; [exact Hcl | exact Hcn |].
    intros a Ha Hb. apply in_map_iff in Hb. destruct Hb as (c & <- & Hc).
    exact (Hcf c Hc Ha).
Qed.

Lemma reachable_keys_unique_holds (d : db) : reachable d -> keys_unique d.
Proof.
  intros (rs & ->). induction rs as [|r rs IH] using rev_ind.
  - repeat split; constructor.
  - rewrite run_snoc. apply step_keys_unique. exact IH.
Qed.

(** ** C1: ending a call twice *)

(** C1, as stated, fails: the sample call is ended with 60 seconds and the
    ten-minute voucher goes to 9; ended again with the same call id, the
    request is answered with success and the voucher goes to 8. *)
Lemma endCall_twice_debits_twice :
  remaining_of 0 Sample.d0 = Some 10 /\
  handle Sample.d0 (EndCall "call-1" (Some 60) 200%nat) =
    Some (Sample.ended_once, sendResponse (EndData true 9)) /\
  option_map CallLog.status (call_by_id "call-1" Sample.ended_once) =
    Some completed /\
  handle Sample.ended_once (EndCall "call-1" (Some 60) 300%nat) =
    Some (Sample.ended_twice, sendResponse (EndData true 8)) /\
  remaining_of 0 Sample.ended_twice = Some 8.
Proof. vm_compute. repeat split. Qed.

Lemma reachable_call d cid c :
  reachable d -> call_by_id cid d = Some c ->
  exists vid v, CallLog.voucher_id c = Some vid /\
                voucher_by_id vid d = Some v /\
                0 <= Voucher.remaining_minutes v.
Proof.
  intros Hr Hc.
  assert (Hin : In c (call_logs d)) by (apply find_some in Hc; apply Hc).
  destruct (reachable_calls_linked d Hr c Hin) as (vid & v & Hv & Hf).
  exists vid, v. split; [exact Hv|]. split; [exact Hf|].
  apply (reachable_balances_nonneg d Hr). apply find_some in Hf. apply Hf.
Qed.

Lemma reachable_ids d : reachable d -> NoDup (map Voucher.id (vouchers d)).
Proof. intros H. apply reachable_keys_unique_holds in H. apply H. Qed.

(** In a reachable state the debit of a call is refused only when the
    balance less the minutes billed is above the [INTEGER] range. *)
Lemma reachable_debit_fits d vid v secs :
  reachable d -> voucher_by_id vid d = Some v ->
  int4 secs = true ->
  Voucher.remaining_minutes v - minutesUsed secs <= 2147483647 ->
  debit_overflows (minutesUsed secs) (Some vid) (vouchers d) = false.
Proof.
  intros Hr Hf Hs Hm.
  apply (debit_fits _ _ _ v (reachable_ids d Hr) Hf (minutesUsed_int4 _ Hs)).
  assert (H0 : 0 <= Voucher.remaining_minutes v)
    by (apply (reachable_balances_nonneg d Hr); apply find_some in Hf;
        apply Hf).
  apply int4_bounds in Hs. pose proof (minutesUsed_ceiling secs).
  apply int4_bounds. lia.
Qed.

(** C1, amended.  In every reachable state, a call that is ended and then
    ended again with the same call id is completed by the first request and
    not refused by the second: when the durations reported are within
    [INTEGER] and no debit takes the balance above [INTEGER], the second
    request succeeds too and debits the voucher again, so that the balance
    is [max 0 (max 0 (r - m1) - m2)] for the two billed amounts [m1],
    [m2]. *)
Theorem endCall_repeat_debits_again (d : db) (cid : string) (c : CallLog.row)
  (s1 s2 : Z) (n1 n2 : nat) :
  reachable d -> cid <> "" -> call_by_id cid d = Some c ->
  int4 s1 = true -> int4 s2 = true ->
  exists vid v,
    CallLog.voucher_id c = Some vid /\ voucher_by_id vid d = Some v /\
    (Voucher.remaining_minutes v - minutesUsed s1 <= 2147483647 ->
     Z.max 0 (Voucher.remaining_minutes v - minutesUsed s1) - minutesUsed s2
       <= 2147483647 ->
     exists d1 d2,
       endCall d cid (Some s1) n1 =
         (d1, sendResponse
                (EndData true
                   (Z.max 0 (Voucher.remaining_minutes v - minutesUsed s1)))) /\
       option_map CallLog.status (call_by_id cid d1) = Some completed /\
       endCall d1 cid (Some s2) n2 =
         (d2, sendResponse
                (EndData true
                   (Z.max 0
                      (Z.max 0 (Voucher.remaining_minutes v - minutesUsed s1)
                       - minutesUsed s2)))) /\
       remaining_of vid d2 =
         Some (Z.max 0
                 (Z.max 0 (Voucher.remaining_minutes v - minutesUsed s1)
                  - minutesUsed s2))).
Proof.
  intros Hr Hcid Hc Hs1 Hs2.
  destruct (reachable_call d cid c Hr Hc) as (vid & v & Hv & Hf & _).
  exists vid, v. split; [exact Hv|]. split; [exact Hf|]. intros Hm1 Hm2.
  destruct (endCall_settles d cid s1 n1 c vid v Hcid Hc Hv Hf Hs1
              (reachable_debit_fits d vid v s1 Hr Hf Hs1 Hm1))
    as (d1 & E1 & Hf1 & Hc1).
  assert (Hr1 : reachable d1).
  { destruct Hr as (rs & ->). exists (rs ++ [EndCall cid (Some s1) n1]).
    rewrite run_snoc. unfold step, handle. rewrite E1. reflexivity. }
  destruct (endCall_settles d1 cid s2 n2 (complete_call s1 n1 c) vid
              (debit_row (minutesUsed s1) n1 v) Hcid Hc1 Hv Hf1 Hs2
              (reachable_debit_fits d1 vid _ s2 Hr1 Hf1 Hs2 Hm2))
    as (d2 & E2 & Hf2 & _).
  exists d1, d2.
  split; [exact E1|].
  split; [rewrite Hc1; reflexivity|]. split; [exact E2|].
  unfold remaining_of. rewrite Hf2. reflexivity.
Qed.

Lemma endCall_repeat_debits_again_witness :
  int4 60 = true /\ int4 61 = true /\
  exists d2,
    endCall Sample.ended_once "call-1" (Some 61) 300%nat =
      (d2, sendResponse (EndData true 7)) /\
    remaining_of 0 d2 = Some 7.
Proof.
  split; [reflexivity|]. split; [reflexivity|].
  assert (Hr : reachable Sample.d0) by (exists Sample.setup; reflexivity).
  assert (Hc : call_by_id "call-1" Sample.d0 =
               Some (CallLog.mk "call-1" (Some 0%nat) "5550100" "+1" "local" 0
                       active 100%nat None None)) by reflexivity.
  destruct (endCall_repeat_debits_again Sample.d0 "call-1" _ 60 61 200%nat
              300%nat Hr ltac:(discriminate) Hc eq_refl eq_refl)
    as (vid & v & Hv & Hf & H).
  injection Hv as <-. vm_compute in Hf. injection Hf as <-.
  destruct (H ltac:(vm_compute; discriminate) ltac:(vm_compute; discriminate))
    as (d1 & d2 & E1 & _ & E2 & R).
  vm_compute in E1. injection E1 as <-.
  exists d2. split; [exact E2 | exact R].
Defined.

(** ** C2: the balance of a voucher *)

(** C2, as stated, fails: ending the sample call with -120 seconds raises
    the balance of the ten-minute voucher from 10 to 12, above its
    duration. *)
Lemma negative_duration_raises_balance :
  option_map Voucher.duration_minutes (voucher_by_id 0 Sample.d0) = Some 10 /\
  remaining_of 0 Sample.d0 = Some 10 /\
  remaining_of 0 (step Sample.d0 (EndCall "call-1" (Some (-120)) 200%nat)) =
    Some 12.
Proof. vm_compute. repeat split. Qed.

(** C2, amended.  In every state reachable from the empty database the
    balance of every voucher is at least 0.  Along every run in which no
    call is ended with a negative duration, the balance of every voucher is
    also at most its duration, and a further request of that kind leaves
    every existing voucher in place, with the same duration and a balance
    that is not greater than before. *)
Theorem balance_bounds (rs : list request) :
  (forall v, In v (vouchers (run empty_db rs)) ->
             0 <= Voucher.remaining_minutes v) /\
  (Forall billable rs ->
   (forall v, In v (vouchers (run empty_db rs)) ->
      0 <= Voucher.remaining_minutes v <= Voucher.duration_minutes v) /\
   (forall r vid v,
      billable r ->
      voucher_by_id vid (run empty_db rs) = Some v ->
      exists v',
        voucher_by_id vid (step (run empty_db rs) r) = Some v' /\
        Voucher.duration_minutes v' = Voucher.duration_minutes v /\
        Voucher.remaining_minutes v' <= Voucher.remaining_minutes v)).
Proof.
  assert (Hr : reachable (run empty_db rs)) by (exists rs; reflexivity).
  pose proof (reachable_balances_nonneg _ Hr) as Nn.
  split; [exact Nn|]. intros Hb. split.
  - intros v Hin. split; [apply Nn; exact Hin|].
    apply (billable_run_bounded rs Hb). exact Hin.
  - intros r vid v Hbr Hv.
    destruct (voucher_by_id_step _ r vid v Hv) as (v' & Hv' & Hs).
    exists v'. split; [exact Hv'|].
    assert (H0 : 0 <= Voucher.remaining_minutes v)
      by (apply Nn; apply find_some in Hv; apply Hv).
    destruct Hs as [ | |v cid secs now ->]; simpl; try lia.
    simpl in Hbr. pose proof (minutesUsed_nonneg secs Hbr). lia.
Qed.

Lemma balance_bounds_witness :
  Forall billable (Sample.setup ++ [EndCall "call-1" (Some 61) 200%nat]) /\
  remaining_of 0
    (run empty_db (Sample.setup ++ [EndCall "call-1" (Some 61) 200%nat])) =
    Some 8 /\
  exists v',
    voucher_by_id 0
      (step (run empty_db (Sample.setup ++ [EndCall "call-1" (Some 61) 200%nat]))
         (EndCall "call-1" (Some 600) 300%nat)) = Some v' /\
    Voucher.remaining_minutes v' <= 8.
Proof.
  assert (Hb : Forall billable
                 (Sample.setup ++ [EndCall "call-1" (Some 61) 200%nat])).
  { repeat constructor. simpl. lia. }
  split; [exact Hb|]. split; [reflexivity|].
  destruct (balance_bounds (Sample.setup ++ [EndCall "call-1" (Some 61) 200%nat]))
    as (_ & H).
  destruct (H Hb) as (_ & Hstep).
  destruct (Hstep (EndCall "call-1" (Some 600) 300%nat) 0%nat
              (Voucher.mk 0 "AAAAAAAAAAAA" 10 8 false true None None 7 None))
    as (v' & Hv' & _ & Hle).
  - simpl. lia.
  - reflexivity.
  - exists v'. split; [exact Hv' | exact Hle].
Defined.

(** ** C3: device binding *)

Lemma select_voucher_by_code_first (c : string) (vs : list Voucher.row) :
  match select_voucher_by_code c vs with
  | [] => find (fun v => String.eqb (Voucher.code v) c) vs = None
  | row :: _ =>
      exists v, find (fun v => String.eqb (Voucher.code v) c) vs = Some v /\
                row = mkValidateRow (Voucher.id v) (Voucher.duration_minutes v)
                        (Voucher.remaining_minutes v) (Voucher.is_used v)
                        (Voucher.is_active v)
  end.
Proof.
  unfold select_voucher_by_code.
  destruct (filter_find (fun v => String.eqb (Voucher.code v) c) vs)
    as [[-> Hn] | (x & t & -> & Hf)]; simpl; eauto.
Qed.

Lemma varchar_fits (n : nat) (s : string) :
  (String.length s <= n)%nat -> varchar n s = Some s.
Proof.
  intros H. unfold varchar. apply Nat.leb_le in H. rewrite H. reflexivity.
Qed.

(** X13.  Every validation that answers [valid = true] writes the caller's
    device on the voucher it reports, whatever was bound before: the device
    id as the [VARCHAR(100)] column stores it, which is the device id itself
    when it has at most 100 characters. *)
Lemma validate_writes_device d code dev mins vid :
  snd (validate d code dev) = sendResponse (ValidateData true mins (Some vid)) ->
  exists stored,
    varchar 100 dev = Some stored /\
    option_map Voucher.device_id
      (voucher_by_id vid (fst (validate d code dev))) = Some (Some stored) /\
    ((String.length dev <= 100)%nat -> stored = dev).
Proof.
  unfold validate. destruct (JS.not code || JS.not dev); [discriminate|].
  pose proof (select_voucher_by_code_first (JS.toUpperCase code) (vouchers d)) as H.
  destruct (select_voucher_by_code _ _) as [|row rows]; [discriminate|].
  destruct H as (v & Hf & ->). simpl.
  destruct (negb (Voucher.is_active v) || Voucher.is_used v
            || (Voucher.remaining_minutes v <=? 0)); [discriminate|].
  simpl. unfold update_voucher_device.
  destruct (varchar 100 dev) as [stored|] eqn:W; [|discriminate].
  simpl. intros E. injection E as _ <-.
  exists stored. split; [reflexivity|]. split.
  - unfold voucher_by_id. simpl.
    rewrite find_map_stable.
    + apply find_some in Hf. destruct Hf as [Hin _].
      destruct (voucher_by_id_of_In (Voucher.id v) d v Hin eq_refl) as (v' & Hv').
      unfold voucher_by_id in Hv'. simpl in Hv'. rewrite Hv'. simpl.
      apply find_some in Hv'. destruct Hv' as [_ ->]. reflexivity.
    + intros x. destruct (Nat.eqb (Voucher.id x) (Voucher.id v)) eqn:E;
        simpl; exact E.
  - intros L. rewrite (varchar_fits _ _ L) in W. congruence.
Qed.

(** C3 fails on the code.  The voucher of the sample has no device; it is
    validated from [device-A], which binds it, and then from [device-B]:
    both validations answer [valid = true], and the second one replaces the
    binding by [device-B]. *)
Theorem validate_rebinds_device :
  option_map Voucher.device_id (voucher_by_id 0 Sample.issued_voucher) =
    Some None /\
  handle Sample.issued_voucher (ValidateVoucher "aaaaaaaaaaaa" "device-A") =
    Some (Sample.bound_once, sendResponse (ValidateData true 10 (Some 0%nat))) /\
  option_map Voucher.device_id (voucher_by_id 0 Sample.bound_once) =
    Some (Some "device-A") /\
  handle Sample.bound_once (ValidateVoucher "aaaaaaaaaaaa" "device-B") =
    Some (Sample.bound_twice, sendResponse (ValidateData true 10 (Some 0%nat))) /\
  option_map Voucher.device_id (voucher_by_id 0 Sample.bound_twice) =
    Some (Some "device-B").
Proof. vm_compute. repeat split. Qed.

(** ** C4: concurrent debits *)

(** The voucher update of [endCall], when no statement of the request is
    refused, is the ledger debit. *)
Lemma endCall_debits d cid secs now c vid :
  cid <> "" -> call_by_id cid d = Some c -> CallLog.voucher_id c = Some vid ->
  int4 secs = true ->
  debit_overflows (minutesUsed secs) (Some vid) (vouchers d) = false ->
  vouchers (fst (endCall d cid (Some secs) now)) =
  vouchers (debit vid (minutesUsed secs) now d).
Proof.
  intros Hcid Hc Hv Hs Hov. unfold endCall. rewrite (not_nonempty _ Hcid).
  unfold select_call_voucher.
  destruct (filter_find (fun c0 => String.eqb (CallLog.call_id c0) cid)
              (call_logs d)) as [[_ Hn] | (x & t & Hfl & Hfd)];
    [unfold call_by_id in Hc; congruence|].
  rewrite Hfl. cbn [map].
  unfold call_by_id in Hc. rewrite Hfd in Hc. injection Hc as ->. rewrite Hv.
  unfold update_call_log. rewrite Hs. simpl vouchers. rewrite Hov.
  reflexivity.
Qed.

Lemma total_nonneg sched :
  Forall (fun mn : Z * nat => 0 <= fst mn) sched -> 0 <= total sched.
Proof. induction 1 as [|[m n] l H _ IH]; simpl in *; lia. Qed.

Lemma run_debits_exact vid : forall sched d v,
  voucher_by_id vid d = Some v ->
  Forall (fun mn => 0 <= fst mn) sched ->
  total sched <= Voucher.remaining_minutes v ->
  remaining_of vid (run_debits vid sched d) =
  Some (Voucher.remaining_minutes v - total sched).
Proof.
  induction sched as [|[m now] sched IH]; intros d v Hv Hpos Hsum.
  - unfold remaining_of. simpl. rewrite Hv. simpl. f_equal. lia.
  - inversion Hpos as [|x l Hm Hrest]; subst. simpl in Hm, Hsum.
    pose proof (total_nonneg sched Hrest) as Ht.
    pose proof (voucher_by_id_debit m (Some vid) now vid d) as Hd.
    rewrite Hv in Hd. simpl in Hd.
    rewrite (voucher_by_id_eq _ _ _ Hv) in Hd.
    change (run_debits vid ((m, now) :: sched) d)
      with (run_debits vid sched (debit vid m now d)).
    rewrite (IH (debit vid m now d) (debit_row m now v) Hd Hrest).
    + simpl. f_equal. lia.
    + simpl. lia.
Qed.

Lemma total_permutation ms sched : Permutation ms sched -> total ms = total sched.
Proof.
  induction 1 as [|x l l' _ IH|x y l|l l' l'' _ IH1 _ IH2]; simpl; lia.
Qed.

(** C4.  Each debit is the single [UPDATE vouchers] statement, which the
    storage layer applies to a row one at a time, so an execution of [N]
    concurrent debits applies them in some order [sched] of the amounts [ms].
    For a voucher whose balance is its duration, amounts that are not
    negative and whose sum is at most the duration, the final balance is the
    duration less the sum, for every such order. *)
Theorem concurrent_debits_no_lost_update (d : db) (vid : nat) (v : Voucher.row)
  (ms sched : list (Z * nat)) :
  voucher_by_id vid d = Some v ->
  Voucher.remaining_minutes v = Voucher.duration_minutes v ->
  Forall (fun mn => 0 <= fst mn) ms ->
  total ms <= Voucher.duration_minutes v ->
  Permutation ms sched ->
  remaining_of vid (run_debits vid sched d) =
  Some (Voucher.duration_minutes v - total ms).
Proof.
  intros Hv Hfull Hpos Hsum Hperm.
  rewrite (total_permutation _ _ Hperm) in *. rewrite <- Hfull in *.
  apply run_debits_exact; [exact Hv | | exact Hsum].
  apply (Permutation_Forall Hperm). exact Hpos.
Qed.

Lemma concurrent_debits_no_lost_update_witness :
  remaining_of 0
    (run_debits 0 [(2, 5%nat); (3, 6%nat); (1, 7%nat)] Sample.d0) = Some 4 /\
  remaining_of 0
    (run_debits 0 [(1, 7%nat); (2, 5%nat); (3, 6%nat)] Sample.d0) = Some 4.
Proof.
  assert (Hv : voucher_by_id 0 Sample.d0 =
               Some (Voucher.mk 0 "AAAAAAAAAAAA" 10 10 false true None None 7
                       None)) by reflexivity.
  assert (Hpos : Forall (fun mn : Z * nat => 0 <= fst mn)
                   [(3, 6%nat); (1, 7%nat); (2, 5%nat)]).
  { repeat constructor; simpl; lia. }
  split.
  - apply (concurrent_debits_no_lost_update Sample.d0 0 _
             [(3, 6%nat); (1, 7%nat); (2, 5%nat)] _ Hv eq_refl Hpos).
    + simpl. lia.
    + eapply perm_trans; [apply perm_skip; apply perm_swap | apply perm_swap].
  - apply (concurrent_debits_no_lost_update Sample.d0 0 _
             [(3, 6%nat); (1, 7%nat); (2, 5%nat)] _ Hv eq_refl Hpos).
    + simpl. lia.
    + eapply perm_trans; [apply perm_swap | apply perm_skip; apply perm_swap].
Defined.

(** ** Interleaved requests to end calls *)

(** A request that runs alone passes through its storage operations and
    does what [endCall] does. *)
Lemma thread_run_endCall d cid so now :
  exists r,
    thread_run 4 d (spawn cid so now) =
      (fst (endCall d cid so now), mkThread cid (match so with
                                                 | Some secs => secs
                                                 | None => 0
                                                 end) now (answered r)) /\
    snd (endCall d cid so now) = r.
Proof.
  unfold endCall, spawn. destruct so as [secs|]; [|eexists; split; reflexivity].
  destruct (JS.not cid); [eexists; split; reflexivity|].
  cbn [thread_run]. unfold thread_step at 1. cbn [t_pc t_callId].
  destruct (select_call_voucher cid (call_logs d)) as [|vo rows];
    [eexists; split; reflexivity|].
  unfold thread_step at 1. cbn [t_pc t_callId t_secs t_now].
  destruct (update_call_log secs cid now (call_logs d)) as [cs'|];
    [|eexists; split; reflexivity].
  unfold thread_step at 1. cbn [t_pc t_callId t_secs t_now].
  destruct (debit_overflows _ _ _); eexists; split; reflexivity.
Qed.

Section SetNth.

Context {A : Type}.

Lemma set_nth_sum (f : A -> Z) (t' : A) : forall (l : list A) (i : nat) (t : A),
  nth_error l i = Some t ->
  fold_right (fun x acc => f x + acc) 0 (set_nth i t' l) =
  fold_right (fun x acc => f x + acc) 0 l - f t + f t'.
Proof.
  induction l as [|a l IH]; intros [|i] t H; simpl in *; try discriminate.
  - injection H as ->. lia.
  - rewrite (IH i t H). lia.
Qed.

Lemma set_nth_Forall (P : A -> Prop) (t' : A) : forall (l : list A) (i : nat),
  Forall P l -> P t' -> Forall P (set_nth i t' l).
Proof.
  induction l as [|a l IH]; intros [|i] Hl Ht; simpl; auto;
    inversion Hl; subst; constructor; auto.
Qed.

End SetNth.

Lemma call_by_id_update secs cid now cid' d cs' :
  update_call_log secs cid now (call_logs d) = Some cs' ->
  find (fun c => String.eqb (CallLog.call_id c) cid') cs' =
  option_map (fun c => if String.eqb (CallLog.call_id c) cid
                       then complete_call secs now c else c)
             (call_by_id cid' d).
Proof.
  unfold update_call_log, call_by_id. destruct (int4 secs); [|discriminate].
  intros H. injection H as <-. apply find_map_stable.
  intros c. destruct (String.eqb (CallLog.call_id c) cid); reflexivity.
Qed.

Lemma debited_le_billed ts :
  Forall (fun t => 0 <= t_secs t) ts -> 0 <= debited ts <= billed ts.
Proof.
  induction 1 as [|t ts Ht _ IH]; simpl; [lia|].
  pose proof (minutesUsed_nonneg _ Ht).
  unfold debited_by. destruct (t_pc t); lia.
Qed.

Lemma settles_moved vid d d' t :
  (forall cid c, call_by_id cid d = Some c ->
     exists c', call_by_id cid d' = Some c' /\
                CallLog.voucher_id c' = CallLog.voucher_id c) ->
  settles vid d t -> settles vid d' t.
Proof.
  intros Hst (Hs & (c & Hc & Hv) & Hpc). split; [exact Hs|]. split; [|exact Hpc].
  destruct (Hst _ _ Hc) as (c' & Hc' & Hv'). exists c'.
  split; [exact Hc' | congruence].
Qed.

Lemma update_voucher_debit_ids m vo now vs :
  map Voucher.id (update_voucher_debit m vo now vs) = map Voucher.id vs.
Proof.
  unfold update_voucher_debit. rewrite map_map. apply map_ext. intros v.
  destruct (opt_nat_eqb vo (Voucher.id v)); reflexivity.
Qed.

(** One step of one of the requests keeps [in_flight]; the minutes billed
    do not change. *)
Lemma in_flight_step vid r0 d ts i t :
  billed ts <= r0 -> r0 <= 2147483647 ->
  in_flight vid r0 d ts -> nth_error ts i = Some t ->
  in_flight vid r0 (fst (thread_step d t)) (set_nth i (snd (thread_step d t)) ts)
  /\ billed (set_nth i (snd (thread_step d t)) ts) = billed ts.
Proof.
  intros Hb Hmax (Hrem & Hall & Hnd) Hi.
  assert (Ht : settles vid d t).
  { rewrite Forall_forall in Hall. apply Hall. eapply nth_error_In; eauto. }
  assert (Hsecs : Forall (fun t => 0 <= t_secs t) ts).
  { apply Forall_impl with (2 := Hall). intros a H. apply H. }
  assert (Same : forall d' t',
            vouchers d' = vouchers d ->
            (forall cid c, call_by_id cid d = Some c ->
               exists c', call_by_id cid d' = Some c' /\
                          CallLog.voucher_id c' = CallLog.voucher_id c) ->
            t_secs t' = t_secs t -> debited_by t' = debited_by t ->
            settles vid d' t' ->
            in_flight vid r0 d' (set_nth i t' ts) /\
            billed (set_nth i t' ts) = billed ts).
  { intros d' t' Hv Hst Hs Hd Hok. split; [split; [|split]|].
    - unfold debited. rewrite (set_nth_sum debited_by t' ts i t Hi), Hd.
      unfold remaining_of, voucher_by_id in *. rewrite Hv.
      rewrite Hrem. f_equal. unfold debited. lia.
    - apply set_nth_Forall; [|exact Hok].
      apply Forall_impl with (2 := Hall). intros a. apply settles_moved.
      exact Hst.
    - rewrite Hv. exact Hnd.
    - unfold billed.
      rewrite (set_nth_sum (fun x => minutesUsed (t_secs x)) t' ts i t Hi), Hs.
      lia. }
  destruct Ht as ((Hs & Hs4) & (c & Hc & Hv) & Hpc).
  unfold thread_step. destruct (t_pc t) as [|vo|vo|rem|r] eqn:Epc.
  - (* the lookup *)
    unfold select_call_voucher.
    destruct (filter_find (fun c0 => String.eqb (CallLog.call_id c0) (t_callId t))
                (call_logs d)) as [[_ Hn] | (x & rest & Hfl & Hfd)];
      [unfold call_by_id in Hc; congruence|].
    rewrite Hfl. unfold call_by_id in Hc. rewrite Hfd in Hc.
    injection Hc as ->. cbn [map fst snd]. apply Same; auto.
    + eauto.
    + unfold debited_by. rewrite Epc. reflexivity.
    + split; [split; [exact Hs | exact Hs4]|]. split; [|exact Hv].
      exists c. split; [exact Hfd | exact Hv].
  - (* the call row *)
    destruct (update_call_log (t_secs t) (t_callId t) (t_now t) (call_logs d))
      as [cs'|] eqn:U;
      [|unfold update_call_log in U; rewrite Hs4 in U; discriminate].
    cbn [fst snd]. apply Same; auto.
    + intros cid' c0 Hc0. unfold call_by_id at 1. cbn [call_logs with_call_logs].
      rewrite (call_by_id_update _ _ _ cid' _ _ U), Hc0. simpl.
      destruct (String.eqb (CallLog.call_id c0) (t_callId t));
        eexists; split; reflexivity.
    + unfold debited_by. rewrite Epc. reflexivity.
    + split; [split; [exact Hs | exact Hs4]|]. split; [|exact Hpc].
      unfold call_by_id at 1. cbn [call_logs with_call_logs t_callId].
      rewrite (call_by_id_update _ _ _ _ _ _ U), Hc. simpl.
      destruct (String.eqb (CallLog.call_id c) (t_callId t));
        eexists; split; try reflexivity; exact Hv.
  - (* the debit *)
    subst vo.
    unfold remaining_of in Hrem.
    destruct (voucher_by_id vid d) as [v|] eqn:Hf; [|discriminate].
    simpl in Hrem. injection Hrem as Hr.
    pose proof (debited_le_billed ts Hsecs) as Hdb.
    pose proof (minutesUsed_nonneg _ Hs) as Hm0.
    assert (Hdt : debited_by t = 0) by (unfold debited_by; rewrite Epc;
                                        reflexivity).
    assert (Hroom : debited ts + minutesUsed (t_secs t) <= billed ts).
    { clear -Hi Hdt Hsecs. revert i Hi.
      induction ts as [|a ts IH]; intros [|i] Hi; simpl in *; try discriminate.
      - injection Hi as ->. rewrite Hdt.
        inversion Hsecs; subst. pose proof (debited_le_billed ts H2). lia.
      - inversion Hsecs; subst. specialize (IH H2 i Hi).
        pose proof (minutesUsed_nonneg _ H1).
        assert (debited_by a <= minutesUsed (t_secs a))
          by (unfold debited_by; destruct (t_pc a); lia).
        lia. }
    assert (Hov : debit_overflows (minutesUsed (t_secs t)) (Some vid)
                    (vouchers d) = false).
    { apply (debit_fits _ _ _ v Hnd Hf (minutesUsed_int4 _ Hs4)).
      apply int4_bounds. lia. }
    rewrite Hov. cbn [fst snd].
    pose proof (voucher_by_id_debit (minutesUsed (t_secs t)) (Some vid)
                  (t_now t) vid d) as Hd.
    rewrite Hf in Hd. simpl in Hd. rewrite (voucher_by_id_eq _ _ _ Hf) in Hd.
    set (t' := mkThread _ _ _ _).
    assert (Hdeb : debited (set_nth i t' ts) =
                   debited ts + minutesUsed (t_secs t)).
    { unfold debited. rewrite (set_nth_sum debited_by t' ts i t Hi).
      unfold debited_by at 2 3. rewrite Epc. simpl. lia. }
    assert (Hbil : billed (set_nth i t' ts) = billed ts).
    { unfold billed.
      rewrite (set_nth_sum (fun x => minutesUsed (t_secs x)) t' ts i t Hi).
      simpl. lia. }
    split; [split; [|split]|exact Hbil].
    + unfold remaining_of. rewrite Hd. simpl. f_equal. lia.
    + apply set_nth_Forall.
      * apply Forall_impl with (2 := Hall). intros a. apply settles_moved.
        intros cid' c0 Hc0. exists c0. split; [exact Hc0 | reflexivity].
      * split; [split; [exact Hs | exact Hs4]|]. split; [|exact I].
        exists c. split; [exact Hc | exact Hv].
    + cbn [vouchers with_vouchers]. rewrite update_voucher_debit_ids.
      exact Hnd.
  - (* the log *)
    cbn [fst snd]. apply Same; auto.
    + eauto.
    + unfold debited_by. rewrite Epc. reflexivity.
    + split; [split; [exact Hs | exact Hs4]|]. split; [|simpl; eauto].
      exists c. split; [exact Hc | exact Hv].
  - (* answered *)
    cbn [fst snd]. apply Same; auto.
    + eauto.
    + split; [split; [exact Hs | exact Hs4]|]. split; [|rewrite Epc; exact Hpc].
      exists c. split; [exact Hc | exact Hv].
Qed.

Lemma in_flight_exec vid r0 : forall sched d ts,
  billed ts <= r0 -> r0 <= 2147483647 -> in_flight vid r0 d ts ->
  in_flight vid r0 (fst (exec sched d ts)) (snd (exec sched d ts)) /\
  billed (snd (exec sched d ts)) = billed ts.
Proof.
  induction sched as [|i sched IH]; intros d ts Hb Hmax Hinv; simpl; [auto|].
  destruct (nth_error ts i) as [t|] eqn:Hi; [|apply IH; assumption].
  destruct (in_flight_step vid r0 d ts i t Hb Hmax Hinv Hi) as (Hinv' & Hb').
  destruct (thread_step d t) as [d' t']. simpl in Hinv', Hb'.
  destruct (IH d' (set_nth i t' ts) ltac:(lia) Hmax Hinv') as (H1 & H2).
  split; [exact H1 | lia].
Qed.

Lemma finished_debited ts : Forall finished ts -> debited ts = billed ts.
Proof.
  induction 1 as [|t ts Ht _ IH]; simpl; [reflexivity|].
  unfold finished in Ht. unfold debited_by.
  destruct (t_pc t); try contradiction. lia.
Qed.

(** X19.  In a database whose voucher ids are distinct, requests to end
    calls of one voucher, with durations between 0 and 2147483647 seconds
    and billed minutes within the balance, itself within [INTEGER], leave
    the balance less the minutes billed once all of them are answered,
    whatever the order in which their storage operations were interleaved;
    and all of them are answered with success. *)
Theorem endCalls_interleaved (d : db) (vid : nat) (v : Voucher.row)
  (reqs : list (string * Z * nat)) (sched : list nat) :
  let ts := map (fun q => spawn (fst (fst q)) (Some (snd (fst q))) (snd q)) reqs in
  NoDup (map Voucher.id (vouchers d)) ->
  voucher_by_id vid d = Some v ->
  Voucher.remaining_minutes v <= 2147483647 ->
  Forall (fun q => fst (fst q) <> "" /\ 0 <= snd (fst q) <= 2147483647 /\
                   exists c, call_by_id (fst (fst q)) d = Some c /\
                             CallLog.voucher_id c = Some vid) reqs ->
  billed ts <= Voucher.remaining_minutes v ->
  Forall finished (snd (exec sched d ts)) ->
  remaining_of vid (fst (exec sched d ts)) =
    Some (Voucher.remaining_minutes v - billed ts) /\
  Forall (fun t => exists rem,
            t_pc t = answered (sendResponse (EndData true rem)))
         (snd (exec sched d ts)).
Proof.
  intros ts Hnd Hv Hmax Hreqs Hb Hfin.
  assert (Hinv : in_flight vid (Voucher.remaining_minutes v) d ts).
  { split; [|split; [|exact Hnd]].
    - assert (E : debited ts = 0).
      { clear -Hreqs. subst ts. unfold debited.
        induction Hreqs as [|q l Hq _ IH]; cbn [map fold_right];
          [reflexivity|].
        rewrite IH. destruct Hq as (Hc & _). unfold debited_by, spawn.
        cbn [t_pc]. rewrite (not_nonempty _ Hc). reflexivity. }
      rewrite E. unfold remaining_of. rewrite Hv. simpl. f_equal. lia.
    - subst ts. apply Forall_map. apply Forall_impl with (2 := Hreqs).
      intros [[cid secs] now] (Hc & Hs & Hex). simpl in *.
      unfold settles. cbn [t_secs t_callId spawn].
      split; [split; [lia | apply int4_bounds; lia]|]. split; [exact Hex|].
      simpl. rewrite (not_nonempty _ Hc). exact I. }
  destruct (in_flight_exec vid _ sched d ts Hb Hmax Hinv)
    as ((Hrem & Hall & _) & Hbil).
  split.
  - rewrite Hrem, (finished_debited _ Hfin), Hbil. reflexivity.
  - rewrite Forall_forall in *. intros t Hin.
    destruct (Hall t Hin) as (_ & _ & Hpc). specialize (Hfin t Hin).
    unfold finished in Hfin. destruct (t_pc t); try contradiction.
    destruct Hpc as (rem & ->). eauto.
Qed.

Lemma endCalls_interleaved_witness :
  remaining_of 0
    (fst (exec [0; 1; 1; 0; 1; 0; 0; 1]%nat Sample.d0
            [spawn "call-1" (Some 61) 200%nat;
             spawn "call-1" (Some 120) 201%nat])) = Some 6.
Proof.
  assert (Hv : voucher_by_id 0 Sample.d0 =
               Some (Voucher.mk 0 "AAAAAAAAAAAA" 10 10 false true None None 7
                       None)) by reflexivity.
  refine (proj1 (endCalls_interleaved Sample.d0 0 _
                   [("call-1", 61, 200%nat); ("call-1", 120, 201%nat)]
                   [0; 1; 1; 0; 1; 0; 0; 1]%nat _ Hv _ _ _ _)).
  - vm_compute. repeat constructor. intros [].
  - simpl. lia.
  - repeat constructor; simpl; try discriminate; try lia;
      eexists; split; reflexivity.
  - vm_compute. discriminate.
  - vm_compute. repeat constructor.
Defined.

(** ** C5: the billing rule *)

(** A duration outside [INTEGER] is refused by the update of the call:
    the request is answered with status 500 and nothing is written. *)
Lemma endCall_refused d cid secs now c :
  cid <> "" -> call_by_id cid d = Some c -> int4 secs = false ->
  endCall d cid (Some secs) now = (d, sendError "Internal server error" 500).
Proof.
  intros Hcid Hc Hs. unfold endCall. rewrite (not_nonempty _ Hcid).
  unfold select_call_voucher.
  destruct (filter_find (fun c0 => String.eqb (CallLog.call_id c0) cid)
              (call_logs d)) as [[_ Hn] | (x & t & Hfl & Hfd)];
    [unfold call_by_id in Hc; congruence|].
  rewrite Hfl. cbn [map]. unfold update_call_log. rewrite Hs. reflexivity.
Qed.

(** C5, as stated, fails: the column [duration_seconds] is [INTEGER], so
    ending the sample call with 2147483648 seconds, which would bill
    35791395 minutes, is answered with status 500; nothing is debited and
    the call stays active. *)
Lemma endCall_long_duration_debits_nothing :
  remaining_of 0 Sample.d0 = Some 10 /\
  minutesUsed 2147483648 = 35791395 /\
  handle Sample.d0 (EndCall "call-1" (Some 2147483648) 200%nat) =
    Some (Sample.d0, sendError "Internal server error" 500) /\
  option_map CallLog.status (call_by_id "call-1" Sample.d0) = Some active.
Proof. vm_compute. repeat split. Qed.

(** C5, amended.  In every reachable state, ending an existing call with a
    duration between 0 and 2147483647 seconds, on a voucher whose balance is
    within [INTEGER], succeeds and debits the voucher of the call by
    [m = ceil(actualDurationSeconds / 60)] minutes, the least [m] with
    [actualDurationSeconds <= 60 * m]: the balance becomes [max 0 (r - m)],
    which is [r - m] whenever the voucher holds that much.  A longer
    duration is answered with status 500 and nothing changes.  One second
    bills 1 minute, 60 seconds 1 minute and 61 seconds 2 minutes. *)
Theorem endCall_bills_ceiling (d : db) (cid : string) (c : CallLog.row)
  (secs : Z) (now : nat) :
  reachable d -> cid <> "" -> call_by_id cid d = Some c -> 0 <= secs ->
  60 * (minutesUsed secs - 1) < secs <= 60 * minutesUsed secs /\
  (exists vid v,
     CallLog.voucher_id c = Some vid /\ voucher_by_id vid d = Some v /\
     (secs <= 2147483647 -> Voucher.remaining_minutes v <= 2147483647 ->
      exists d',
        endCall d cid (Some secs) now =
          (d', sendResponse
                 (EndData true
                    (Z.max 0 (Voucher.remaining_minutes v - minutesUsed secs)))) /\
        remaining_of vid d' =
          Some (Z.max 0 (Voucher.remaining_minutes v - minutesUsed secs)) /\
        (minutesUsed secs <= Voucher.remaining_minutes v ->
         remaining_of vid d' =
           Some (Voucher.remaining_minutes v - minutesUsed secs)))) /\
  (2147483647 < secs ->
   endCall d cid (Some secs) now =
     (d, sendError "Internal server error" 500)) /\
  minutesUsed 1 = 1 /\ minutesUsed 60 = 1 /\ minutesUsed 61 = 2.
Proof.
  intros Hr Hcid Hc Hs. split; [apply minutesUsed_ceiling|].
  split; [|split; [|repeat split]].
  - destruct (reachable_call d cid c Hr Hc) as (vid & v & Hv & Hf & _).
    exists vid, v. split; [exact Hv|]. split; [exact Hf|]. intros Hmax Hbal.
    assert (Hs4 : int4 secs = true) by (apply int4_bounds; lia).
    pose proof (minutesUsed_nonneg secs Hs) as Hm.
    destruct (endCall_settles d cid secs now c vid v Hcid Hc Hv Hf Hs4
                (reachable_debit_fits d vid v secs Hr Hf Hs4 ltac:(lia)))
      as (d' & E & Hf' & _).
    exists d'. split; [exact E|].
    assert (R : remaining_of vid d' =
                Some (Z.max 0 (Voucher.remaining_minutes v - minutesUsed secs)))
      by (unfold remaining_of; rewrite Hf'; reflexivity).
    split; [exact R|]. intros Hle. rewrite R. f_equal. lia.
  - intros Hbig. apply (endCall_refused d cid secs now c Hcid Hc).
    unfold int4. replace (secs <=? 2147483647) with false
      by (symmetry; apply Z.leb_gt; exact Hbig).
    apply andb_false_r.
Qed.

Lemma endCall_bills_ceiling_witness :
  exists d',
    endCall Sample.d0 "call-1" (Some 61) 200%nat =
      (d', sendResponse (EndData true 8)) /\
    remaining_of 0 d' = Some 8.
Proof.
  assert (Hr : reachable Sample.d0) by (exists Sample.setup; reflexivity).
  assert (Hc : call_by_id "call-1" Sample.d0 =
               Some (CallLog.mk "call-1" (Some 0%nat) "5550100" "+1" "local" 0
                       active 100%nat None None)) by reflexivity.
  destruct (endCall_bills_ceiling Sample.d0 "call-1" _ 61 200%nat Hr
              ltac:(discriminate) Hc ltac:(lia))
    as (_ & (vid & v & Hv & Hf & H) & _).
  injection Hv as <-. vm_compute in Hf. injection Hf as <-.
  destruct (H ltac:(lia) ltac:(simpl; lia)) as (d' & E & R & _).
  exists d'. split; [exact E | exact R].
Defined.

(** ** C6: validation *)


(** The width of [device_id] on the sample: a device id of 101 characters
    is refused with status 500 and binds nothing; one of 100 characters and
    a space is accepted and stored without the space. *)
Lemma validate_device_width :
  validate Sample.issued_voucher "aaaaaaaaaaaa" Sample.long_device =
    (Sample.issued_voucher, sendError "Internal server error" 500) /\
  snd (validate Sample.issued_voucher "aaaaaaaaaaaa" Sample.padded_device) =
    sendResponse (ValidateData true 10 (Some 0%nat)) /\
  option_map Voucher.device_id
    (voucher_by_id 0
       (fst (validate Sample.issued_voucher "aaaaaaaaaaaa"
               Sample.padded_device))) =
    Some (Some (string_of_list_ascii (repeat "a"%char 100))).
Proof. vm_compute. repeat split. Qed.



(** ** C7: negative durations *)

(** C7, as stated, fails: ending the sample call with -120 seconds is
    answered with success, completes the call and raises the balance of its
    voucher from 10 to 12. *)
Lemma endCall_accepts_negative_duration :
  remaining_of 0 Sample.d0 = Some 10 /\
  handle Sample.d0 (EndCall "call-1" (Some (-120)) 200%nat) =
    Some (Sample.ended_negative, sendResponse (EndData true 12)) /\
  remaining_of 0 Sample.ended_negative = Some 12 /\
  option_map CallLog.status (call_by_id "call-1" Sample.ended_negative) =
    Some completed.
Proof. vm_compute. repeat split. Qed.

(** A debit that leaves [INTEGER] is refused after the call has been
    completed: the request is answered with status 500, the call row stays
    updated and the vouchers are as before. *)
Lemma endCall_debit_refused d cid secs now c vid v :
  cid <> "" ->
  call_by_id cid d = Some c ->
  CallLog.voucher_id c = Some vid ->
  voucher_by_id vid d = Some v ->
  int4 secs = true ->
  int4 (Voucher.remaining_minutes v - minutesUsed secs) = false ->
  exists d',
    endCall d cid (Some secs) now =
      (d', sendError "Internal server error" 500) /\
    call_by_id cid d' = Some (complete_call secs now c) /\
    vouchers d' = vouchers d /\ system_logs d' = system_logs d.
Proof.
  intros Hcid Hc Hv Hf Hs Hov.
  unfold endCall. rewrite (not_nonempty _ Hcid).
  unfold select_call_voucher.
  destruct (filter_find (fun c0 => String.eqb (CallLog.call_id c0) cid)
              (call_logs d)) as [[_ Hn] | (x & t & Hfl & Hfd)];
    [unfold call_by_id in Hc; congruence|].
  rewrite Hfl. simpl map.
  unfold call_by_id in Hc. rewrite Hfd in Hc. injection Hc as ->. rewrite Hv.
  unfold update_call_log. rewrite Hs.
  assert (Hex : debit_overflows (minutesUsed secs) (Some vid) (vouchers d)
                = true).
  { unfold debit_overflows. apply orb_true_iff. right.
    apply existsb_exists. exists v. apply find_some in Hf.
    destruct Hf as [Hin Hid]. split; [exact Hin|].
    simpl. rewrite Hid, Hov. reflexivity. }
  cbn [vouchers with_call_logs]. rewrite Hex.
  eexists. split; [reflexivity|]. split; [|split; reflexivity].
  unfold call_by_id. simpl call_logs.
  rewrite find_map_stable.
  - rewrite Hfd. simpl. apply find_some in Hfd. destruct Hfd as [_ E].
    rewrite E. reflexivity.
  - intros a. destruct (String.eqb (CallLog.call_id a) cid) eqn:E;
      simpl; exact E.
Qed.

(** The refused debit on the sample: ending the call of the full voucher
    with -60 seconds would take the balance to 2147483648; the request is
    answered with status 500, the call is completed and the balance is as
    before. *)
Lemma endCall_debit_refused_sample :
  remaining_of 0 Sample.full = Some 2147483647 /\
  snd (endCall Sample.full "call-1" (Some (-60)) 200%nat) =
    sendError "Internal server error" 500 /\
  option_map CallLog.status
    (call_by_id "call-1" (fst (endCall Sample.full "call-1" (Some (-60)) 200%nat)))
    = Some completed /\
  remaining_of 0 (fst (endCall Sample.full "call-1" (Some (-60)) 200%nat)) =
    Some 2147483647.
Proof. vm_compute. repeat split. Qed.

(** C7, amended.  The handler refuses a request only when the call id is
    missing or the duration is undefined (status 400, nothing changed).  In
    every reachable state, ending an existing call with a negative duration
    of at least -2147483648 seconds is answered with success when the debit
    stays within [INTEGER]: the call is completed with that duration and
    the balance of its voucher becomes [max 0 (r - m)] for
    [m = ceil(actualDurationSeconds / 60) <= 0], which is not below [r], and
    is above [r] when the duration is -60 seconds or less.  When the debit
    leaves [INTEGER] the answer is status 500, with the call completed and
    the vouchers unchanged; a duration below -2147483648 seconds is answered
    with status 500 and nothing changes. *)
Theorem endCall_negative_duration (d : db) (cid : string) (c : CallLog.row)
  (secs : Z) (now : nat) :
  reachable d -> cid <> "" -> call_by_id cid d = Some c -> secs < 0 ->
  endCall d cid None now =
    (d, sendError "CallId and actualDurationSeconds are required" 400) /\
  endCall d "" (Some secs) now =
    (d, sendError "CallId and actualDurationSeconds are required" 400) /\
  minutesUsed secs <= 0 /\
  (secs < -2147483648 ->
   endCall d cid (Some secs) now =
     (d, sendError "Internal server error" 500)) /\
  exists vid v,
    CallLog.voucher_id c = Some vid /\ voucher_by_id vid d = Some v /\
    (-2147483648 <= secs ->
     Voucher.remaining_minutes v - minutesUsed secs <= 2147483647 ->
     exists d',
       endCall d cid (Some secs) now =
         (d', sendResponse
                (EndData true
                   (Z.max 0 (Voucher.remaining_minutes v - minutesUsed secs)))) /\
       call_by_id cid d' = Some (complete_call secs now c) /\
       remaining_of vid d' =
         Some (Z.max 0 (Voucher.remaining_minutes v - minutesUsed secs)) /\
       Voucher.remaining_minutes v <=
         Z.max 0 (Voucher.remaining_minutes v - minutesUsed secs) /\
       (secs <= -60 ->
        Voucher.remaining_minutes v <
          Z.max 0 (Voucher.remaining_minutes v - minutesUsed secs))) /\
    (-2147483648 <= secs ->
     2147483647 < Voucher.remaining_minutes v - minutesUsed secs ->
     exists d',
       endCall d cid (Some secs) now =
         (d', sendError "Internal server error" 500) /\
       call_by_id cid d' = Some (complete_call secs now c) /\
       vouchers d' = vouchers d).
Proof.
  intros Hr Hcid Hc Hs.
  split; [reflexivity|]. split; [reflexivity|].
  pose proof (minutesUsed_ceiling secs) as Hceil.
  split; [lia|]. split.
  { intros Hlow. apply (endCall_refused d cid secs now c Hcid Hc).
    unfold int4. replace (-2147483648 <=? secs) with false
      by (symmetry; apply Z.leb_gt; exact Hlow).
    reflexivity. }
  destruct (reachable_call d cid c Hr Hc) as (vid & v & Hv & Hf & H0).
  exists vid, v. split; [exact Hv|]. split; [exact Hf|]. split.
  - intros Hlow Hfit.
    assert (Hs4 : int4 secs = true) by (apply int4_bounds; lia).
    destruct (endCall_settles d cid secs now c vid v Hcid Hc Hv Hf Hs4
                (reachable_debit_fits d vid v secs Hr Hf Hs4 Hfit))
      as (d' & E & Hf' & Hc').
    exists d'. split; [exact E|]. split; [exact Hc'|].
    split; [unfold remaining_of; rewrite Hf'; reflexivity|].
    split; [lia|]. intros Hle. lia.
  - intros Hlow Hover.
    assert (Hs4 : int4 secs = true) by (apply int4_bounds; lia).
    assert (Hov : int4 (Voucher.remaining_minutes v - minutesUsed secs) = false).
    { unfold int4. replace (_ <=? 2147483647) with false
        by (symmetry; apply Z.leb_gt; exact Hover).
      apply andb_false_r. }
    destruct (endCall_debit_refused d cid secs now c vid v Hcid Hc Hv Hf Hs4 Hov)
      as (d' & E & Hc' & Hvs & _).
    exists d'. split; [exact E|]. split; [exact Hc' | exact Hvs].
Qed.

Lemma endCall_negative_duration_witness :
  exists d',
    endCall Sample.d0 "call-1" (Some (-61)) 200%nat =
      (d', sendResponse (EndData true 11)) /\
    remaining_of 0 d' = Some 11.
Proof.
  assert (Hr : reachable Sample.d0) by (exists Sample.setup; reflexivity).
  assert (Hc : call_by_id "call-1" Sample.d0 =
               Some (CallLog.mk "call-1" (Some 0%nat) "5550100" "+1" "local" 0
                       active 100%nat None None)) by reflexivity.
  destruct (endCall_negative_duration Sample.d0 "call-1" _ (-61) 200%nat Hr
              ltac:(discriminate) Hc ltac:(lia))
    as (_ & _ & _ & _ & vid & v & Hv & Hf & H & _).
  injection Hv as <-. vm_compute in Hf. injection Hf as <-.
  destruct (H ltac:(lia) ltac:(vm_compute; discriminate))
    as (d' & E & _ & R & _).
  exists d'. split; [exact E | exact R].
Defined.

(** ** C8: batch generation *)

(** C8.  For a positive duration, a batch request with quantity in 1..1000
    that is answered either succeeds, having added exactly [quantity] voucher
    rows, each with [remaining_minutes = duration_minutes = durationMinutes],
    with codes pairwise distinct and distinct from the codes present before,
    all referencing the new batch row, and then none of the queries of the
    transaction failed; or it answers with an error and the database is
    exactly as before.  A quantity outside 1..1000 is refused with status 400
    and no change.  The request is answered whenever the draws supply a fresh
    code for each voucher, and it then succeeds unless a query fails. *)
Theorem batch_all_or_nothing (faults : nat -> bool) (d : db) (q m : Z)
  (admin : nat) (draws : list draw) :
  0 < m ->
  (1 <= q <= 1000 ->
   match batch faults d (Some q) (Some m) admin draws with
   | Some (d', sendResponse (BatchData codes total)) =>
       exists b news,
         vouchers d' = vouchers d ++ news /\
         List.length news = Z.to_nat q /\ total = Z.to_nat q /\
         codes = codes_of news /\ NoDup codes /\
         (forall c, In c codes -> ~ In c (codes_of (vouchers d))) /\
         Forall (minted m admin (Some b)) news /\
         voucher_batches d' =
           voucher_batches d ++ [VoucherBatch.mk b q m admin] /\
         call_logs d' = call_logs d /\
         (forall k, (k < 2 * Z.to_nat q + 3)%nat -> faults k = false)
   | Some (d', sendResponse _) => False
   | Some (d', sendError _ status) => d' = d /\ status = 500%nat
   | None => True
   end) /\
  (q < 1 \/ 1000 < q ->
   exists e, batch faults d (Some q) (Some m) admin draws =
             Some (d, sendError e 400)) /\
  (1 <= q <= 1000 ->
   (Z.to_nat q <= supply (codes_of (vouchers d))
                    (map generateVoucherCode draws))%nat ->
   exists d' resp,
     batch faults d (Some q) (Some m) admin draws = Some (d', resp) /\
     ((forall k, faults k = false) ->
      exists codes, resp = sendResponse (BatchData codes (Z.to_nat q)))).
Proof.
  intros Hm.
  assert (Range : 1 <= q <= 1000 ->
            batch faults d (Some q) (Some m) admin draws =
            match batch_tx faults q m admin (mkTx d 0 draws) with
            | returned (batchId, codes) s =>
                Some (insert_system_log
                        (SystemLog.mk "voucher_batch_created"
                           (SystemLog.voucher_batch batchId) (Some admin)
                           (SystemLog.batch_created q m)) (work s),
                      sendResponse (BatchData codes (List.length codes)))
            | thrown => Some (d, sendError "Internal server error" 500)
            | looping => None
            end).
  { intros Hq. unfold batch.
    replace (q <=? 0) with false by (symmetry; apply Z.leb_gt; lia).
    replace (m <=? 0) with false by (symmetry; apply Z.leb_gt; lia).
    replace (q >? 1000) with false
      by (symmetry; rewrite Z.gtb_ltb; apply Z.ltb_ge; lia).
    reflexivity. }
  split; [|split].
  - intros Hq. rewrite (Range Hq).
    destruct (batch_tx faults q m admin (mkTx d 0 draws))
      as [[b codes] s| |] eqn:E.
    + apply batch_tx_returned in E. simpl in E.
      destruct E as (news & Hv & Hlen & Hc & Hmi & Hnd & Hfr & Hcl & Hvb & _
                     & Hi & Cl).
      exists b, news. simpl. subst codes.
      split; [exact Hv|]. split; [exact Hlen|].
      split; [unfold codes_of; rewrite length_map; exact Hlen|].
      split; [reflexivity|]. split; [exact Hnd|]. split; [exact Hfr|].
      split; [exact Hmi|]. split; [exact Hvb|]. split; [exact Hcl|].
      intros k Hk. apply Cl. simpl. lia.
    + split; reflexivity.
    + exact I.
  - intros Hq. unfold batch. destruct Hq as [Hq|Hq].
    + replace (q <=? 0) with true by (symmetry; apply Z.leb_le; lia).
      simpl. eexists. reflexivity.
    + replace (q <=? 0) with false by (symmetry; apply Z.leb_gt; lia).
      replace (m <=? 0) with false by (symmetry; apply Z.leb_gt; lia).
      replace (q >? 1000) with true
        by (symmetry; rewrite Z.gtb_ltb; apply Z.ltb_lt; lia).
      simpl. eexists. reflexivity.
  - intros Hq Hs. rewrite (Range Hq).
    pose proof (batch_tx_progress faults q m admin (mkTx d 0 draws) Hs) as P.
    destruct (batch_tx faults q m admin (mkTx d 0 draws))
      as [[b codes] s| |] eqn:E; [| |contradiction].
    + eexists _, _. split; [reflexivity|]. intros _.
      apply batch_tx_returned in E.
      destruct E as (news & _ & Hl & Hc & _).
      exists codes. subst codes. unfold codes_of. rewrite length_map, Hl.
      reflexivity.
    + eexists _, _. split; [reflexivity|]. intros NF.
      destruct P as (k & Hk). rewrite NF in Hk. discriminate.
Qed.

Lemma batch_all_or_nothing_witness :
  0 < 60 /\ 1 <= 2 <= 1000 /\
  exists d' codes,
    batch Sample.no_faults empty_db (Some 2) (Some 60) 7
      [Sample.rndA; Sample.rndA; Sample.rndB] =
    Some (d', sendResponse (BatchData codes 2)) /\
    List.length (vouchers d') = 2%nat /\ NoDup codes.
Proof.
  split; [lia|]. split; [lia|].
  pose proof (batch_all_or_nothing Sample.no_faults empty_db 2 60 7
                [Sample.rndA; Sample.rndA; Sample.rndB] ltac:(lia)) as H.
  destruct H as [H _]. specialize (H ltac:(lia)).
  vm_compute in H. destruct H as (b & news & Hv & Hl & _ & Hc & Hnd & _).
  eexists _, _. split; [vm_compute; reflexivity|].
  split; [reflexivity|]. exact Hnd.
Defined.

(** ** C9: a call without a voucher row *)

(** C9, as stated, fails: the call of the sample refers to no voucher; ending
    it is answered with success and [remainingMinutes = 0]. *)
Lemma endCall_without_voucher_succeeds :
  select_call_voucher "call-9" (call_logs Sample.orphan) = [None] /\
  snd (endCall Sample.orphan "call-9" (Some 61) 200%nat) =
    sendResponse (EndData true 0) /\
  option_map CallLog.status
    (call_by_id "call-9" (fst (endCall Sample.orphan "call-9" (Some 61) 200%nat)))
    = Some completed.
Proof. vm_compute. repeat split. Qed.

Lemma debit_matches_no_row m vo vs :
  int4 m = true ->
  (forall v, In v vs -> opt_nat_eqb vo (Voucher.id v) = false) ->
  debit_overflows m vo vs = false.
Proof.
  intros Hm Hno. unfold debit_overflows. rewrite Hm. simpl.
  induction vs as [|a vs IH]; [reflexivity|]. simpl.
  rewrite (Hno a (or_introl eq_refl)). simpl.
  apply IH. intros v Hin. apply Hno. now right.
Qed.

(** C9, amended.  When the voucher reference of an existing call matches no
    voucher row, the debit updates no row and does not fail: for a duration
    within [INTEGER], [endCall] completes the call, leaves the voucher table
    as it is and answers with success and [remainingMinutes = 0].  A
    duration outside [INTEGER] is answered with status 500 and nothing
    changes. *)
Theorem endCall_unknown_voucher (d : db) (cid : string) (c : CallLog.row)
  (secs : Z) (now : nat) :
  cid <> "" -> call_by_id cid d = Some c ->
  (forall v, In v (vouchers d) ->
             opt_nat_eqb (CallLog.voucher_id c) (Voucher.id v) = false) ->
  (int4 secs = true ->
   exists d',
     endCall d cid (Some secs) now = (d', sendResponse (EndData true 0)) /\
     vouchers d' = vouchers d /\
     call_by_id cid d' = Some (complete_call secs now c)) /\
  (int4 secs = false ->
   endCall d cid (Some secs) now =
     (d, sendError "Internal server error" 500)).
Proof.
  intros Hcid Hc Hno. split; [|apply (endCall_refused d cid secs now c Hcid Hc)].
  intros Hs. unfold endCall. rewrite (not_nonempty _ Hcid).
  unfold select_call_voucher.
  destruct (filter_find (fun c0 => String.eqb (CallLog.call_id c0) cid)
              (call_logs d)) as [[_ Hn] | (x & t & Hfl & Hfd)];
    [unfold call_by_id in Hc; congruence|].
  rewrite Hfl. cbn [map].
  unfold call_by_id in Hc. rewrite Hfd in Hc. injection Hc as ->.
  assert (Hsame : update_voucher_debit (minutesUsed secs) (CallLog.voucher_id c)
                    now (vouchers d) = vouchers d).
  { unfold update_voucher_debit. rewrite <- (map_id (vouchers d)) at 2.
    apply map_ext_in. intros v Hin. rewrite (Hno v Hin). reflexivity. }
  unfold update_call_log. rewrite Hs.
  cbn [vouchers with_call_logs].
  rewrite (debit_matches_no_row _ _ _ (minutesUsed_int4 _ Hs) Hno), Hsame.
  unfold returning_remaining. rewrite (find_none_filter _ _ Hno).
  eexists. split; [reflexivity|]. split; [reflexivity|].
  unfold call_by_id. cbn [call_logs insert_system_log with_vouchers with_call_logs].
  rewrite find_map_stable.
  - rewrite Hfd. simpl. apply find_some in Hfd. destruct Hfd as [_ E].
    rewrite E. reflexivity.
  - intros a. destruct (String.eqb (CallLog.call_id a) cid) eqn:E;
      simpl; exact E.
Qed.

Lemma endCall_unknown_voucher_witness :
  exists d',
    endCall Sample.orphan "call-9" (Some 61) 200%nat =
      (d', sendResponse (EndData true 0)) /\
    vouchers d' = vouchers Sample.orphan.
Proof.
  destruct (endCall_unknown_voucher Sample.orphan "call-9"
              (CallLog.mk "call-9" None "5550100" "+1" "local" 0 active 100%nat
                 None None) 61 200%nat ltac:(discriminate) eq_refl)
    as (H & _).
  - intros v Hin. destruct Hin.
  - destruct (H eq_refl) as (d' & E & Hv & _).
    exists d'. split; [exact E | exact Hv].
Defined.

(** ** C10: the status of a call *)

(** C10.  In every state reachable from the empty database, the status of
    every call row is ['active'] or ['completed'], never ['failed'] or
    ['cancelled']. *)
Theorem call_status_active_or_completed (rs : list request) (c : CallLog.row) :
  In c (call_logs (run empty_db rs)) ->
  (CallLog.status c = active \/ CallLog.status c = completed) /\
  CallLog.status c <> failed /\ CallLog.status c <> cancelled.
Proof.
  intros Hin.
  assert (H : CallLog.status c = active \/ CallLog.status c = completed).
  { apply (reachable_calls_settled (run empty_db rs)); [|exact Hin].
    exists rs. reflexivity. }
  split; [exact H|]. destruct H as [-> | ->]; split; discriminate.
Qed.

Lemma call_status_active_or_completed_witness :
  CallLog.status
    (CallLog.mk "call-1" (Some 0%nat) "5550100" "+1" "local" 60 completed
       100%nat (Some 200%nat) None) <> failed.
Proof.
  apply (call_status_active_or_completed
           (Sample.setup ++ [EndCall "call-1" (Some 60) 200%nat])).
  vm_compute. left. reflexivity.
Defined.
(** * Further properties of the handlers *)

(** ** Flags of the vouchers *)

Lemma step_flags d r :
  Forall flags_consistent (vouchers d) ->
  Forall flags_consistent (vouchers (step d r)).
Proof.
  intros Inv. destruct (step_rows d r) as (f & news & E & Hf & Hm & _).
  rewrite E. apply Forall_app. split.
  - rewrite Forall_forall in *. intros v' Hin. apply in_map_iff in Hin.
    destruct Hin as (v & <- & Hin). destruct (Inv v Hin) as (Ha & Hu & Hr).
    destruct (Hf v) as [v|v dev|v cid secs now _]; unfold flags_consistent; simpl.
    + auto.
    + auto.
    + split; [exact Ha|].
      destruct (Voucher.remaining_minutes v - minutesUsed secs <=? 0) eqn:El.
      * split; [|discriminate]. split; [intros _|reflexivity].
        simpl. destruct (Voucher.used_at v); discriminate.
      * simpl. split; [exact Hu|]. intros Hun. apply Z.leb_gt in El. lia.
  - apply Forall_impl with (2 := Hm).
    intros v (m & admin & b & Hpos & _ & Hr & Hu & Ha & _ & Hat & _).
    unfold flags_consistent. rewrite Ha, Hu, Hat, Hr.
    split; [reflexivity|]. split; [|intros _; exact Hpos].
    split; [discriminate | intros H; elim H; reflexivity].
Qed.

Lemma step_used_is_empty d r :
  billable r ->
  Forall used_is_empty (vouchers d) ->
  Forall used_is_empty (vouchers (step d r)).
Proof.
  intros Hb Inv. destruct (step_rows d r) as (f & news & E & Hf & Hm & _).
  rewrite E. apply Forall_app. split.
  - rewrite Forall_forall in *. intros v' Hin. apply in_map_iff in Hin.
    destruct Hin as (v & <- & Hin). pose proof (Inv v Hin) as Hu.
    destruct (Hf v) as [v|v dev|v cid secs now ->]; unfold used_is_empty in *;
      simpl; auto.
    simpl in Hb. pose proof (minutesUsed_nonneg secs Hb).
    destruct (Voucher.remaining_minutes v - minutesUsed secs <=? 0) eqn:El.
    + apply Z.leb_le in El. intros _. lia.
    + apply Z.leb_gt in El. intros Hus. specialize (Hu Hus). lia.
  - apply Forall_impl with (2 := Hm).
    intros v (m & admin & b & _ & _ & _ & Hu & _). unfold used_is_empty.
    rewrite Hu. discriminate.
Qed.

(** ** Keys of reachable states *)

(** X1.  In every state reachable from the empty database, the ids of the
    vouchers are pairwise distinct and below the id counter, the codes of
    the vouchers are pairwise distinct and the call ids are pairwise
    distinct. *)
Theorem reachable_keys_unique (d : db) : reachable d -> keys_unique d.
Proof.
  intros (rs & ->). induction rs as [|r rs IH] using rev_ind.
  - repeat split; constructor.
  - rewrite run_snoc. apply step_keys_unique. exact IH.
Qed.

Lemma reachable_keys_unique_witness :
  NoDup (codes_of (vouchers Sample.ended_twice)) /\
  NoDup (map CallLog.call_id (call_logs Sample.ended_twice)).
Proof.
  assert (Hr : reachable Sample.ended_twice).
  { exists (Sample.setup ++ [EndCall "call-1" (Some 60) 200%nat;
                             EndCall "call-1" (Some 60) 300%nat]).
    reflexivity. }
  destruct (reachable_keys_unique _ Hr) as (_ & _ & Hc & Hl).
  split; [exact Hc | exact Hl].
Defined.

Lemma run_flags (rs : list request) (v : Voucher.row) :
  In v (vouchers (run empty_db rs)) ->
  flags_consistent v /\ (Forall billable rs -> used_is_empty v).
Proof.
  revert v. induction rs as [|r rs IH] using rev_ind; intros v Hin.
  - destruct Hin.
  - assert (A : Forall flags_consistent (vouchers (run empty_db rs)))
      by (rewrite Forall_forall; intros x Hx; apply IH; exact Hx).
    rewrite run_snoc in Hin. split.
    + pose proof (step_flags _ r A) as H. rewrite Forall_forall in H.
      apply H. exact Hin.
    + intros Hb. apply Forall_app in Hb. destruct Hb as (Hrs & Hr).
      inversion Hr; subst.
      assert (B : Forall used_is_empty (vouchers (run empty_db rs)))
        by (rewrite Forall_forall; intros x Hx; apply IH; assumption).
      pose proof (step_used_is_empty _ r H1 B) as H. rewrite Forall_forall in H.
      apply H. exact Hin.
Qed.

(** X2.  In every state reachable from the empty database every voucher is
    active, is marked used exactly when it carries a [used_at] time, and
    holds at least one minute unless it is marked used.  Along runs in which
    no call is ended with a negative duration, a voucher that is marked used
    holds no minute. *)
Theorem reachable_flags (rs : list request) (v : Voucher.row) :
  In v (vouchers (run empty_db rs)) ->
  flags_consistent v /\ (Forall billable rs -> used_is_empty v).
Proof.
  revert v. induction rs as [|r rs IH] using rev_ind; intros v Hin.
  - destruct Hin.
  - assert (A : Forall flags_consistent (vouchers (run empty_db rs)))
      by (rewrite Forall_forall; intros x Hx; apply IH; exact Hx).
    rewrite run_snoc in Hin. split.
    + pose proof (step_flags _ r A) as H. rewrite Forall_forall in H.
      apply H. exact Hin.
    + intros Hb. apply Forall_app in Hb. destruct Hb as (Hrs & Hr).
      inversion Hr; subst.
      assert (B : Forall used_is_empty (vouchers (run empty_db rs)))
        by (rewrite Forall_forall; intros x Hx; apply IH; assumption).
      pose proof (step_used_is_empty _ r H1 B) as H. rewrite Forall_forall in H.
      apply H. exact Hin.
Qed.

Lemma reachable_flags_witness :
  flags_consistent
    (Voucher.mk 0 "AAAAAAAAAAAA" 10 8 false true None None 7 None).
Proof.
  apply (reachable_flags
           (Sample.setup ++ [EndCall "call-1" (Some 60) 200%nat;
                             EndCall "call-1" (Some 60) 300%nat])).
  vm_compute. left. reflexivity.
Defined.

(** ** Rows are kept *)

Lemma voucher_rows_kept (d : db) (rs : list request) (vid : nat)
  (v : Voucher.row) :
  voucher_by_id vid d = Some v ->
  exists v', voucher_by_id vid (run d rs) = Some v' /\ same_voucher v v'.
Proof.
  intros Hv. induction rs as [|r rs IH] using rev_ind.
  - exists v. split; [exact Hv|]. unfold same_voucher. repeat split; auto.
  - destruct IH as (v1 & H1 & S1). rewrite run_snoc.
    destruct (voucher_by_id_step _ r vid v1 H1) as (v2 & H2 & S2).
    exists v2. split; [exact H2|].
    apply (same_voucher_trans _ _ _ S1). apply (row_step_same r). exact S2.
Qed.

(** X3.  No request deletes a voucher or changes its id, code, duration, active
    flag, creator or batch; a voucher that is marked used stays marked, and a
    [used_at] time that is set is never changed. *)
Theorem voucher_rows_persist (d : db) (rs : list request) (vid : nat)
  (v : Voucher.row) :
  voucher_by_id vid d = Some v ->
  exists v', voucher_by_id vid (run d rs) = Some v' /\ same_voucher v v'.
Proof.
  intros Hv. induction rs as [|r rs IH] using rev_ind.
  - exists v. split; [exact Hv|]. unfold same_voucher. repeat split; auto.
  - destruct IH as (v1 & H1 & S1). rewrite run_snoc.
    destruct (voucher_by_id_step _ r vid v1 H1) as (v2 & H2 & S2).
    exists v2. split; [exact H2|].
    apply (same_voucher_trans _ _ _ S1). apply (row_step_same r). exact S2.
Qed.

Lemma voucher_rows_persist_witness :
  exists v', voucher_by_id 0 Sample.ended_twice = Some v' /\
             Voucher.code v' = "AAAAAAAAAAAA".
Proof.
  destruct (voucher_rows_persist Sample.d0
              [EndCall "call-1" (Some 60) 200%nat;
               EndCall "call-1" (Some 60) 300%nat] 0
              (Voucher.mk 0 "AAAAAAAAAAAA" 10 10 false true None None 7 None)
              eq_refl) as (v' & Hv & _ & Hc & _).
  exists v'. split; [exact Hv | exact Hc].
Defined.

(** X4.  No request deletes a call or changes its call id, voucher, number,
    country code, type, start time or device; a completed call stays
    completed. *)
Theorem call_rows_persist (d : db) (rs : list request) (cid : string)
  (c : CallLog.row) :
  call_by_id cid d = Some c ->
  exists c', call_by_id cid (run d rs) = Some c' /\ same_call c c'.
Proof.
  intros Hc. induction rs as [|r rs IH] using rev_ind.
  - exists c. split; [exact Hc|]. unfold same_call. repeat split; auto.
  - destruct IH as (c1 & H1 & S1). rewrite run_snoc.
    destruct (call_by_id_step _ r cid c1 H1) as (c2 & H2 & S2).
    exists c2. split; [exact H2|].
    apply (same_call_trans _ _ _ S1). apply call_step_same. exact S2.
Qed.

Lemma call_rows_persist_witness :
  exists c', call_by_id "call-1" Sample.ended_twice = Some c' /\
             CallLog.voucher_id c' = Some 0%nat.
Proof.
  destruct (call_rows_persist Sample.d0
              [EndCall "call-1" (Some 60) 200%nat;
               EndCall "call-1" (Some 60) 300%nat] "call-1"
              (CallLog.mk "call-1" (Some 0%nat) "5550100" "+1" "local" 0
                 active 100%nat None None)
              eq_refl) as (c' & Hc & _ & Hv & _).
  exists c'. split; [exact Hc | exact Hv].
Defined.

(** ** Lookups by a unique key *)

Section UniqueKey.

Context {A K : Type}.
Variable key : A -> K.

Lemma unique_key (l : list A) (x y : A) :
  NoDup (map key l) -> In x l -> In y l -> key x = key y -> x = y.
Proof.
  induction l as [|a l IH]; simpl; intros Hnd Hx Hy E; [destruct Hx|].
  inversion Hnd as [|? ? Hnot Hnd']; subst.
  destruct Hx as [->|Hx], Hy as [->|Hy]; auto.
  - exfalso. apply Hnot. rewrite E. apply in_map. exact Hy.
  - exfalso. apply Hnot. rewrite <- E. apply in_map. exact Hx.
Qed.

End UniqueKey.

Lemma find_app_none {A : Type} (p : A -> bool) (l l' : list A) :
  find p l = None -> find p (l ++ l') = find p l'.
Proof.
  induction l as [|a l IH]; simpl; [reflexivity|].
  destruct (p a); [discriminate | exact IH].
Qed.

Lemma run_app d rs rs' : run d (rs ++ rs') = run (run d rs) rs'.
Proof. unfold run. apply fold_left_app. Qed.

Lemma reachable_run d rs : reachable d -> reachable (run d rs).
Proof. intros (rs0 & ->). exists (rs0 ++ rs). symmetry. apply run_app. Qed.

(** The answer of [validate] from the row that carries the code. *)
Lemma validate_found d code dev v :
  code <> "" -> dev <> "" ->
  find (fun x => String.eqb (Voucher.code x) (JS.toUpperCase code))
       (vouchers d) = Some v ->
  snd (validate d code dev) =
  if negb (Voucher.is_active v) || Voucher.is_used v
     || (Voucher.remaining_minutes v <=? 0)
  then sendResponse (ValidateData false 0 None)
  else match varchar 100 dev with
       | Some _ =>
           sendResponse (ValidateData true (Voucher.remaining_minutes v)
                           (Some (Voucher.id v)))
       | None => sendError "Internal server error" 500
       end.
Proof.
  intros Hc Hd Hf. unfold validate.
  rewrite (not_nonempty _ Hc), (not_nonempty _ Hd). simpl orb.
  pose proof (select_voucher_by_code_first (JS.toUpperCase code) (vouchers d))
    as H.
  destruct (select_voucher_by_code _ _) as [|row rows]; [congruence|].
  destruct H as (v0 & Hf0 & ->). rewrite Hf in Hf0. injection Hf0 as <-.
  simpl. destruct (negb _ || _ || _); [reflexivity|].
  simpl. unfold update_voucher_device.
  destruct (varchar 100 dev); reflexivity.
Qed.

Lemma validate_refused d code dev v :
  find (fun x => String.eqb (Voucher.code x) (JS.toUpperCase code))
       (vouchers d) = Some v ->
  negb (Voucher.is_active v) || Voucher.is_used v
  || (Voucher.remaining_minutes v <=? 0) = true ->
  code <> "" -> dev <> "" ->
  validate d code dev = (d, sendResponse (ValidateData false 0 None)).
Proof.
  intros Hf Hbad Hc Hd. unfold validate.
  rewrite (not_nonempty _ Hc), (not_nonempty _ Hd). simpl orb.
  pose proof (select_voucher_by_code_first (JS.toUpperCase code) (vouchers d))
    as H.
  destruct (select_voucher_by_code _ _) as [|row rows]; [reflexivity|].
  destruct H as (v0 & Hf0 & ->). rewrite Hf in Hf0. injection Hf0 as <-.
  simpl. rewrite Hbad. reflexivity.
Qed.

(** ** A used voucher *)

(** X5.  In a reachable state, a voucher that is marked used is refused from
    then on, whatever requests follow: a call cannot be started on it, and a
    validation of its code answers [valid = false] and changes nothing. *)
Theorem used_voucher_refused (d : db) (rs : list request) (vid : nat)
  (v : Voucher.row) :
  reachable d -> voucher_by_id vid d = Some v -> Voucher.is_used v = true ->
  (forall p c t cid now,
     p <> "" -> c <> "" -> t <> "" ->
     startCall (run d rs) (Some vid) p c t cid now =
     (run d rs, sendError "Invalid or expired voucher" 400)) /\
  (forall code dev,
     code <> "" -> dev <> "" -> JS.toUpperCase code = Voucher.code v ->
     validate (run d rs) code dev =
     (run d rs, sendResponse (ValidateData false 0 None))).
Proof.
  intros Hr Hv Hu.
  destruct (voucher_rows_kept d rs vid v Hv)
    as (v' & Hv' & Hid & Hcode & _ & _ & _ & _ & Hused & _).
  specialize (Hused Hu).
  destruct (reachable_keys_unique_holds _ (reachable_run d rs Hr))
    as (_ & Hnid & Hncd & _).
  pose proof (find_some _ _ Hv') as (Hin' & Hvid'). apply Nat.eqb_eq in Hvid'.
  split.
  - intros p c t cid now Hp Hc Ht. unfold startCall.
    rewrite (not_nonempty _ Hp), (not_nonempty _ Hc), (not_nonempty _ Ht).
    simpl orb. cbv iota. unfold select_voucher_for_call.
    rewrite find_none_filter; [reflexivity|].
    intros x Hx. destruct (Nat.eqb (Voucher.id x) vid) eqn:E; [|reflexivity].
    apply Nat.eqb_eq in E.
    assert (x = v') by (apply (unique_key Voucher.id (vouchers (run d rs)));
                        auto; congruence).
    subst x. rewrite Hused. simpl. apply andb_false_r.
  - intros code dev Hc Hd Hup.
    apply (validate_refused _ _ _ v'); auto.
    + destruct (find (fun x => String.eqb (Voucher.code x) (JS.toUpperCase code))
                  (vouchers (run d rs))) as [x|] eqn:F.
      * pose proof (find_some _ _ F) as (Hx & Ex). apply String.eqb_eq in Ex.
        f_equal. apply (unique_key Voucher.code (vouchers (run d rs))); auto.
        congruence.
      * exfalso. apply (find_none _ _ F) in Hin'. simpl in Hin'.
        apply String.eqb_neq in Hin'. congruence.
    + rewrite Hused. apply orb_true_iff. left. apply orb_true_r.
Qed.

Lemma used_voucher_refused_witness :
  startCall
    (run Sample.d0 [EndCall "call-1" (Some 900) 200%nat;
                    ValidateVoucher "aaaaaaaaaaaa" "device-B"])
    (Some 0%nat) "5550100" "+1" "local" "call-2" 400%nat =
  (run Sample.d0 [EndCall "call-1" (Some 900) 200%nat;
                  ValidateVoucher "aaaaaaaaaaaa" "device-B"],
   sendError "Invalid or expired voucher" 400).
Proof.
  assert (Hr : reachable (run Sample.d0 [EndCall "call-1" (Some 900) 200%nat])).
  { apply reachable_run. exists Sample.setup. reflexivity. }
  destruct (used_voucher_refused
              (run Sample.d0 [EndCall "call-1" (Some 900) 200%nat])
              [ValidateVoucher "aaaaaaaaaaaa" "device-B"] 0
              (Voucher.mk 0 "AAAAAAAAAAAA" 10 0 true true None (Some 200%nat) 7
                 None) Hr eq_refl eq_refl) as (H & _).
  apply H; discriminate.
Defined.

(** ** Generated codes *)

Lemma toUpperCase_append (a b : string) :
  JS.toUpperCase (String.append a b) =
  String.append (JS.toUpperCase a) (JS.toUpperCase b).
Proof. induction a as [|c a IH]; simpl; [reflexivity | now rewrite IH]. Qed.

Lemma charAt_chars (i : nat) :
  (i < 36)%nat ->
  exists c, JS.charAt chars i = String c EmptyString /\
            In c (list_ascii_of_string chars) /\ JS.toUpperChar c = c.
Proof.
  intros Hi.
  do 36 (destruct i as [|i];
         [eexists; split; [reflexivity|]; split; [simpl; tauto | reflexivity]|]).
  lia.
Qed.

Lemma charAt_chars_out (i : nat) : (36 <= i)%nat -> JS.charAt chars i = "".
Proof.
  intros Hi. unfold JS.charAt.
  do 36 (destruct i as [|i]; [lia|]). reflexivity.
Qed.

Lemma charAt_chars_upper (i : nat) :
  JS.toUpperCase (JS.charAt chars i) = JS.charAt chars i.
Proof.
  destruct (Nat.lt_ge_cases i 36) as [Hi|Hi].
  - destruct (charAt_chars i Hi) as (c & -> & _ & Hc). simpl. now rewrite Hc.
  - rewrite (charAt_chars_out i Hi). reflexivity.
Qed.

Lemma generate_loop_upper rnd n : forall i result,
  JS.toUpperCase result = result ->
  JS.toUpperCase (generate_loop rnd i n result) = generate_loop rnd i n result.
Proof.
  induction n as [|n IH]; intros i result H; simpl; [exact H|].
  apply IH. rewrite toUpperCase_append, H, charAt_chars_upper. reflexivity.
Qed.

(** A generated code is its own upper-case form, so the lookup of
    [validate], which upper-cases its argument, finds it. *)
Lemma generateVoucherCode_upper rnd :
  JS.toUpperCase (generateVoucherCode rnd) = generateVoucherCode rnd.
Proof. apply generate_loop_upper. reflexivity. Qed.

Lemma list_ascii_append (a b : string) :
  list_ascii_of_string (String.append a b) =
  list_ascii_of_string a ++ list_ascii_of_string b.
Proof. induction a as [|c a IH]; simpl; [reflexivity | now rewrite IH]. Qed.

Lemma length_append (a b : string) :
  String.length (String.append a b) = (String.length a + String.length b)%nat.
Proof. induction a as [|c a IH]; simpl; [reflexivity | now rewrite IH]. Qed.

Lemma generate_loop_alphabet rnd :
  (forall i, (rnd i < 36)%nat) ->
  forall n i result,
    Forall (fun c => In c (list_ascii_of_string chars))
           (list_ascii_of_string result) ->
    String.length (generate_loop rnd i n result) = (String.length result + n)%nat /\
    Forall (fun c => In c (list_ascii_of_string chars))
           (list_ascii_of_string (generate_loop rnd i n result)).
Proof.
  intros Hr. induction n as [|n IH]; intros i result H; simpl.
  - split; [lia | exact H].
  - destruct (charAt_chars (rnd i) (Hr i)) as (c & E & Hin & _).
    destruct (IH (S i) (String.append result (JS.charAt chars (rnd i)))) as (L & F).
    + rewrite list_ascii_append. apply Forall_app. split; [exact H|].
      rewrite E. simpl. constructor; [exact Hin | constructor].
    + split; [|exact F]. rewrite L, length_append, E. simpl. lia.
Qed.

(** X7.  When every draw is an index into the alphabet, as
    [Math.floor(Math.random() * 36)] is, the generated code has twelve
    characters, each of them one of [A-Z0-9], and it is its own upper-case
    form. *)
Theorem generateVoucherCode_shape (rnd : draw) :
  (forall i, (rnd i < 36)%nat) ->
  String.length (generateVoucherCode rnd) = 12%nat /\
  Forall (fun c => In c (list_ascii_of_string chars))
         (list_ascii_of_string (generateVoucherCode rnd)) /\
  JS.toUpperCase (generateVoucherCode rnd) = generateVoucherCode rnd.
Proof.
  intros Hr. destruct (generate_loop_alphabet rnd Hr 12 0 "") as (L & F);
    [constructor|].
  split; [exact L|]. split; [exact F | apply generateVoucherCode_upper].
Qed.

Lemma generateVoucherCode_shape_witness :
  String.length (generateVoucherCode (fun i => Nat.modulo (7 * i) 36)) = 12%nat.
Proof.
  apply (generateVoucherCode_shape (fun i => Nat.modulo (7 * i) 36)).
  intros i. apply Nat.mod_upper_bound. discriminate.
Defined.

(** ** Generating a voucher *)

Lemma uniqueCode_none vs draws :
  uniqueCode vs draws = None ->
  Forall (fun rnd => In (generateVoucherCode rnd) (codes_of vs)) draws.
Proof.
  induction draws as [|rnd rest IH]; simpl; [constructor|].
  destruct (is_empty (select_id_by_code (generateVoucherCode rnd) vs)) eqn:E;
    [discriminate|].
  intros H. constructor; [|apply IH; exact H].
  destruct (in_dec string_dec (generateVoucherCode rnd) (codes_of vs)) as [Hin|Hn];
    [exact Hin|].
  apply code_fresh in Hn. congruence.
Qed.

Lemma generate_like_error d m admin draws :
  m <= 0 ->
  generate d (Some m) admin draws =
    Some (d, sendError "Valid durationMinutes is required" 400).
Proof.
  intros Hm. unfold generate. apply Z.leb_le in Hm. rewrite Hm. reflexivity.
Qed.

Lemma generate_like_success d m admin draws :
  0 < m <= 2147483647 ->
  match generate d (Some m) admin draws with
  | None =>
      Forall (fun rnd => In (generateVoucherCode rnd) (codes_of (vouchers d)))
             draws
  | Some (d', resp) =>
      exists code,
        resp = sendResponse (GenerateData code m) /\
        (exists rnd, In rnd draws /\ code = generateVoucherCode rnd) /\
        ~ In code (codes_of (vouchers d)) /\
        d' = mkDb (vouchers d ++
                   [Voucher.mk (next_id d) code m m false true None None
                      admin None])
                  (call_logs d) (voucher_batches d)
                  (system_logs d ++
                   [SystemLog.mk "voucher_created"
                      (SystemLog.voucher (next_id d)) (Some admin)
                      (SystemLog.created m code)])
                  (S (next_id d))
  end.
Proof.
  intros Hm. unfold generate.
  replace (m <=? 0) with false by (symmetry; apply Z.leb_gt; lia).
  destruct (uniqueCode (vouchers d) draws) as [code|] eqn:U.
  - apply uniqueCode_drawn in U. destruct U as (Hfr & Hdr).
    replace (int4 m) with true by (symmetry; apply int4_bounds; lia).
    unfold insert_voucher.
    rewrite (proj2 (code_fresh code (vouchers d)) Hfr).
    exists code. split; [reflexivity|]. split; [exact Hdr|].
    split; [exact Hfr | reflexivity].
  - apply uniqueCode_none. exact U.
Qed.

(** A duration above [INTEGER] is refused by the insert, once the loop has
    drawn a free code. *)
Lemma generate_like_refused d m admin draws :
  2147483647 < m ->
  match generate d (Some m) admin draws with
  | None =>
      Forall (fun rnd => In (generateVoucherCode rnd) (codes_of (vouchers d)))
             draws
  | Some (d', resp) =>
      d' = d /\ resp = sendError "Internal server error" 500
  end.
Proof.
  intros Hm. unfold generate.
  replace (m <=? 0) with false by (symmetry; apply Z.leb_gt; lia).
  destruct (uniqueCode (vouchers d) draws) as [code|] eqn:U.
  - replace (int4 m) with false; [split; reflexivity|].
    symmetry. unfold int4.
    replace (m <=? 2147483647) with false by (symmetry; apply Z.leb_gt; lia).
    apply andb_false_r.
  - apply uniqueCode_none. exact U.
Qed.

(** X8.  The single-voucher endpoint refuses a missing or non-positive
    duration with status 400 and no change.  It stays unanswered only when
    every code drawn is taken.  When it answers a duration between 1 and
    2147483647 it answers without error and has added exactly one voucher,
    unused, active, unbound, holding the full duration, under a drawn code
    that no voucher had, and one log entry; when it answers a longer
    duration, which the [INTEGER] column refuses, it answers with status 500
    and has changed nothing. *)
Theorem generate_outcomes (d : db) (m : Z) (admin : nat) (draws : list draw) :
  generate d None admin draws =
    Some (d, sendError "Valid durationMinutes is required" 400) /\
  (m <= 0 ->
   generate d (Some m) admin draws =
     Some (d, sendError "Valid durationMinutes is required" 400)) /\
  (0 < m ->
   match generate d (Some m) admin draws with
   | None =>
       Forall (fun rnd => In (generateVoucherCode rnd) (codes_of (vouchers d)))
              draws
   | Some (d', resp) =>
       (m <= 2147483647 ->
        exists code,
          resp = sendResponse (GenerateData code m) /\
          (exists rnd, In rnd draws /\ code = generateVoucherCode rnd) /\
          ~ In code (codes_of (vouchers d)) /\
          d' = mkDb (vouchers d ++
                     [Voucher.mk (next_id d) code m m false true None None
                        admin None])
                    (call_logs d) (voucher_batches d)
                    (system_logs d ++
                     [SystemLog.mk "voucher_created"
                        (SystemLog.voucher (next_id d)) (Some admin)
                        (SystemLog.created m code)])
                    (S (next_id d))) /\
       (2147483647 < m ->
        d' = d /\ resp = sendError "Internal server error" 500)
   end).
Proof.
  split; [reflexivity|]. split.
  - apply generate_like_error.
  - intros Hm. destruct (Z_le_gt_dec m 2147483647) as [Hle|Hgt].
    + pose proof (generate_like_success d m admin draws (conj Hm Hle)) as H.
      destruct (generate d (Some m) admin draws) as [[d' resp]|];
        [|exact H].
      split; [intros _; exact H | intros Hbig; lia].
    + pose proof (generate_like_refused d m admin draws ltac:(lia)) as H.
      destruct (generate d (Some m) admin draws) as [[d' resp]|];
        [|exact H].
      split; [intros Hle; lia | intros _; exact H].
Qed.

Lemma generate_outcomes_witness :
  0 < 30 /\
  exists d' code,
    generate Sample.issued_voucher (Some 30) 7 [Sample.rndA; Sample.rndB] =
      Some (d', sendResponse (GenerateData code 30)) /\
    ~ In code (codes_of (vouchers Sample.issued_voucher)).
Proof.
  split; [lia|].
  destruct (generate_outcomes Sample.issued_voucher 30 7 [Sample.rndA; Sample.rndB])
    as (_ & _ & H).
  specialize (H ltac:(lia)).
  destruct (generate Sample.issued_voucher (Some 30) 7 [Sample.rndA; Sample.rndB])
    as [[d' resp]|] eqn:G; [|vm_compute in G; discriminate].
  destruct H as (H & _). destruct (H ltac:(lia)) as (code & -> & _ & Hfr & _).
  exists d', code. split; [reflexivity | exact Hfr].
Defined.

Lemma find_code_fresh (c : string) (old news : list Voucher.row) :
  ~ In c (codes_of old) ->
  find (fun x => String.eqb (Voucher.code x) c) (old ++ news) =
  find (fun x => String.eqb (Voucher.code x) c) news.
Proof.
  intros Hfr. apply find_app_none.
  destruct (find _ old) as [x|] eqn:F; [|reflexivity].
  exfalso. apply find_some in F. destruct F as (Hin & E).
  apply String.eqb_eq in E. apply Hfr. rewrite <- E.
  unfold codes_of. apply in_map. exact Hin.
Qed.

(** X9.  A voucher that has just been generated validates: a validation of its
    code, in upper or lower case, from a device id in plain text of at most
    100 characters, answers [valid = true] with the duration asked for and
    the id of the new voucher. *)
Theorem generate_then_validate (d d' : db) (m : Z) (admin : nat)
  (draws : list draw) (code input dev : string) :
  generate d (Some m) admin draws =
    Some (d', sendResponse (GenerateData code m)) ->
  input <> "" -> plain input = true -> JS.toUpperCase input = code ->
  dev <> "" -> plain dev = true -> (String.length dev <= 100)%nat ->
  snd (validate d' input dev) =
    sendResponse (ValidateData true m (Some (next_id d))) /\
  (code <> "" ->
   snd (validate d' code dev) =
     sendResponse (ValidateData true m (Some (next_id d)))).
Proof.
  intros G Hi _ Hup Hd _ Hlen.
  destruct (Z_le_gt_dec m 0) as [Hle|Hgt].
  { rewrite (generate_like_error d m admin draws Hle) in G. discriminate. }
  destruct (Z_le_gt_dec m 2147483647) as [Hfit|Hbig].
  2: { pose proof (generate_like_refused d m admin draws ltac:(lia)) as H.
       rewrite G in H. destruct H as (_ & H). discriminate. }
  assert (Hm : 0 < m <= 2147483647) by lia.
  pose proof (generate_like_success d m admin draws Hm) as H.
  rewrite G in H. destruct H as (c0 & Hc0 & (rnd & _ & Hrnd) & Hfr & ->).
  injection Hc0 as <-.
  set (v0 := Voucher.mk (next_id d) code m m false true None None admin None).
  set (d1 := mkDb (vouchers d ++ [v0]) _ _ _ _).
  assert (V : forall s, s <> "" -> JS.toUpperCase s = code ->
              snd (validate d1 s dev) =
              sendResponse (ValidateData true m (Some (next_id d)))).
  { intros s Hs Hsu.
    assert (F : find (fun x => String.eqb (Voucher.code x) (JS.toUpperCase s))
                  (vouchers d1) = Some v0).
    { rewrite Hsu. unfold d1. cbn [vouchers].
      rewrite (find_code_fresh _ _ _ Hfr). simpl.
      rewrite String.eqb_refl. reflexivity. }
    rewrite (validate_found d1 s dev v0 Hs Hd F), (varchar_fits _ _ Hlen).
    simpl.
    replace (m <=? 0) with false by (symmetry; apply Z.leb_gt; lia).
    reflexivity. }
  split; [apply V; assumption|].
  intros Hc. apply V; [exact Hc|]. rewrite Hrnd. apply generateVoucherCode_upper.
Qed.

Lemma generate_then_validate_witness :
  snd (validate
         (step Sample.issued_voucher
            (GenerateVoucher (Some 30) 7 [Sample.rndA; Sample.rndB]))
         "bbbbbbbbbbbb" "device-A") =
  sendResponse (ValidateData true 30 (Some 1%nat)).
Proof.
  refine (proj1 (generate_then_validate Sample.issued_voucher _ 30 7
                   [Sample.rndA; Sample.rndB] "BBBBBBBBBBBB" "bbbbbbbbbbbb"
                   "device-A" _ _ _ _ _ _ _)).
  - reflexivity.
  - discriminate.
  - reflexivity.
  - reflexivity.
  - discriminate.
  - reflexivity.
  - simpl. lia.
Defined.

(** ** A batch that has been committed *)

Lemma batch_success faults d qo mo admin draws d' codes n :
  batch faults d qo mo admin draws =
    Some (d', sendResponse (BatchData codes n)) ->
  exists q m b s,
    qo = Some q /\ mo = Some m /\ 0 < q <= 1000 /\ 0 < m /\
    batch_tx faults q m admin (mkTx d 0 draws) = returned (b, codes) s /\
    vouchers d' = vouchers (work s).
Proof.
  unfold batch. destruct qo as [q|]; [|discriminate].
  destruct mo as [m|]; [|discriminate].
  destruct (q <=? 0) eqn:Eq; [discriminate|].
  destruct (m <=? 0) eqn:Em; [discriminate|]. simpl orb. cbv iota.
  destruct (q >? 1000) eqn:Eg; [discriminate|].
  apply Z.leb_gt in Eq, Em. rewrite Z.gtb_ltb in Eg. apply Z.ltb_ge in Eg.
  destruct (batch_tx faults q m admin (mkTx d 0 draws)) as [[b cs] s| |] eqn:E;
    [|discriminate|discriminate].
  intros H. injection H as <- <- _.
  exists q, m, b, s. repeat split; auto; lia.
Qed.

Lemma find_code_in (c : string) (news : list Voucher.row) :
  In c (codes_of news) ->
  exists v, find (fun x => String.eqb (Voucher.code x) c) news = Some v /\
            In v news.
Proof.
  intros Hin. destruct (find _ news) as [v|] eqn:F.
  - exists v. split; [reflexivity|]. apply find_some in F. apply F.
  - exfalso. unfold codes_of in Hin. apply in_map_iff in Hin.
    destruct Hin as (x & Hx & Hin). apply (find_none _ _ F) in Hin.
    simpl in Hin. apply String.eqb_neq in Hin. congruence.
Qed.

(** X10.  Every code returned by a committed batch validates: from a device
    id in plain text of at most 100 characters it answers [valid = true]
    with the full duration of the batch and the id of a voucher that the
    batch has added. *)
Theorem batch_then_validate (faults : nat -> bool) (d d' : db)
  (qo mo : option Z) (admin : nat) (draws : list draw) (codes : list string)
  (n : nat) (code dev : string) :
  batch faults d qo mo admin draws =
    Some (d', sendResponse (BatchData codes n)) ->
  In code codes -> code <> "" ->
  dev <> "" -> plain dev = true -> (String.length dev <= 100)%nat ->
  exists m vid,
    mo = Some m /\
    snd (validate d' code dev) = sendResponse (ValidateData true m (Some vid)) /\
    (next_id d < vid < next_id d')%nat.
Proof.
  intros B Hin Hc Hd _ Hlen.
  assert (Hnext : next_id d' = (S (next_id d) + Z.to_nat
                                  match qo with Some q => q | None => 0 end)%nat
                  /\ True).
  { split; [|exact I]. revert B. unfold batch.
    destruct qo as [q|]; [|discriminate]. destruct mo as [m|]; [|discriminate].
    destruct ((q <=? 0) || (m <=? 0)); [discriminate|].
    destruct (q >? 1000); [discriminate|].
    destruct (batch_tx faults q m admin (mkTx d 0 draws)) as [[b cs] s| |] eqn:E;
      [|discriminate|discriminate].
    intros H. injection H as <- _ _. simpl.
    apply batch_tx_ids in E. destruct E as (_ & _ & _ & Hn & _). exact Hn. }
  destruct Hnext as (Hnext & _).
  destruct (batch_success _ _ _ _ _ _ _ _ _ B)
    as (q & m & b & s & -> & -> & Hq & Hm & E & Hv).
  pose proof (batch_tx_ids _ _ _ _ _ _ _ _ E) as (news' & Hv' & Hid & _ & Hdr).
  apply batch_tx_returned in E.
  destruct E as (news & Hvn & _ & Hcs & Hmi & _ & Hfr & _).
  simpl in Hvn, Hv', Hid, Hfr.
  assert (news' = news) by (rewrite Hvn in Hv'; apply app_inv_head in Hv';
                            symmetry; exact Hv').
  subst news' codes.
  destruct (find_code_in code news Hin) as (v & Hf & Hvin).
  assert (Hup : JS.toUpperCase code = code).
  { rewrite Forall_forall in Hdr. destruct (Hdr code Hin) as (rnd & ->).
    apply generateVoucherCode_upper. }
  assert (F : find (fun x => String.eqb (Voucher.code x) (JS.toUpperCase code))
                (vouchers d') = Some v).
  { rewrite Hup, Hv, Hvn, (find_code_fresh _ _ _ (Hfr code Hin)). exact Hf. }
  rewrite Forall_forall in Hmi.
  destruct (Hmi v Hvin) as (_ & Hr & Hu & Ha & _).
  exists m, (Voucher.id v). split; [reflexivity|]. split.
  - rewrite (validate_found d' code dev v Hc Hd F), (varchar_fits _ _ Hlen),
      Ha, Hu, Hr.
    simpl.
    replace (m <=? 0) with false by (symmetry; apply Z.leb_gt; lia).
    reflexivity.
  - assert (Hb : In (Voucher.id v) (seq (S (next_id d)) (Z.to_nat q)))
      by (rewrite <- Hid; apply in_map; exact Hvin).
    apply seq_bounds in Hb. simpl in Hnext. lia.
Qed.

Lemma batch_then_validate_witness :
  exists vid,
    snd (validate
           (step empty_db
              (GenerateVouchers (Some 2) (Some 60) 7
                 [Sample.rndA; Sample.rndA; Sample.rndB] Sample.no_faults))
           "BBBBBBBBBBBB" "device-A") =
    sendResponse (ValidateData true 60 (Some vid)).
Proof.
  destruct (batch_then_validate Sample.no_faults empty_db
              (step empty_db
                 (GenerateVouchers (Some 2) (Some 60) 7
                    [Sample.rndA; Sample.rndA; Sample.rndB] Sample.no_faults))
              (Some 2) (Some 60) 7 [Sample.rndA; Sample.rndA; Sample.rndB]
              ["AAAAAAAAAAAA"; "BBBBBBBBBBBB"] 2 "BBBBBBBBBBBB" "device-A")
    as (m & vid & Hm & Hv & _).
  - reflexivity.
  - simpl. auto.
  - discriminate.
  - discriminate.
  - reflexivity.
  - simpl. lia.
  - injection Hm as <-. exists vid. exact Hv.
Defined.

(** ** What the handlers leave alone *)



(** X12.  A validation changes no table but the vouchers, adds and removes no
    voucher, and of a voucher changes at most the device, which becomes the
    device id of the request as the column stores it: the columns [id],
    [code], [duration_minutes], [remaining_minutes], [is_used],
    [is_active], [used_at], [created_by] and [batch_id] are as before.
    When it does not answer [valid = true] it has run no update. *)
Theorem validate_only_binds (d : db) (code dev : string) :
  let d' := fst (validate d code dev) in
  call_logs d' = call_logs d /\ voucher_batches d' = voucher_batches d /\
  system_logs d' = system_logs d /\ next_id d' = next_id d /\
  List.length (vouchers d') = List.length (vouchers d) /\
  (forall i v, nth_error (vouchers d) i = Some v ->
     exists v',
       nth_error (vouchers d') i = Some v' /\ same_but_device v v' /\
       (Voucher.device_id v' = Voucher.device_id v \/
        Voucher.device_id v' = varchar 100 dev)) /\
  ((forall mins vid,
      snd (validate d code dev) <>
      sendResponse (ValidateData true mins (Some vid))) -> d' = d).
Proof.
  unfold validate.
  assert (Refl : forall v, same_but_device v v)
    by (intros v; repeat split).
  assert (Same : call_logs d = call_logs d /\
                 voucher_batches d = voucher_batches d /\
                 system_logs d = system_logs d /\ next_id d = next_id d /\
                 List.length (vouchers d) = List.length (vouchers d) /\
                 (forall i v, nth_error (vouchers d) i = Some v ->
                    exists v',
                      nth_error (vouchers d) i = Some v' /\
                      same_but_device v v' /\
                      (Voucher.device_id v' = Voucher.device_id v \/
                       Voucher.device_id v' = varchar 100 dev)) /\
                 ((forall mins vid,
                     snd (d, sendError "Internal server error" 500) <>
                     sendResponse (ValidateData true mins (Some vid))) ->
                  d = d)).
  { repeat split; eauto. }
  destruct (JS.not code || JS.not dev);
    [simpl; repeat split; eauto|].
  destruct (select_voucher_by_code _ _) as [|row rows];
    [simpl; repeat split; eauto|].
  destruct (negb _ || _ || _); [simpl; repeat split; eauto|].
  simpl. unfold update_voucher_device.
  destruct (varchar 100 dev) as [stored|]; [|exact Same].
  simpl. split; [reflexivity|]. split; [reflexivity|]. split; [reflexivity|].
  split; [reflexivity|].
  split; [apply length_map|].
  split.
  - intros i v Hi. rewrite nth_error_map, Hi. simpl.
    destruct (Nat.eqb (Voucher.id v) (vr_id row)).
    + eexists. split; [reflexivity|]. split; [repeat split|]. right. reflexivity.
    + eexists. split; [reflexivity|]. split; [apply Refl|]. left. reflexivity.
  - intros H. exfalso. exact (H _ _ eq_refl).
Qed.

(** ** Starting and ending a call *)

Lemma find_call_fresh (cid : string) (old news : list CallLog.row) :
  call_id_exists cid old = false ->
  find (fun c => String.eqb (CallLog.call_id c) cid) (old ++ news) =
  find (fun c => String.eqb (CallLog.call_id c) cid) news.
Proof.
  intros Hfr. apply find_app_none.
  destruct (find _ old) as [x|] eqn:F; [|reflexivity].
  exfalso. apply find_some in F. destruct F as (Hin & E).
  unfold call_id_exists in Hfr.
  assert (T : existsb (fun c => String.eqb (CallLog.call_id c) cid) old = true)
    by (apply existsb_exists; exists x; auto).
  congruence.
Qed.

(** What a successful [startCall] has done. *)
Lemma startCall_success d vo p c t cid now d' r :
  startCall d vo p c t cid now = (d', sendResponse (StartData cid r)) ->
  exists vid v,
    vo = Some vid /\ In v (vouchers d) /\ Voucher.id v = vid /\
    Voucher.remaining_minutes v = r /\ 0 < r /\
    Voucher.is_active v = true /\ Voucher.is_used v = false /\
    p <> "" /\ c <> "" /\ t <> "" /\
    call_id_exists cid (call_logs d) = false /\
    vouchers d' = vouchers d /\ next_id d' = next_id d /\
    voucher_batches d' = voucher_batches d /\
    (exists p' c' t',
       varchar 20 p = Some p' /\ varchar 5 c = Some c' /\
       varchar 20 t = Some t' /\
       call_logs d' =
         call_logs d ++
         [CallLog.mk cid (Some vid) p' c' t' 0 active now None
            (Voucher.device_id v)]) /\
    system_logs d' =
      system_logs d ++
      [SystemLog.mk "call_started" (SystemLog.call cid) None
         (SystemLog.started p t)].
Proof.
  unfold startCall. destruct vo as [vid|]; [|discriminate].
  destruct (JS.not p) eqn:Ep; [discriminate|].
  destruct (JS.not c) eqn:Ec; [discriminate|].
  destruct (JS.not t) eqn:Et; [discriminate|]. simpl orb. cbv iota.
  destruct (select_voucher_for_call vid (vouchers d)) as [|[rem dev] rows] eqn:S;
    [discriminate|].
  destruct (rem <=? 0) eqn:Er; [discriminate|].
  unfold insert_call_log.
  destruct (varchar 20 p) as [p'|]; [|discriminate].
  destruct (varchar 5 c) as [c'|]; [|discriminate].
  destruct (varchar 20 t) as [t'|]; [|discriminate].
  destruct (call_id_exists cid (call_logs d)) eqn:Ex; [discriminate|].
  intros H. injection H as <- <-.
  apply select_voucher_for_call_found in S.
  destruct S as (v & Hin & Hid & Hr & Hdev & Ha & Hu).
  apply Z.leb_gt in Er.
  exists vid, v. subst dev.
  split; [reflexivity|]. split; [exact Hin|]. split; [exact Hid|].
  split; [exact Hr|]. split; [lia|]. split; [exact Ha|]. split; [exact Hu|].
  split; [intros ->; discriminate|]. split; [intros ->; discriminate|].
  split; [intros ->; discriminate|].
  split; [reflexivity|]. split; [reflexivity|]. split; [reflexivity|].
  split; [reflexivity|]. split; [|reflexivity].
  exists p', c', t'. repeat split.
Qed.

Lemma validate_only_binds_witness :
  call_logs (fst (validate Sample.d0 "aaaaaaaaaaaa" "device-A")) =
  call_logs Sample.d0.
Proof.
  exact (proj1 (validate_only_binds Sample.d0 "aaaaaaaaaaaa" "device-A")).
Defined.

Lemma reachable_voucher_by_id d vid v :
  reachable d -> In v (vouchers d) -> Voucher.id v = vid ->
  voucher_by_id vid d = Some v.
Proof.
  intros Hr Hin Hid.
  destruct (voucher_by_id_of_In vid d v Hin Hid) as (v' & Hv').
  rewrite Hv'. f_equal.
  destruct (reachable_keys_unique_holds d Hr) as (_ & Hnd & _).
  pose proof (find_some _ _ Hv') as (Hin' & E). apply Nat.eqb_eq in E.
  apply (unique_key Voucher.id (vouchers d)); auto. congruence.
Qed.

(** X14.  In a reachable state, a call that has been started can be ended: the
    request with its call id and a duration within [INTEGER], whose debit
    stays within [INTEGER], succeeds, completes the call with the duration
    given and leaves on the voucher the minutes reported at the start less
    the minutes billed, or none. *)
Theorem startCall_then_endCall (d d1 : db) (vo : option nat)
  (p c t cid : string) (now now' : nat) (r secs : Z) :
  reachable d -> cid <> "" ->
  startCall d vo p c t cid now = (d1, sendResponse (StartData cid r)) ->
  int4 secs = true -> r - minutesUsed secs <= 2147483647 ->
  exists vid d2,
    vo = Some vid /\
    option_map CallLog.status (call_by_id cid d1) = Some active /\
    endCall d1 cid (Some secs) now' =
      (d2, sendResponse (EndData true (Z.max 0 (r - minutesUsed secs)))) /\
    remaining_of vid d2 = Some (Z.max 0 (r - minutesUsed secs)) /\
    option_map CallLog.status (call_by_id cid d2) = Some completed /\
    option_map CallLog.duration_seconds (call_by_id cid d2) = Some secs.
Proof.
  intros Hr Hcid S Hs Hfit.
  destruct (startCall_success _ _ _ _ _ _ _ _ _ S)
    as (vid & v & -> & Hin & Hid & Hrem & _ & _ & _ & _ & _ & _ & Hfr & Hv & _
        & _ & (p' & c' & t' & _ & _ & _ & Hcl) & _).
  pose proof (reachable_voucher_by_id d vid v Hr Hin Hid) as Hf.
  assert (Hf1 : voucher_by_id vid d1 = Some v)
    by (unfold voucher_by_id in *; rewrite Hv; exact Hf).
  set (c0 := CallLog.mk cid (Some vid) p' c' t' 0 active now None
               (Voucher.device_id v)) in *.
  assert (Hc1 : call_by_id cid d1 = Some c0).
  { unfold call_by_id. rewrite Hcl, (find_call_fresh _ _ _ Hfr). simpl.
    rewrite String.eqb_refl. reflexivity. }
  assert (Hov : debit_overflows (minutesUsed secs) (Some vid) (vouchers d1)
                = false).
  { rewrite Hv. apply (reachable_debit_fits d vid v secs Hr Hf Hs).
    rewrite Hrem. exact Hfit. }
  destruct (endCall_settles d1 cid secs now' c0 vid v Hcid Hc1 eq_refl Hf1 Hs
              Hov)
    as (d2 & E & Hf2 & Hc2).
  exists vid, d2. split; [reflexivity|].
  split; [rewrite Hc1; reflexivity|].
  split; [rewrite <- Hrem; exact E|].
  split; [unfold remaining_of; rewrite Hf2, <- Hrem; reflexivity|].
  rewrite Hc2. split; reflexivity.
Qed.

Lemma startCall_then_endCall_witness :
  exists d2,
    endCall Sample.d0 "call-1" (Some 125) 300%nat =
    (d2, sendResponse (EndData true 7)).
Proof.
  assert (Hr : reachable Sample.issued_voucher)
    by (exists [GenerateVoucher (Some 10) 7%nat [Sample.rndA]]; reflexivity).
  destruct (startCall_then_endCall Sample.issued_voucher Sample.d0 (Some 0%nat)
              "5550100" "+1" "local" "call-1" 100%nat 300%nat 10 125 Hr
              ltac:(discriminate) eq_refl eq_refl
              ltac:(vm_compute; discriminate))
    as (vid & d2 & _ & _ & E & _).
  exists d2. exact E.
Defined.

(** X15.  Starting a call reserves nothing: it leaves every voucher as it is, so
    a second call with another call id, whose number, country code and type
    are plain text that fits the columns (20, 5 and 20 characters), starts
    on the same voucher and is told the same remaining minutes. *)
Theorem startCall_reserves_nothing (d d1 : db) (vo : option nat)
  (p c t cid p2 c2 t2 cid2 : string) (now now2 : nat) (r : Z) :
  startCall d vo p c t cid now = (d1, sendResponse (StartData cid r)) ->
  cid2 <> cid -> call_id_exists cid2 (call_logs d) = false ->
  p2 <> "" -> c2 <> "" -> t2 <> "" ->
  plain p2 = true -> plain c2 = true -> plain t2 = true ->
  (String.length p2 <= 20)%nat -> (String.length c2 <= 5)%nat ->
  (String.length t2 <= 20)%nat ->
  vouchers d1 = vouchers d /\
  exists d2,
    startCall d1 vo p2 c2 t2 cid2 now2 = (d2, sendResponse (StartData cid2 r)) /\
    vouchers d2 = vouchers d.
Proof.
  intros S Hne Hfr Hp Hc Ht _ _ _ Lp Lc Lt.
  pose proof (startCall_success _ _ _ _ _ _ _ _ _ S)
    as (vid & v & -> & _ & _ & _ & _ & _ & _ & _ & _ & _ & _ & Hv & _ & _
        & (p' & c' & t' & _ & _ & _ & Hcl) & _).
  split; [exact Hv|].
  revert S. unfold startCall.
  rewrite (not_nonempty _ Hp), (not_nonempty _ Hc), (not_nonempty _ Ht).
  destruct (JS.not p || JS.not c || JS.not t); [discriminate|].
  rewrite Hv. simpl orb. cbv iota.
  destruct (select_voucher_for_call vid (vouchers d)) as [|[rem dev] rows];
    [discriminate|].
  destruct (rem <=? 0); [discriminate|].
  destruct (insert_call_log cid vid p c t dev now d); [|discriminate].
  intros H. injection H as _ <-.
  unfold insert_call_log.
  rewrite (varchar_fits _ _ Lp), (varchar_fits _ _ Lc), (varchar_fits _ _ Lt).
  assert (Hfr1 : call_id_exists cid2 (call_logs d1) = false).
  { rewrite Hcl. unfold call_id_exists in *. rewrite existsb_app, Hfr. simpl.
    rewrite orb_false_r. apply String.eqb_neq. congruence. }
  rewrite Hfr1. eexists. split; [reflexivity|]. simpl. exact Hv.
Qed.

Lemma startCall_reserves_nothing_witness :
  exists d2,
    startCall Sample.d0 (Some 0%nat) "5550111" "+1" "local" "call-2" 101%nat =
    (d2, sendResponse (StartData "call-2" 10)).
Proof.
  destruct (startCall_reserves_nothing Sample.issued_voucher Sample.d0
              (Some 0%nat) "5550100" "+1" "local" "call-1"
              "5550111" "+1" "local" "call-2" 100%nat 101%nat 10 eq_refl)
    as (_ & d2 & E & _); try discriminate; try reflexivity;
    try (simpl; lia).
  exists d2. exact E.
Defined.

(** ** Edges of the billing rule *)

(** X16.  A longer call is never billed fewer minutes, and sixty seconds more are
    billed exactly one minute more. *)
Theorem minutesUsed_monotone (s1 s2 : Z) :
  s1 <= s2 ->
  minutesUsed s1 <= minutesUsed s2 /\
  minutesUsed (s1 + 60) = minutesUsed s1 + 1.
Proof.
  intros H.
  pose proof (minutesUsed_ceiling s1). pose proof (minutesUsed_ceiling s2).
  pose proof (minutesUsed_ceiling (s1 + 60)). lia.
Qed.

Lemma minutesUsed_monotone_witness : minutesUsed 59 <= minutesUsed 61.
Proof. apply (minutesUsed_monotone 59 61). lia. Defined.

Lemma reachable_call_voucher d cid c :
  reachable d -> call_by_id cid d = Some c ->
  exists vid v, CallLog.voucher_id c = Some vid /\
                voucher_by_id vid d = Some v /\ flags_consistent v /\
                0 <= Voucher.remaining_minutes v.
Proof.
  intros Hr Hc.
  destruct (reachable_call d cid c Hr Hc) as (vid & v & Hv & Hf & H0).
  exists vid, v. split; [exact Hv|]. split; [exact Hf|]. split; [|exact H0].
  destruct Hr as (rs & ->). apply (run_flags rs).
  apply find_some in Hf. apply Hf.
Qed.

(** X17.  In a reachable state, a call ended with a duration of 0 seconds is
    accepted, since 0 is not [undefined]: on a voucher whose balance is
    within [INTEGER] the call is completed and the zero-minute debit leaves
    the columns [id], [code], [duration_minutes], [remaining_minutes],
    [is_used], [is_active], [device_id], [used_at], [created_by] and
    [batch_id] of the voucher as they were. *)
Theorem endCall_zero_seconds (d : db) (cid : string) (c : CallLog.row)
  (now : nat) :
  reachable d -> cid <> "" -> call_by_id cid d = Some c ->
  exists vid v,
    CallLog.voucher_id c = Some vid /\ voucher_by_id vid d = Some v /\
    (Voucher.remaining_minutes v <= 2147483647 ->
     exists d' v',
       endCall d cid (Some 0) now =
         (d', sendResponse (EndData true (Voucher.remaining_minutes v))) /\
       voucher_by_id vid d' = Some v' /\
       same_but_device v v' /\ Voucher.device_id v' = Voucher.device_id v /\
       call_by_id cid d' = Some (complete_call 0 now c)).
Proof.
  intros Hr Hcid Hc.
  destruct (reachable_call_voucher d cid c Hr Hc)
    as (vid & v & Hv & Hf & (Ha & Hu & Hpos) & H0).
  exists vid, v. split; [exact Hv|]. split; [exact Hf|]. intros Hmax.
  destruct (endCall_settles d cid 0 now c vid v Hcid Hc Hv Hf eq_refl
              (reachable_debit_fits d vid v 0 Hr Hf eq_refl
                 ltac:(change (minutesUsed 0) with 0; lia)))
    as (d' & E & Hf' & Hc').
  exists d', (debit_row (minutesUsed 0) now v).
  change (minutesUsed 0) with 0 in *. rewrite Z.sub_0_r in E.
  split; [rewrite E; f_equal; f_equal; f_equal; lia|].
  split; [exact Hf'|]. split; [|split; [reflexivity | exact Hc']].
  destruct v as [i cd du re us ac dv ua cb bi].
  unfold same_but_device, debit_row. simpl in *. rewrite Z.sub_0_r.
  destruct (re <=? 0) eqn:El.
  - apply Z.leb_le in El.
    assert (Hus : us = true).
    { destruct us; [reflexivity|]. specialize (Hpos eq_refl). lia. }
    subst us. destruct ua as [t|]; [|exfalso; apply (proj1 Hu eq_refl); reflexivity].
    simpl. repeat split. lia.
  - simpl. apply Z.leb_gt in El. repeat split. lia.
Qed.

Lemma endCall_zero_seconds_witness :
  exists d',
    endCall Sample.d0 "call-1" (Some 0) 200%nat =
      (d', sendResponse (EndData true 10)) /\
    remaining_of 0 d' = Some 10.
Proof.
  assert (Hr : reachable Sample.d0) by (exists Sample.setup; reflexivity).
  destruct (endCall_zero_seconds Sample.d0 "call-1"
              (CallLog.mk "call-1" (Some 0%nat) "5550100" "+1" "local" 0
                 active 100%nat None None) 200%nat Hr ltac:(discriminate)
              eq_refl)
    as (vid & v & Hv & Hf & H).
  injection Hv as <-. vm_compute in Hf. injection Hf as <-.
  destruct (H ltac:(simpl; lia)) as (d' & v' & E & Hf' & (_ & _ & _ & R & _) & _).
  exists d'. split; [exact E|]. unfold remaining_of. rewrite Hf'. simpl.
  rewrite R. reflexivity.
Defined.

(** X18.  In a reachable state, a call of a duration within [INTEGER] that is
    billed at least the balance of its voucher empties it: the balance
    becomes 0, never less, the voucher is marked used, and [used_at] is the
    time of this debit unless it was set before. *)
Theorem endCall_exhausts (d : db) (cid : string) (c : CallLog.row)
  (secs : Z) (now : nat) (vid : nat) (v : Voucher.row) :
  reachable d -> cid <> "" -> call_by_id cid d = Some c ->
  CallLog.voucher_id c = Some vid -> voucher_by_id vid d = Some v ->
  int4 secs = true ->
  Voucher.remaining_minutes v <= minutesUsed secs ->
  exists d' v',
    endCall d cid (Some secs) now = (d', sendResponse (EndData true 0)) /\
    voucher_by_id vid d' = Some v' /\
    Voucher.remaining_minutes v' = 0 /\ Voucher.is_used v' = true /\
    Voucher.used_at v' = match Voucher.used_at v with
                         | None => Some now
                         | Some t => Some t
                         end.
Proof.
  intros Hr Hcid Hc Hv Hf Hs Hle.
  assert (Hm : minutesUsed secs <= 2147483647)
    by (apply int4_bounds; apply minutesUsed_int4; exact Hs).
  destruct (endCall_settles d cid secs now c vid v Hcid Hc Hv Hf Hs
              (reachable_debit_fits d vid v secs Hr Hf Hs ltac:(lia)))
    as (d' & E & Hf' & _).
  exists d', (debit_row (minutesUsed secs) now v).
  split; [rewrite E; f_equal; f_equal; f_equal; lia|].
  split; [exact Hf'|]. unfold debit_row. simpl.
  assert (El : (Voucher.remaining_minutes v - minutesUsed secs <=? 0) = true)
    by (apply Z.leb_le; lia).
  rewrite El. split; [lia|]. split; [reflexivity|].
  destruct (Voucher.used_at v); reflexivity.
Qed.

Lemma endCall_exhausts_witness :
  exists d' v',
    endCall Sample.d0 "call-1" (Some 3600) 200%nat =
      (d', sendResponse (EndData true 0)) /\
    voucher_by_id 0 d' = Some v' /\ Voucher.used_at v' = Some 200%nat.
Proof.
  assert (Hr : reachable Sample.d0) by (exists Sample.setup; reflexivity).
  destruct (endCall_exhausts Sample.d0 "call-1"
              (CallLog.mk "call-1" (Some 0%nat) "5550100" "+1" "local" 0
                 active 100%nat None None) 3600 200%nat 0
              (Voucher.mk 0 "AAAAAAAAAAAA" 10 10 false true None None 7 None)
              Hr)
    as (d' & v' & E & Hf & _ & _ & Hu).
  - discriminate.
  - reflexivity.
  - reflexivity.
  - reflexivity.
  - reflexivity.
  - vm_compute. discriminate.
  - exists d', v'. split; [exact E|]. split; [exact Hf | exact Hu].
Defined.

Lemma validate_writes_device_witness :
  option_map Voucher.device_id
    (voucher_by_id 0
       (fst (validate Sample.bound_once "aaaaaaaaaaaa" "device-B"))) =
  Some (Some "device-B").
Proof.
  destruct (validate_writes_device Sample.bound_once "aaaaaaaaaaaa" "device-B"
              10 0 eq_refl) as (stored & _ & H & L).
  rewrite H, (L ltac:(simpl; lia)). reflexivity.
Defined.

(** ** Listing the vouchers *)

Lemma in_firstn {A : Type} (n : nat) (l : list A) (x : A) :
  In x (firstn n l) -> In x l.
Proof.
  intros H. rewrite <- (firstn_skipn n l). apply in_or_app. now left.
Qed.

Lemma in_skipn {A : Type} (n : nat) (l : list A) (x : A) :
  In x (skipn n l) -> In x l.
Proof.
  intros H. rewrite <- (firstn_skipn n l). apply in_or_app. now right.
Qed.

Section ListingFacts.

Variable newest_first : list Voucher.row -> list Voucher.row.
Hypothesis newest_first_perm : forall l, Permutation l (newest_first l).

(** X20.  For a page, a limit and an offset that are safe integers: a listing
    that is answered holds at most [limit] rows and [limit] is between 1 and
    100; every row listed is a voucher of the table that matches the status
    asked for, and [total] is the number of vouchers that match it, whatever
    the page.  The listing fails with status 500 exactly when the limit or
    the offset it computes is negative. *)
Theorem listVouchers_page (d : db) (page limit : option Z) (status : string) :
  safe (page_of page) = true -> safe (limit_of limit) = true ->
  safe ((page_of page - 1) * limit_of limit) = true ->
  match listVouchers newest_first d page limit status with
  | inl pg =>
      pg_limit pg = limit_of limit /\ pg_page pg = page_of page /\
      1 <= pg_limit pg <= 100 /\
      0 <= (pg_page pg - 1) * pg_limit pg /\
      Z.of_nat (List.length (pg_vouchers pg)) <= pg_limit pg /\
      pg_total pg =
        List.length (filter (where_status status) (vouchers d)) /\
      (forall row, In row (pg_vouchers pg) ->
         exists v, In v (vouchers d) /\ where_status status v = true /\
                   row = listed v)
  | inr (e, code) =>
      code = 500%nat /\
      (limit_of limit < 0 \/ (page_of page - 1) * limit_of limit < 0)
  end.
Proof.
  intros _ _ Hsafe. unfold listVouchers.
  assert (H8 : int8 ((page_of page - 1) * limit_of limit) = true).
  { unfold safe in Hsafe. apply andb_true_iff in Hsafe.
    destruct Hsafe as [H1 H2]. apply Z.leb_le in H1, H2.
    unfold int8. apply andb_true_iff. split; apply Z.leb_le; lia. }
  rewrite H8. simpl negb. rewrite orb_false_r.
  destruct (limit_of limit <? 0) eqn:El.
  - simpl. split; [reflexivity|]. left. apply Z.ltb_lt. exact El.
  - destruct ((page_of page - 1) * limit_of limit <? 0) eqn:Eo; simpl.
    + split; [reflexivity|]. right. apply Z.ltb_lt. exact Eo.
    + apply Z.ltb_ge in El, Eo.
      split; [reflexivity|]. split; [reflexivity|].
      split.
      { clear Eo H8 Hsafe. revert El. unfold limit_of.
        destruct limit as [n|]; [|lia].
        destruct (n =? 0) eqn:En; [lia|]. apply Z.eqb_neq in En. lia. }
      split; [exact Eo|].
      split.
      * rewrite length_map. pose proof (firstn_le_length (Z.to_nat (limit_of limit))
          (skipn (Z.to_nat ((page_of page - 1) * limit_of limit))
             (newest_first (filter (where_status status) (vouchers d))))).
        lia.
      * split; [reflexivity|].
        intros row Hin. apply in_map_iff in Hin. destruct Hin as (v & <- & Hin).
        apply in_firstn in Hin. apply in_skipn in Hin.
        apply (Permutation_in _ (Permutation_sym (newest_first_perm _))) in Hin.
        apply filter_In in Hin. destruct Hin as (Hv & Hw).
        exists v. auto.
Qed.

(** X21.  In a reachable state no voucher is inactive, so the listing of the
    inactive vouchers is empty, and the vouchers listed as active and those
    listed as used together are all the vouchers. *)
Theorem listVouchers_partition (d : db) (page limit : option Z) :
  reachable d ->
  match listVouchers newest_first d page limit "inactive",
        listVouchers newest_first d page limit "active",
        listVouchers newest_first d page limit "used",
        listVouchers newest_first d page limit "" with
  | inl none, inl unused, inl used, inl all =>
      pg_vouchers none = [] /\ pg_total none = 0%nat /\
      (pg_total unused + pg_total used = pg_total all)%nat /\
      pg_total all = List.length (vouchers d)
  | inr _, inr _, inr _, inr _ => True
  | _, _, _, _ => False
  end.
Proof.
  intros (rs & ->). unfold listVouchers.
  destruct ((limit_of limit <? 0) || ((page_of page - 1) * limit_of limit <? 0)
            || negb (int8 ((page_of page - 1) * limit_of limit)));
    [exact I|].
  simpl.
  assert (Act : Forall (fun v => Voucher.is_active v = true)
                  (vouchers (run empty_db rs))).
  { rewrite Forall_forall. intros v Hin. apply (run_flags rs v Hin). }
  revert Act. generalize (vouchers (run empty_db rs)). intros l Act.
  assert (Hnone : filter (where_status "inactive") l = []).
  { apply find_none_filter. rewrite Forall_forall in Act. intros v Hin.
    unfold where_status. simpl. rewrite (Act v Hin). reflexivity. }
  rewrite Hnone.
  assert (Hempty : newest_first [] = []).
  { apply Permutation_nil. apply newest_first_perm. }
  rewrite Hempty, skipn_nil, firstn_nil.
  split; [reflexivity|]. split; [reflexivity|].
  clear Hnone Hempty. split.
  - induction Act as [|v l Hv _ IH]; [reflexivity|].
    cbn [filter]. change (where_status "" v) with true.
    change (where_status "active" v)
      with (Voucher.is_active v && negb (Voucher.is_used v)).
    change (where_status "used" v) with (Voucher.is_used v).
    rewrite Hv. cbv iota. destruct (Voucher.is_used v); simpl; lia.
  - clear. induction l as [|v l IH]; [reflexivity|].
    cbn [filter]. change (where_status "" v) with true. cbv iota.
    simpl. f_equal. exact IH.
Qed.

End ListingFacts.

Lemma listVouchers_page_witness :
  match listVouchers (@rev Voucher.row) Sample.ended_twice (Some 1) (Some 500)
          "active" with
  | inl pg => pg_limit pg = 100 /\ pg_total pg = 1%nat
  | inr _ => False
  end.
Proof.
  pose proof (listVouchers_page (@rev Voucher.row) (@Permutation_rev _)
                Sample.ended_twice (Some 1) (Some 500) "active"
                eq_refl eq_refl eq_refl) as H.
  destruct (listVouchers (@rev Voucher.row) Sample.ended_twice (Some 1)
              (Some 500) "active") as [pg|[e code]] eqn:L.
  - destruct H as (Hl & _ & _ & _ & _ & Ht & _). split; [exact Hl | exact Ht].
  - vm_compute in L. discriminate.
Defined.

Lemma listVouchers_partition_witness :
  match listVouchers (@rev Voucher.row) Sample.ended_twice None None "inactive"
  with
  | inl pg => pg_vouchers pg = []
  | inr _ => False
  end.
Proof.
  assert (Hr : reachable Sample.ended_twice).
  { exists (Sample.setup ++ [EndCall "call-1" (Some 60) 200%nat;
                             EndCall "call-1" (Some 60) 300%nat]).
    reflexivity. }
  pose proof (listVouchers_partition (@rev Voucher.row) (@Permutation_rev _)
                Sample.ended_twice None None Hr) as H.
  destruct (listVouchers (@rev Voucher.row) Sample.ended_twice None None
              "inactive") as [pg|[e code]] eqn:L.
  - destruct (listVouchers (@rev Voucher.row) Sample.ended_twice None None
                "active"); [|contradiction].
    destruct (listVouchers (@rev Voucher.row) Sample.ended_twice None None
                "used"); [|contradiction].
    destruct (listVouchers (@rev Voucher.row) Sample.ended_twice None None "");
      [|contradiction].
    apply H.
  - vm_compute in L. discriminate.
Defined.

(** ** Eligibility in reachable states *)

Lemma reachable_lookup_by_id d vid :
  reachable d ->
  match voucher_by_id vid d with
  | Some v =>
      flags_consistent v /\
      forall x, In x (vouchers d) -> Voucher.id x = vid -> x = v
  | None => forall x, In x (vouchers d) -> Voucher.id x <> vid
  end.
Proof.
  intros Hr. destruct (voucher_by_id vid d) as [v|] eqn:F.
  - pose proof (find_some _ _ F) as (Hin & E). apply Nat.eqb_eq in E.
    split.
    + destruct Hr as (rs & ->). apply (run_flags rs v Hin).
    + intros x Hx Hid.
      destruct (reachable_keys_unique_holds d Hr) as (_ & Hnd & _).
      apply (unique_key Voucher.id (vouchers d)); auto. congruence.
  - intros x Hx Hid. apply (find_none _ _ F) in Hx. simpl in Hx.
    apply Nat.eqb_neq in Hx. contradiction.
Qed.

(** X6.  In a reachable state, on requests in plain text, the used flag alone
    decides whether a voucher is accepted.  A call starts on a voucher
    exactly when the voucher exists and is not marked used, unless the
    number, the country code or the type does not fit its column or the
    call id is taken, which is answered with status 500; the answer "No
    minutes remaining on voucher" is never given.  A validation answers
    [valid = true] exactly when a voucher carries the code and is not marked
    used, unless the device id does not fit its column, which is answered
    with status 500. *)
Theorem eligibility_is_unused (d : db) :
  reachable d ->
  (forall vid p c t cid now,
     p <> "" -> c <> "" -> t <> "" ->
     plain p = true -> plain c = true -> plain t = true ->
     snd (startCall d (Some vid) p c t cid now) =
     match voucher_by_id vid d with
     | Some v =>
         if Voucher.is_used v
         then sendError "Invalid or expired voucher" 400
         else
           match varchar 20 p, varchar 5 c, varchar 20 t with
           | Some _, Some _, Some _ =>
               if call_id_exists cid (call_logs d)
               then sendError "Internal server error" 500
               else sendResponse (StartData cid (Voucher.remaining_minutes v))
           | _, _, _ => sendError "Internal server error" 500
           end
     | None => sendError "Invalid or expired voucher" 400
     end) /\
  (forall code dev,
     code <> "" -> dev <> "" -> plain code = true -> plain dev = true ->
     snd (validate d code dev) =
     match find (fun v => String.eqb (Voucher.code v) (JS.toUpperCase code))
                (vouchers d) with
     | Some v =>
         if Voucher.is_used v
         then sendResponse (ValidateData false 0 None)
         else
           match varchar 100 dev with
           | Some _ =>
               sendResponse (ValidateData true (Voucher.remaining_minutes v)
                               (Some (Voucher.id v)))
           | None => sendError "Internal server error" 500
           end
     | None => sendResponse (ValidateData false 0 None)
     end).
Proof.
  intros Hr. split.
  - intros vid p c t cid now Hp Hc Ht _ _ _. unfold startCall.
    rewrite (not_nonempty _ Hp), (not_nonempty _ Hc), (not_nonempty _ Ht).
    simpl orb. cbv iota.
    pose proof (reachable_lookup_by_id d vid Hr) as L.
    unfold select_voucher_for_call.
    set (q := fun v => Nat.eqb (Voucher.id v) vid && Voucher.is_active v
                       && negb (Voucher.is_used v)).
    destruct (voucher_by_id vid d) as [v|] eqn:F.
    + destruct L as ((Ha & _ & Hpos) & Huniq).
      pose proof (find_some _ _ F) as (Hin & E).
      destruct (Voucher.is_used v) eqn:Hu.
      * rewrite find_none_filter; [reflexivity|].
        intros x Hx. unfold q. destruct (Nat.eqb (Voucher.id x) vid) eqn:Ex;
          [|reflexivity].
        apply Nat.eqb_eq in Ex. rewrite (Huniq x Hx Ex), Hu.
        apply andb_false_r.
      * destruct (filter_find q (vouchers d)) as [[_ Hn] | (x & rest & Hfl & Hfd)].
        -- exfalso. apply (find_none _ _ Hn) in Hin. unfold q in Hin.
           simpl in E. rewrite E, Ha, Hu in Hin. discriminate.
        -- rewrite Hfl. cbn [map].
           pose proof (find_some _ _ Hfd) as (Hx & Eq). unfold q in Eq.
           apply andb_prop in Eq. destruct Eq as (Eq & _).
           apply andb_prop in Eq. destruct Eq as (Eq & _).
           apply Nat.eqb_eq in Eq. rewrite (Huniq x Hx Eq).
           specialize (Hpos eq_refl).
           replace (Voucher.remaining_minutes v <=? 0) with false
             by (symmetry; apply Z.leb_gt; lia).
           unfold insert_call_log.
           destruct (varchar 20 p); [|reflexivity].
           destruct (varchar 5 c); [|reflexivity].
           destruct (varchar 20 t); [|reflexivity].
           destruct (call_id_exists cid (call_logs d)); reflexivity.
    + rewrite find_none_filter; [reflexivity|].
      intros x Hx. unfold q. specialize (L x Hx). apply Nat.eqb_neq in L.
      rewrite L. reflexivity.
  - intros code dev Hc Hd _ _.
    destruct (find (fun v => String.eqb (Voucher.code v) (JS.toUpperCase code))
                (vouchers d)) as [v|] eqn:F.
    + rewrite (validate_found d code dev v Hc Hd F).
      pose proof (find_some _ _ F) as (Hin & _).
      destruct Hr as (rs & ->).
      destruct (run_flags rs v Hin) as ((Ha & _ & Hpos) & _).
      rewrite Ha. simpl. destruct (Voucher.is_used v); [reflexivity|].
      specialize (Hpos eq_refl).
      replace (Voucher.remaining_minutes v <=? 0) with false
        by (symmetry; apply Z.leb_gt; lia).
      reflexivity.
    + unfold validate.
      rewrite (not_nonempty _ Hc), (not_nonempty _ Hd). simpl orb.
      pose proof (select_voucher_by_code_first (JS.toUpperCase code)
                    (vouchers d)) as H.
      destruct (select_voucher_by_code _ _) as [|row rows]; [reflexivity|].
      destruct H as (v0 & Hf0 & _). congruence.
Qed.

Lemma eligibility_is_unused_witness :
  snd (startCall Sample.ended_once (Some 0%nat) "5550100" "+1" "local" "call-1"
         400%nat) = sendError "Internal server error" 500.
Proof.
  assert (Hr : reachable Sample.ended_once).
  { exists (Sample.setup ++ [EndCall "call-1" (Some 60) 200%nat]).
    reflexivity. }
  destruct (eligibility_is_unused Sample.ended_once Hr) as (H & _).
  rewrite H; [reflexivity | discriminate | discriminate | discriminate
              | reflexivity | reflexivity | reflexivity].
Defined.

(** ** The audit log *)

(** X22.  The log only grows, and by one entry at most: a request that starts or
    ends a call or creates vouchers adds exactly one entry when it succeeds,
    and a validation, or a request answered with an error, adds none. *)
Theorem audit_log_append_only (d d' : db) (r : request) (resp : response) :
  handle d r = Some (d', resp) ->
  exists entries,
    system_logs d' = system_logs d ++ entries /\
    List.length entries =
      match r, resp with
      | ValidateVoucher _ _, _ => 0%nat
      | _, sendError _ _ => 0%nat
      | _, sendResponse _ => 1%nat
      end.
Proof.
  destruct r as [code dev|vo p c t cid now|cid so now
                 |mo admin draws|qo mo admin draws faults]; simpl.
  - intros H. injection H as H.
    assert (E : d' = fst (validate d code dev)) by (rewrite H; reflexivity).
    subst d'. clear H. exists []. rewrite app_nil_r.
    split; [|reflexivity].
    unfold validate. destruct (JS.not code || JS.not dev); [reflexivity|].
    destruct (select_voucher_by_code _ _) as [|row rows]; [reflexivity|].
    destruct (negb _ || _ || _); [reflexivity|]. simpl.
    destruct (update_voucher_device _ _ _); reflexivity.
  - unfold startCall. destruct vo as [vid|];
      [|intros H; injection H as <- <-; exists []; rewrite app_nil_r; auto].
    destruct (JS.not p || JS.not c || JS.not t);
      [intros H; injection H as <- <-; exists []; rewrite app_nil_r; auto|].
    destruct (select_voucher_for_call vid (vouchers d)) as [|[rem dev] rows];
      [intros H; injection H as <- <-; exists []; rewrite app_nil_r; auto|].
    destruct (rem <=? 0);
      [intros H; injection H as <- <-; exists []; rewrite app_nil_r; auto|].
    unfold insert_call_log.
    destruct (varchar 20 p);
      [|intros H; injection H as <- <-; exists []; rewrite app_nil_r; auto].
    destruct (varchar 5 c);
      [|intros H; injection H as <- <-; exists []; rewrite app_nil_r; auto].
    destruct (varchar 20 t);
      [|intros H; injection H as <- <-; exists []; rewrite app_nil_r; auto].
    destruct (call_id_exists cid (call_logs d));
      [intros H; injection H as <- <-; exists []; rewrite app_nil_r; auto|].
    intros H. injection H as <- <-. eexists [_]. split; reflexivity.
  - unfold endCall. destruct so as [secs|];
      [|intros H; injection H as <- <-; exists []; rewrite app_nil_r; auto].
    destruct (JS.not cid);
      [intros H; injection H as <- <-; exists []; rewrite app_nil_r; auto|].
    destruct (select_call_voucher cid (call_logs d));
      [intros H; injection H as <- <-; exists []; rewrite app_nil_r; auto|].
    destruct (update_call_log _ _ _ _);
      [|intros H; injection H as <- <-; exists []; rewrite app_nil_r; auto].
    destruct (debit_overflows _ _ _);
      [intros H; injection H as <- <-; exists []; rewrite app_nil_r; auto|].
    intros H. injection H as <- <-. eexists [_]. split; reflexivity.
  - unfold generate. destruct mo as [m|];
      [|intros H; injection H as <- <-; exists []; rewrite app_nil_r; auto].
    destruct (m <=? 0);
      [intros H; injection H as <- <-; exists []; rewrite app_nil_r; auto|].
    destruct (uniqueCode (vouchers d) draws); [|discriminate].
    destruct (int4 m);
      [|intros H; injection H as <- <-; exists []; rewrite app_nil_r; auto].
    unfold insert_voucher. destruct (is_empty _);
      [|intros H; injection H as <- <-; exists []; rewrite app_nil_r; auto].
    intros H. injection H as <- <-. eexists [_]. split; reflexivity.
  - unfold batch. destruct qo as [q|];
      [|intros H; injection H as <- <-; exists []; rewrite app_nil_r; auto].
    destruct mo as [m|];
      [|intros H; injection H as <- <-; exists []; rewrite app_nil_r; auto].
    destruct ((q <=? 0) || (m <=? 0));
      [intros H; injection H as <- <-; exists []; rewrite app_nil_r; auto|].
    destruct (q >? 1000);
      [intros H; injection H as <- <-; exists []; rewrite app_nil_r; auto|].
    destruct (batch_tx faults q m admin (mkTx d 0 draws)) as [[b cs] s| |] eqn:E;
      [| intros H; injection H as <- <-; exists []; rewrite app_nil_r; auto
       | discriminate].
    apply batch_tx_returned in E.
    destruct E as (news & _ & _ & _ & _ & _ & _ & _ & _ & Hsl & _).
    intros H. injection H as <- <-. simpl. rewrite Hsl. simpl.
    eexists [_]. split; reflexivity.
Qed.

Lemma audit_log_append_only_witness :
  List.length (system_logs Sample.ended_once) =
  S (List.length (system_logs Sample.d0)).
Proof.
  destruct (audit_log_append_only Sample.d0 Sample.ended_once
              (EndCall "call-1" (Some 60) 200%nat)
              (sendResponse (EndData true 9)) eq_refl) as (entries & E & L).
  rewrite E, length_app, L. apply Nat.add_1_r.
Defined.

(** ** Listing the calls *)

Lemma filter_unique_id (vs : list Voucher.row) (v : Voucher.row) :
  NoDup (map Voucher.id vs) -> In v vs ->
  filter (fun x => Nat.eqb (Voucher.id x) (Voucher.id v)) vs = [v].
Proof.
  induction vs as [|a vs IH]; intros Hnd Hin; [destruct Hin|].
  inversion Hnd as [|? ? Hnot Hnd']; subst. simpl.
  destruct Hin as [->|Hin].
  - rewrite Nat.eqb_refl. f_equal. apply find_none_filter.
    intros x Hx. apply Nat.eqb_neq. intros E. apply Hnot. rewrite <- E.
    apply in_map. exact Hx.
  - destruct (Nat.eqb (Voucher.id a) (Voucher.id v)) eqn:E.
    + exfalso. apply Nat.eqb_eq in E. apply Hnot. rewrite E.
      apply in_map. exact Hin.
    + apply IH; assumption.
Qed.

Lemma reachable_join d c :
  reachable d -> In c (call_logs d) ->
  exists vid v,
    CallLog.voucher_id c = Some vid /\ voucher_by_id vid d = Some v /\
    join_voucher (vouchers d) c = [listed_call_of c (Some (Voucher.code v))].
Proof.
  intros Hr Hin.
  destruct (reachable_calls_linked d Hr c Hin) as (vid & v & Hv & Hf).
  exists vid, v. split; [exact Hv|]. split; [exact Hf|].
  destruct (reachable_keys_unique_holds d Hr) as (_ & Hnd & _).
  pose proof (find_some _ _ Hf) as (Hvin & E). apply Nat.eqb_eq in E.
  unfold join_voucher. rewrite Hv. simpl opt_nat_eqb. rewrite <- E.
  rewrite (filter_unique_id _ v Hnd Hvin). reflexivity.
Qed.

Lemma reachable_joined d :
  reachable d ->
  flat_map (join_voucher (vouchers d)) (call_logs d) =
  map (fun c => listed_call_of c
                  (match CallLog.voucher_id c with
                   | Some vid => option_map Voucher.code (voucher_by_id vid d)
                   | None => None
                   end)) (call_logs d) /\
  Forall (fun c => exists vid v, CallLog.voucher_id c = Some vid /\
                                 voucher_by_id vid d = Some v) (call_logs d).
Proof.
  intros Hr.
  assert (H : forall c, In c (call_logs d) ->
            exists vid v,
              CallLog.voucher_id c = Some vid /\ voucher_by_id vid d = Some v /\
              join_voucher (vouchers d) c =
              [listed_call_of c (Some (Voucher.code v))])
    by (intros c Hc; apply reachable_join; assumption).
  revert H. generalize (call_logs d). intros l H.
  induction l as [|c l IH]; [split; [reflexivity | constructor]|].
  destruct (H c (or_introl eq_refl)) as (vid & v & Hv & Hf & Hj).
  destruct IH as (IH1 & IH2); [intros x Hx; apply H; now right|].
  split.
  - simpl. rewrite Hj, IH1, Hv, Hf. reflexivity.
  - constructor; [eauto | exact IH2].
Qed.

Section CallListingFacts.

Variable latest_first : list listed_call -> list listed_call.
Hypothesis latest_first_perm : forall l, Permutation l (latest_first l).

(** X23.  In a reachable state the join of the call listing neither drops nor
    repeats a call: there is one joined row per call, so [total] is their
    number, and every row listed is a call of the table together with the
    code of the voucher the call was started on, never without a code.  For
    a page, a limit and an offset that are safe integers, an answered
    listing holds at most [limit] rows, with [limit] between 1 and 100, and
    the listing fails with status 500 exactly when the limit or the offset
    it computes is negative. *)
Theorem listCalls_page (d : db) (page limit : option Z) :
  reachable d ->
  safe (page_of page) = true -> safe (limit_of limit) = true ->
  safe ((page_of page - 1) * limit_of limit) = true ->
  match listCalls latest_first d page limit with
  | inl pg =>
      cp_limit pg = limit_of limit /\ cp_page pg = page_of page /\
      1 <= cp_limit pg <= 100 /\
      Z.of_nat (List.length (cp_calls pg)) <= cp_limit pg /\
      cp_total pg = List.length (call_logs d) /\
      cp_total pg =
        List.length (flat_map (join_voucher (vouchers d)) (call_logs d)) /\
      (forall row, In row (cp_calls pg) ->
         exists c vid v,
           In c (call_logs d) /\ CallLog.voucher_id c = Some vid /\
           voucher_by_id vid d = Some v /\
           row = listed_call_of c (Some (Voucher.code v)))
  | inr (e, code) =>
      code = 500%nat /\
      (limit_of limit < 0 \/ (page_of page - 1) * limit_of limit < 0)
  end.
Proof.
  intros Hr _ _ Hsafe. unfold listCalls.
  assert (H8 : int8 ((page_of page - 1) * limit_of limit) = true).
  { unfold safe in Hsafe. apply andb_true_iff in Hsafe.
    destruct Hsafe as [H1 H2]. apply Z.leb_le in H1, H2.
    unfold int8. apply andb_true_iff. split; apply Z.leb_le; lia. }
  rewrite H8. simpl negb. rewrite orb_false_r. clear H8 Hsafe.
  destruct (limit_of limit <? 0) eqn:El.
  - simpl. split; [reflexivity|]. left. apply Z.ltb_lt. exact El.
  - destruct ((page_of page - 1) * limit_of limit <? 0) eqn:Eo; simpl.
    + split; [reflexivity|]. right. apply Z.ltb_lt. exact Eo.
    + apply Z.ltb_ge in El, Eo.
      destruct (reachable_joined d Hr) as (Hj & Hl).
      split; [reflexivity|]. split; [reflexivity|].
      split.
      { clear Eo. revert El. unfold limit_of. destruct limit as [n|]; [|lia].
        destruct (n =? 0) eqn:En; [lia|]. apply Z.eqb_neq in En. lia. }
      split.
      { pose proof (firstn_le_length (Z.to_nat (limit_of limit))
          (skipn (Z.to_nat ((page_of page - 1) * limit_of limit))
             (latest_first
                (flat_map (join_voucher (vouchers d)) (call_logs d))))).
        lia. }
      split; [reflexivity|].
      split; [rewrite Hj, length_map; reflexivity|].
      intros row Hin. apply in_firstn in Hin. apply in_skipn in Hin.
      apply (Permutation_in _ (Permutation_sym (latest_first_perm _))) in Hin.
      rewrite Hj in Hin. apply in_map_iff in Hin.
      destruct Hin as (c & <- & Hc).
      rewrite Forall_forall in Hl. destruct (Hl c Hc) as (vid & v & Hv & Hf).
      exists c, vid, v. rewrite Hv, Hf. auto.
Qed.

End CallListingFacts.

Lemma listCalls_page_witness :
  match listCalls (@rev listed_call) Sample.ended_once None None with
  | inl pg => cp_total pg = 1%nat /\ cp_limit pg = 50
  | inr _ => False
  end.
Proof.
  assert (Hr : reachable Sample.ended_once).
  { exists (Sample.setup ++ [EndCall "call-1" (Some 60) 200%nat]).
    reflexivity. }
  pose proof (listCalls_page (@rev listed_call) (@Permutation_rev _)
                Sample.ended_once None None Hr eq_refl eq_refl eq_refl) as H.
  destruct (listCalls (@rev listed_call) Sample.ended_once None None)
    as [pg|[e code]] eqn:L.
  - destruct H as (Hl & _ & _ & _ & Ht & _). split; [exact Ht | exact Hl].
  - vm_compute in L. discriminate.
Defined.
